(** * gcore-usage: report pipeline, embedded and verified

    A shallow embedding of the report-generation core of the repository:

    - [apps/core/data_processor.py]  (module [DataProcessor])
    - [apps/core/gcore_client.py]    (module [GcoreClient])
    - [apps/core/auth.py]            (module [TokenManager])
    - [main.py]                      (module [Legacy], the single-file
                                      implementation of the same pipeline)

    Python values are a small inductive type; dictionaries are association
    lists in insertion order (the order in which Python iterates them);
    exceptions are an explicit [result] type; wall-clock time is a rational
    number of seconds, and the sums [TokenManager] computes on it are
    rounded as binary64 sums are.  Text is ASCII: [str.lower], [str.upper]
    and [str.strip] are modelled on the ASCII range. *)

From Stdlib Require Import ZArith QArith List String Ascii Bool Lia Lqa.
From Stdlib Require Import Sorting.Sorted.
From Stdlib Require Import QArith.Qround.
From Stdlib Require Import Numbers.DecimalString.
From Stdlib Require Numbers.DecimalZ Numbers.DecimalPos.
Import ListNotations.

Set Warnings "-register-all".

Open Scope string_scope.
Open Scope Z_scope.

(** ** Python values and builtins *)

Module Py.

(** A float is carried as the text [repr] prints for it: [repr] round-trips
    every float, so the text determines the float. *)
Inductive value : Type :=
| VNone
| VBool (b : bool)
| VInt (z : Z)
| VFloat (text : string)
| VStr (s : string)
| VList (l : list value)
| VDict (d : list (string * value)).

(** A [dict] with string keys, in insertion order. *)
Definition record : Type := list (string * value).

Inductive exn : Type :=
| HTTPException (status_code : Z) (detail : string)
| HTTPStatusError (status_code : Z)
| TypeError
| ValueError
| OverflowError
| AttributeError.

Inductive result (A : Type) : Type :=
| Ok (a : A)
| Raise (e : exn).
Arguments Ok {A} a.
Arguments Raise {A} e.

Definition bind {A B} (r : result A) (k : A -> result B) : result B :=
  match r with
  | Ok a => k a
  | Raise e => Raise e
  end.

Notation "x <- r ;; k" := (bind r (fun x => k))
  (at level 61, r at next level, right associativity).

(** *** Characters and strings *)

Definition quote_char : ascii := ascii_of_nat 34.
Definition apostrophe : ascii := ascii_of_nat 39.
Definition backslash : ascii := ascii_of_nat 92.
Definition cr : ascii := ascii_of_nat 13.
Definition lf : ascii := ascii_of_nat 10.
Definition tab : ascii := ascii_of_nat 9.

Definition code (c : ascii) : nat := nat_of_ascii c.

Definition in_range (lo hi : nat) (c : ascii) : bool :=
  (Nat.leb lo (code c) && Nat.leb (code c) hi)%bool.

Definition is_digit (c : ascii) : bool := in_range 48 57 c.

(** [str.isspace] on ASCII: tab, LF, VT, FF, CR, FS, GS, RS, US, space. *)
Definition is_space (c : ascii) : bool :=
  (in_range 9 13 c || in_range 28 32 c)%bool.

Definition lower_char (c : ascii) : ascii :=
  if in_range 65 90 c then ascii_of_nat (code c + 32) else c.

Definition upper_char (c : ascii) : ascii :=
  if in_range 97 122 c then ascii_of_nat (code c - 32) else c.

Fixpoint map_string (f : ascii -> ascii) (s : string) : string :=
  match s with
  | EmptyString => EmptyString
  | String c s' => String (f c) (map_string f s')
  end.

Definition lower : string -> string := map_string lower_char.
Definition upper : string -> string := map_string upper_char.

Fixpoint lstrip (s : string) : string :=
  match s with
  | String c s' => if is_space c then lstrip s' else s
  | EmptyString => EmptyString
  end.

(** Drops the trailing white space: a character is kept when it is not
    white space or when something is kept after it. *)
Fixpoint rstrip (s : string) : string :=
  match s with
  | EmptyString => EmptyString
  | String c s' =>
      match rstrip s' with
      | EmptyString => if is_space c then EmptyString else String c EmptyString
      | t => String c t
      end
  end.

Definition strip (s : string) : string := rstrip (lstrip s).

(** [needle in hay] on strings. *)
Fixpoint contains (needle hay : string) : bool :=
  (String.prefix needle hay ||
   match hay with
   | EmptyString => false
   | String _ hay' => contains needle hay'
   end)%bool.

Fixpoint exists_char (p : ascii -> bool) (s : string) : bool :=
  match s with
  | EmptyString => false
  | String c s' => (p c || exists_char p s')%bool
  end.

Fixpoint join (sep : string) (l : list string) : string :=
  match l with
  | [] => ""
  | [x] => x
  | x :: rest => x ++ sep ++ join sep rest
  end.

Definition str_of_Z (z : Z) : string := NilZero.string_of_int (Z.to_int z).

(** *** [repr] and [str] *)

Definition hex_digit (n : nat) : ascii :=
  if Nat.ltb n 10 then ascii_of_nat (48 + n) else ascii_of_nat (87 + n).

Definition repr_char (q c : ascii) : string :=
  if (Ascii.eqb c q || Ascii.eqb c backslash)%bool then String backslash (String c "")
  else if Ascii.eqb c tab then String backslash "t"
  else if Ascii.eqb c lf then String backslash "n"
  else if Ascii.eqb c cr then String backslash "r"
  else if (Nat.ltb (code c) 32 || Nat.eqb (code c) 127)%bool then
    String backslash
      (String "x" (String (hex_digit (code c / 16)) (String (hex_digit (code c mod 16)) "")))
  else String c "".

Fixpoint repr_chars (q : ascii) (s : string) : string :=
  match s with
  | EmptyString => EmptyString
  | String c s' => repr_char q c ++ repr_chars q s'
  end.

(** [repr] of a [str]: single quotes, unless the text has a single quote
    and no double quote. *)
Definition repr_str (s : string) : string :=
  let q :=
    if (exists_char (Ascii.eqb apostrophe) s
        && negb (exists_char (Ascii.eqb quote_char) s))%bool
    then quote_char else apostrophe in
  String q (repr_chars q s) ++ String q "".

Fixpoint py_repr (v : value) : string :=
  match v with
  | VNone => "None"
  | VBool b => if b then "True" else "False"
  | VInt z => str_of_Z z
  | VFloat t => t
  | VStr s => repr_str s
  | VList l => "[" ++ join ", " (map py_repr l) ++ "]"
  | VDict d =>
      "{" ++ join ", "
               (map (fun kv => repr_str (fst kv) ++ ": " ++ py_repr (snd kv)) d)
          ++ "}"
  end.

(** [str(v)] *)
Definition py_str (v : value) : string :=
  match v with
  | VStr s => s
  | _ => py_repr v
  end.

(** *** Truth value and numeric zero *)

Definition float_is_zero (text : string) : bool :=
  (String.eqb text "0.0" || String.eqb text "-0.0")%bool.

(** [bool(v)] *)
Definition truthy (v : value) : bool :=
  match v with
  | VNone => false
  | VBool b => b
  | VInt z => negb (z =? 0)
  | VFloat t => negb (float_is_zero t)
  | VStr s => negb (String.eqb s "")
  | VList l => match l with [] => false | _ => true end
  | VDict d => match d with [] => false | _ => true end
  end.

(** [isinstance(v, (int, float)) and v == 0]; [bool] is a subclass of
    [int] and [False == 0]. *)
Definition is_numeric_zero (v : value) : bool :=
  match v with
  | VBool b => negb b
  | VInt z => z =? 0
  | VFloat t => float_is_zero t
  | _ => false
  end.

(** [isinstance(v, int)] *)
Definition is_int (v : value) : bool :=
  match v with
  | VBool _ | VInt _ => true
  | _ => false
  end.

(** [a or b] on optional values: [dict.get] gives [None] for a missing key. *)
Definition py_or (a b : value) : value := if truthy a then a else b.

(** *** [float(v)]

    Only one thing about the resulting float is ever observed by the
    program: whether it is different from zero. *)

Inductive fclass : Type := FZero | FNonZero.

(** Underscores are accepted between two digits only, and dropped. *)
Fixpoint drop_underscores (prev : ascii) (s : string) : option string :=
  match s with
  | EmptyString => if Ascii.eqb prev "_" then None else Some EmptyString
  | String c s' =>
      if Ascii.eqb c "_" then
        if is_digit prev then drop_underscores c s' else None
      else if (Ascii.eqb prev "_" && negb (is_digit c))%bool then None
      else option_map (String c) (drop_underscores c s')
  end.

Definition drop_sign (s : string) : bool * string :=
  match s with
  | String c s' =>
      if Ascii.eqb c "-" then (true, s')
      else if Ascii.eqb c "+" then (false, s')
      else (false, s)
  | EmptyString => (false, s)
  end.

(** The longest prefix of digits, and what follows it. *)
Fixpoint span_digits (s : string) : string * string :=
  match s with
  | String c s' =>
      if is_digit c then let (d, r) := span_digits s' in (String c d, r)
      else (EmptyString, s)
  | EmptyString => (EmptyString, EmptyString)
  end.

Fixpoint digits_value (acc : Z) (s : string) : Z :=
  match s with
  | EmptyString => acc
  | String c s' => digits_value (10 * acc + Z.of_nat (code c - 48)) s'
  end.

(** [digits [. digits] [(e|E) [sign] digits]] with a digit before or after
    the point: the mantissa as an integer and the power of ten. *)
Definition parse_decimal (s : string) : option (Z * Z) :=
  let (ip, r1) := span_digits s in
  let (fp, r2) :=
    match r1 with
    | String c r => if Ascii.eqb c "." then span_digits r else (EmptyString, r1)
    | EmptyString => (EmptyString, r1)
    end in
  if (String.eqb ip "" && String.eqb fp "")%bool then None
  else
    let m := digits_value 0 (ip ++ fp) in
    let scale := Z.of_nat (String.length fp) in
    match r2 with
    | EmptyString => Some (m, - scale)
    | String c r3 =>
        if (Ascii.eqb c "e" || Ascii.eqb c "E")%bool then
          let (neg, r4) := drop_sign r3 in
          let (ed, r5) := span_digits r4 in
          if (String.eqb ed "" || negb (String.eqb r5 ""))%bool then None
          else
            let e := digits_value 0 ed in
            Some (m, (if neg then - e else e) - scale)
        else None
    end.

(** [m * 10^e] rounds to zero when it is at most half of the least
    positive float, [2^-1074] (the tie goes to the even neighbour, zero). *)
Definition decimal_is_zero (m e : Z) : bool :=
  ((m =? 0) || ((e <? 0) && (m * 2 ^ 1075 <=? 10 ^ (- e))))%bool.

(** The white space [float] skips at both ends of an ASCII text: space,
    tab, LF, VT, FF and CR.  (The separators FS, GS, RS and US, which
    [str.strip] removes, are not among them: [float] raises on them.) *)
Definition is_float_space (c : ascii) : bool :=
  (in_range 9 13 c || Nat.eqb (code c) 32)%bool.

Fixpoint float_lstrip (s : string) : string :=
  match s with
  | String c s' => if is_float_space c then float_lstrip s' else s
  | EmptyString => EmptyString
  end.

Fixpoint float_rstrip (s : string) : string :=
  match s with
  | EmptyString => EmptyString
  | String c s' =>
      match float_rstrip s' with
      | EmptyString => if is_float_space c then EmptyString else String c EmptyString
      | t => String c t
      end
  end.

Definition float_strip (s : string) : string := float_rstrip (float_lstrip s).

Definition float_of_str (s : string) : result fclass :=
  match drop_underscores zero (float_strip s) with
  | None => Raise ValueError
  | Some u =>
      let body := snd (drop_sign u) in
      let word := lower body in
      if (String.eqb word "inf" || String.eqb word "infinity"
          || String.eqb word "nan")%bool
      then Ok FNonZero
      else
        match parse_decimal body with
        | Some (m, e) => Ok (if decimal_is_zero m e then FZero else FNonZero)
        | None => Raise ValueError
        end
  end.

(** An [int] that rounds beyond the largest float raises [OverflowError]. *)
Definition int_overflows (z : Z) : bool := 2 ^ 1024 - 2 ^ 970 <=? Z.abs z.

Definition py_float (v : value) : result fclass :=
  match v with
  | VBool b => Ok (if b then FNonZero else FZero)
  | VInt z =>
      if int_overflows z then Raise OverflowError
      else Ok (if z =? 0 then FZero else FNonZero)
  | VFloat t => Ok (if float_is_zero t then FZero else FNonZero)
  | VStr s => float_of_str s
  | VNone | VList _ | VDict _ => Raise TypeError
  end.

(** *** Arithmetic on [float]

    A finite [float] is a rational number: an integer of at most 53 bits
    times a power of two that is at least [2^-1074].  A sum is the exact
    sum rounded to the nearest such number, a tie going to the even one.
    (A sum that rounds to [2^1024] or beyond is [inf] in Python; it is kept
    here as the rounded number, which like [inf] is above every float.) *)

(** The nearest integer, a tie going to the even one. *)
Definition round_half_even (q : Q) : Z :=
  let f := Qfloor q in
  match (q - inject_Z f ?= 1 # 2)%Q with
  | Lt => f
  | Gt => f + 1
  | Eq => if Z.even f then f else f + 1
  end.

(** The number of least positive floats in 1. *)
Definition float_ulps : Z := 2 ^ 1074.

(** A non-negative number of least positive floats, rounded to 53 bits. *)
Definition round_53 (q : Q) : Z :=
  let shift := Z.max 0 (Z.log2 (Qfloor q) - 52) in
  round_half_even (q / inject_Z (2 ^ shift)) * 2 ^ shift.

Definition float_round (x : Q) : Q :=
  Qred (if Qle_bool 0 x
        then inject_Z (round_53 (x * inject_Z float_ulps)) / inject_Z float_ulps
        else - (inject_Z (round_53 (- x * inject_Z float_ulps)) / inject_Z float_ulps)).

(** [a + b] on two floats, or on a float and a small [int]. *)
Definition float_add (a b : Q) : Q := float_round (a + b).

(** [float(n)] for an [int] within the range of [float]. *)
Definition float_of_int (n : Z) : Q := float_round (inject_Z n).

(** *** Dictionaries *)

Definition keys (d : record) : list string := map fst d.

(** [d.get(k)] *)
Fixpoint dict_get (d : record) (k : string) : option value :=
  match d with
  | [] => None
  | (k', v) :: d' => if String.eqb k' k then Some v else dict_get d' k
  end.

(** [d.get(k, default)] *)
Definition get_default (d : record) (k : string) (default : value) : value :=
  match dict_get d k with
  | Some v => v
  | None => default
  end.

(** [d.get(k)], which is [None] when the key is missing. *)
Definition get_or_none (d : record) (k : string) : value := get_default d k VNone.

(** [d[k] = v]: a key already present keeps its place. *)
Fixpoint dict_set (d : record) (k : string) (v : value) : record :=
  match d with
  | [] => [(k, v)]
  | (k', v') :: d' =>
      if String.eqb k' k then (k', v) :: d' else (k', v') :: dict_set d' k v
  end.

(** [dict(pairs)] *)
Definition dict_of (pairs : list (string * value)) : record :=
  fold_left (fun d kv => dict_set d (fst kv) (snd kv)) pairs [].

End Py.

(** ** apps/core/data_processor.py *)

Module DataProcessor.
Import Py.

(** [all(isinstance(x, dict) for x in l)], with the dictionaries. *)
Fixpoint as_dicts (l : list value) : option (list record) :=
  match l with
  | [] => Some []
  | VDict d :: l' => option_map (cons d) (as_dicts l')
  | _ :: _ => None
  end.

(** [all(isinstance(x, list) for x in l)], with the lists. *)
Fixpoint as_lists (l : list value) : option (list (list value)) :=
  match l with
  | [] => Some []
  | VList r :: l' => option_map (cons r) (as_lists l')
  | _ :: _ => None
  end.

(** The headers as dictionary keys.  Records have string keys: a header
    that is not a [str] is outside the model. *)
Fixpoint as_names (l : list value) : option (list string) :=
  match l with
  | [] => Some []
  | VStr s :: l' => option_map (cons s) (as_names l')
  | _ :: _ => None
  end.

(** The loop over [rows_data]: a row is zipped when it is a list as long
    as the headers, and skipped otherwise. *)
Fixpoint zip_rows (headers : list string) (rows_data : list value) : list record :=
  match rows_data with
  | [] => []
  | VList row :: rest =>
      if Nat.eqb (List.length row) (List.length headers)
      then dict_of (combine headers row) :: zip_rows headers rest
      else zip_rows headers rest
  | _ :: rest => zip_rows headers rest
  end.

(** [{f"col_{i}": val for i, val in enumerate(row)}] *)
Fixpoint positional (i : nat) (row : list value) : list (string * value) :=
  match row with
  | [] => []
  | val :: row' => ("col_" ++ str_of_Z (Z.of_nat i), val) :: positional (S i) row'
  end.

(** The loop over [raw_data.items()]. *)
Fixpoint flatten_items (items : record) : list record :=
  match items with
  | [] => []
  | (_, VList l) :: rest =>
      match as_dicts l with
      | Some ds => ds ++ flatten_items rest
      | None =>
          match as_lists l with
          | Some ls => map (fun row => dict_of (positional 0 row)) ls ++ flatten_items rest
          | None => flatten_items rest
          end
      end
  | _ :: rest => flatten_items rest
  end.

Definition data_rows (d : record) : option (list record) :=
  match dict_get d "data" with
  | Some (VList l) => as_dicts l
  | _ => None
  end.

Definition flatten_dict (d : record) : option (list record) :=
  match dict_get d "headers", dict_get d "rows" with
  | Some (VList headers), Some (VList rows_data) =>
      option_map (fun names => zip_rows names rows_data) (as_names headers)
  | _, _ => Some (flatten_items d)
  end.

(** [normalize_rows(raw_data)]; [None] only for headers outside the model. *)
Definition normalize_rows (raw_data : value) : option (list record) :=
  match raw_data with
  | VList l =>
      match as_dicts l with
      | Some ds => Some ds
      | None => Some []
      end
  | VDict d =>
      match data_rows d with
      | Some ds => Some ds
      | None => flatten_dict d
      end
  | _ => Some []
  end.

(** [remove_zero_numeric_fields(row)] *)
Definition remove_zero_numeric_fields (row : record) : record :=
  filter (fun kv => negb (is_numeric_zero (snd kv))) row.

(** [v is not None and v != ""] *)
Definition not_null (v : value) : bool :=
  match v with
  | VNone => false
  | VStr s => negb (String.eqb s "")
  | _ => true
  end.

(** [strip_nulls(row)] *)
Definition strip_nulls (row : record) : record :=
  filter (fun kv => not_null (snd kv)) row.

(** *** Column detection *)

(** ["client" in key.lower() and "id" in key.lower()] *)
Definition is_client_key (key : string) : bool :=
  (contains "client" (lower key) && contains "id" (lower key))%bool.

(** ["metric" in key.lower() and "value" in key.lower()] *)
Definition is_metric_key (key : string) : bool :=
  (contains "metric" (lower key) && contains "value" (lower key))%bool.

(** [client_key] and [metric_key], [None] until a column is found. *)
Definition detected : Type := (option string * option string)%type.

(** The truth value of [client_key], [metric_key]. *)
Definition found (k : option string) : bool :=
  match k with
  | Some s => negb (String.eqb s "")
  | None => false
  end.

(** The inner loop, over [sample.keys()]: a later key replaces an earlier
    one. *)
Definition scan_keys (st : detected) (ks : list string) : detected :=
  fold_left
    (fun (acc : detected) key =>
       (if is_client_key key then Some key else fst acc,
        if is_metric_key key then Some key else snd acc))
    ks st.

(** The outer loop, left as soon as both columns are known. *)
Fixpoint scan_samples (st : detected) (samples : list record) : detected :=
  match samples with
  | [] => st
  | sample :: rest =>
      let st' := scan_keys st (keys sample) in
      if (found (fst st') && found (snd st'))%bool then st'
      else scan_samples st' rest
  end.

Definition detect_columns (rows : list record) : detected :=
  scan_samples (None, None) (firstn 5 rows).

(** *** Row filter *)

(** The [try] block: [True] when the row is appended.  [OverflowError]
    is not caught. *)
Definition metric_keeps (metric_value : value) : result bool :=
  match (if truthy metric_value then py_float metric_value else Ok FZero) with
  | Ok FNonZero => Ok true
  | Ok FZero => Ok false
  | Raise ValueError => Ok true
  | Raise TypeError => Ok true
  | Raise e => Raise e
  end.

Definition client_matches (client_key target_client_id : string) (row : record) : bool :=
  String.eqb (strip (py_str (get_default row client_key (VStr ""))))
             (strip target_client_id).

(** The loop [for row in rows] that fills [filtered]. *)
Fixpoint filter_rows (client_key metric_key target_client_id : string)
    (rows : list record) : result (list record) :=
  match rows with
  | [] => Ok []
  | row :: rest =>
      if client_matches client_key target_client_id row then
        keep <- metric_keeps (get_default row metric_key (VInt 0)) ;;
        filtered <- filter_rows client_key metric_key target_client_id rest ;;
        Ok (if keep then row :: filtered else filtered)
      else filter_rows client_key metric_key target_client_id rest
  end.

(** [filter_by_client_and_metric(rows, target_client_id)] *)
Definition filter_by_client_and_metric (rows : list record)
    (target_client_id : string) : result (list record) :=
  match rows with
  | [] => Ok []
  | _ =>
      let (client_key, metric_key) := detect_columns rows in
      if (negb (found client_key) || negb (found metric_key))%bool then Ok rows
      else
        match client_key, metric_key with
        | Some ck, Some mk => filter_rows ck mk target_client_id rows
        | _, _ => Ok rows
        end
  end.

(** *** Delimited text *)

Definition crlf : string := String cr (String lf "").

(** [all_keys.update(row.keys())] on a set kept as a duplicate-free list. *)
Definition set_update (all_keys : list string) (ks : list string) : list string :=
  fold_left
    (fun acc k => if existsb (String.eqb k) acc then acc else (acc ++ [k])%list)
    ks all_keys.

Definition all_keys (rows : list record) : list string :=
  fold_left (fun acc row => set_update acc (keys row)) rows [].

Fixpoint insert_sorted (k : string) (l : list string) : list string :=
  match l with
  | [] => [k]
  | x :: l' => if String.leb k x then k :: l else x :: insert_sorted k l'
  end.

(** [sorted(...)] on strings: ascending code points. *)
Definition sorted (l : list string) : list string :=
  fold_right insert_sorted [] l.

Definition fieldnames (rows : list record) : list string := sorted (all_keys rows).

Definition needs_quoting (c : ascii) : bool :=
  (Ascii.eqb c "," || Ascii.eqb c quote_char || Ascii.eqb c cr || Ascii.eqb c lf)%bool.

Fixpoint double_quotes (s : string) : string :=
  match s with
  | EmptyString => EmptyString
  | String c s' =>
      if Ascii.eqb c quote_char then String c (String c (double_quotes s'))
      else String c (double_quotes s')
  end.

(** One field as the [csv] writer prints it (minimal quoting). *)
Definition csv_field (s : string) : string :=
  if exists_char needs_quoting s
  then String quote_char (double_quotes s) ++ String quote_char ""
  else s.

(** One record; a record that is a single empty field is printed quoted. *)
Definition csv_row (fields : list string) : string :=
  match fields with
  | [EmptyString] => String quote_char (String quote_char crlf)
  | _ => join "," (map csv_field fields) ++ crlf
  end.

(** The text of a cell: [None] prints as nothing, a [str] as itself. *)
Definition cell_text (v : value) : string :=
  match v with
  | VNone => ""
  | _ => py_str v
  end.

(** [rowdict.get(key, restval)] for each field name, [restval] being the
    empty string. *)
Definition row_cells (names : list string) (row : record) : list string :=
  map (fun key => cell_text (get_default row key (VStr ""))) names.

(** [to_csv(rows)] *)
Definition to_csv (rows : list record) : string :=
  match rows with
  | [] => ""
  | _ =>
      let names := fieldnames rows in
      csv_row names ++ String.concat "" (map (fun row => csv_row (row_cells names row)) rows)
  end.

End DataProcessor.

(** ** Polling: the clock and the outcome of a wait *)

Module Poll.
Import Py.

(** What one pass through the body of [while True] does. *)
Inductive step (S : Type) : Type :=
| Return (status : string)
| Fail (e : exn)
| Continue (st : S).
Arguments Return {S} status.
Arguments Fail {S} e.
Arguments Continue {S} st.

(** [fuel] passes through the loop; [None] when the loop is still running
    after them. *)
Fixpoint loop {S : Type} (body : S -> step S) (fuel : nat) (st : S)
  : option (result string) :=
  match fuel with
  | O => None
  | Datatypes.S fuel' =>
      match body st with
      | Return s => Some (Ok s)
      | Fail e => Some (Raise e)
      | Continue st' => loop body fuel' st'
      end
  end.

(** [s.lower()] on whatever [dict.get] returned. *)
Definition lower_of (v : value) : result string :=
  match v with
  | VStr s => Ok (lower s)
  | _ => Raise AttributeError
  end.

Definition mem (s : string) (l : list string) : bool := existsb (String.eqb s) l.

End Poll.

(** ** main.py *)

Module Legacy.
Import Py Poll.

(** *** [_normalize_rows] *)

(** [for idx, val in enumerate(row): if idx < len(headers):
    obj[headers[idx]] = val] *)
Fixpoint fill_row (headers : list string) (idx : nat) (row : list value)
    (obj : record) : record :=
  match row with
  | [] => obj
  | val :: row' =>
      fill_row headers (S idx) row'
        match nth_error headers idx with
        | Some h => dict_set obj h val
        | None => obj
        end
  end.

(** The loop over [raw.get("rows", [])]. *)
Fixpoint table_rows (headers : list string) (rows_data : list value) : list record :=
  match rows_data with
  | [] => []
  | VList row :: rest => fill_row headers 0 row [] :: table_rows headers rest
  | VDict d :: rest => d :: table_rows headers rest
  | _ :: rest => table_rows headers rest
  end.

(** [{headers[i]: r[i] for i in range(min(len(headers), len(r)))}] for each
    list [r] of [v]. *)
Fixpoint headed_rows (headers : list string) (v : list value) : list record :=
  match v with
  | [] => []
  | VList r :: rest => dict_of (combine headers r) :: headed_rows headers rest
  | _ :: rest => headed_rows headers rest
  end.

(** The loop over [raw.values()]; [headers] is [raw.get("headers")] when
    that is a list. *)
Fixpoint flatten_values (headers : option (list value)) (items : record) : list record :=
  match items with
  | [] => []
  | (_, VList v) :: rest =>
      match DataProcessor.as_dicts v, headers with
      | Some ds, _ => ds ++ flatten_values headers rest
      | None, Some hs => headed_rows (map py_str hs) v ++ flatten_values headers rest
      | None, None => flatten_values headers rest
      end
  | _ :: rest => flatten_values headers rest
  end.

Definition list_at (d : record) (k : string) : option (list value) :=
  match dict_get d k with
  | Some (VList l) => Some l
  | _ => None
  end.

Definition _normalize_rows (raw : value) : list record :=
  match raw with
  | VList l =>
      match DataProcessor.as_dicts l with
      | Some ds => ds
      | None => []
      end
  | VDict d =>
      match DataProcessor.data_rows d with
      | Some ds => ds
      | None =>
          match list_at d "headers", list_at d "rows" with
          | Some headers, Some rows_data => table_rows (map py_str headers) rows_data
          | headers, _ => flatten_values headers d
          end
      end
  | _ => []
  end.

(** *** [_wait_until_ready] *)

(** A response: its status, and what [r.json()] gives or raises. *)
Record response : Type := { status_code : Z; json : result value }.

(** The upstream as the poller meets it: what [client.get] gives at the
    [k]-th status request (counted from 1, as [poll_count]), a response or
    the exception it raises, and the time the request takes. *)
Record upstream : Type := { reply : nat -> result response; latency : nat -> Q }.

Record poll_state : Type :=
  { now : Q; poll_count : nat; last_status : string }.

Definition completed_words : list string :=
  ["ready"; "finished"; "done"; "success"; "succeeded"; "available";
   "completed"; "complete"].

Definition failed_words : list string := ["failed"; "error"].

(** [r.json() or {}], then [js.get(k)]. *)
Definition js_get (js : value) (k : string) : result value :=
  if truthy js then
    match js with
    | VDict d => Ok (get_or_none d k)
    | _ => Raise AttributeError
    end
  else Ok VNone.

(** [(js.get("status") or js.get("state") or "").lower()] *)
Definition read_status (js : value) : result string :=
  a <- js_get js "status" ;;
  b <- js_get js "state" ;;
  lower_of (py_or a (py_or b (VStr ""))).

Definition timed_out_detail (last : string) : string :=
  "Timed out waiting for report (last status: " ++ last ++ ").".

Definition wait_body (up : upstream) (deadline : Q) (poll_s : Z) (st : poll_state)
  : step poll_state :=
  let k := S (poll_count st) in
  let t := (now st + latency up k)%Q in
  match reply up k with
  | Raise e => Fail e
  | Ok r =>
      if status_code r =? 401 then Fail (HTTPException 401 "Invalid Gcore token.")
      else if negb ((200 <=? status_code r) && (status_code r <=? 299))%bool
      then Fail (HTTPStatusError (status_code r))
      else
        match json r with
        | Raise e => Fail e
        | Ok js =>
            match read_status js with
            | Raise e => Fail e
            | Ok status =>
                let last := if String.eqb status "" then last_status st else status in
                if mem status completed_words then Return status
                else if mem status failed_words then
                  match js_get js "message" with
                  | Raise e => Fail e
                  | Ok msg =>
                      Fail (HTTPException 502
                              ("Gcore report failed: "
                                 ++ py_str (py_or msg (VStr "Report generation failed."))))
                  end
                else if Qle_bool deadline t
                then Fail (HTTPException 504 (timed_out_detail last))
                else Continue {| now := (t + inject_Z poll_s)%Q; poll_count := k;
                                 last_status := last |}
            end
        end
  end.

(** [_wait_until_ready], entered at time [start]. *)
Definition _wait_until_ready (up : upstream) (start : Q) (timeout_s poll_s : Z)
    (fuel : nat) : option (result string) :=
  loop (wait_body up (start + inject_Z timeout_s)%Q poll_s) fuel
       {| now := start; poll_count := 0; last_status := "unknown" |}.

End Legacy.

(** ** apps/core/gcore_client.py *)

Module GcoreClient.
Import Py Poll.

(** *** [get_features_for_product] *)

(** [(feature.get("product_name_en") or feature.get("productNameEn") or
    feature.get("product") or "").strip().upper()] *)
Definition pname_of (feature : record) : result string :=
  match py_or (get_or_none feature "product_name_en")
          (py_or (get_or_none feature "productNameEn")
             (py_or (get_or_none feature "product") (VStr ""))) with
  | VStr s => Ok (upper (strip s))
  | _ => Raise AttributeError
  end.

(** The loop that fills [feature_ids]; [target] is the one element of
    [targets]. *)
Fixpoint matching_ids (target : string) (features : list record) : result (list value) :=
  match features with
  | [] => Ok []
  | feature :: rest =>
      pname <- pname_of feature ;;
      let fid := get_or_none feature "id" in
      ids <- matching_ids target rest ;;
      Ok (if (String.eqb pname target && is_int fid)%bool then fid :: ids else ids)
  end.

(** [[f.get("id") for f in features_data[:10] if f.get("id")]] *)
Definition fallback_ids (features_data : list record) : list value :=
  filter truthy (map (fun f => get_or_none f "id") (firstn 10 features_data)).

(** [get_features_for_product], on the list [get_features] returned. *)
Definition get_features_for_product (features_data : list record)
    (product_name : string) : result (list value) :=
  feature_ids <- matching_ids (upper product_name) features_data ;;
  match feature_ids with
  | [] => Ok (fallback_ids features_data)
  | _ => Ok feature_ids
  end.

(** *** [wait_for_completion] *)

(** The upstream as the poller meets it: what the [k]-th call of
    [check_status] gives (counted from 1, as [poll_count]) and the time
    it takes. *)
Record upstream : Type := { check_status : nat -> result value; latency : nat -> Q }.

Record poll_state : Type := { now : Q; poll_count : nat }.

(** [status_data.get("status", "")] *)
Definition status_of (status_data : value) : result value :=
  match status_data with
  | VDict d => Ok (get_default d "status" (VStr ""))
  | _ => Raise AttributeError
  end.

Definition timed_out_detail (timeout : Z) : string :=
  "Report generation timed out after " ++ str_of_Z timeout ++ "s".

Definition wait_body (up : upstream) (start_time : Q) (timeout poll_interval : Z)
    (st : poll_state) : step poll_state :=
  let k := S (poll_count st) in
  let t := (now st + latency up k)%Q in
  match (status_data <- check_status up k ;;
         v <- status_of status_data ;;
         lower_of v) with
  | Raise e => Fail e
  | Ok current_status =>
      if String.eqb current_status "completed" then Return "completed"
      else if String.eqb current_status "failed"
      then Fail (HTTPException 502 "Report generation failed")
      else if mem current_status ["inprogress"; "pending"] then
        let elapsed := (t - start_time)%Q in
        if negb (Qle_bool elapsed (inject_Z timeout))
        then Fail (HTTPException 504 (timed_out_detail timeout))
        else Continue {| now := (t + inject_Z poll_interval)%Q; poll_count := k |}
      else Continue {| now := (t + inject_Z poll_interval)%Q; poll_count := k |}
  end.

(** [wait_for_completion], entered at time [start_time]. *)
Definition wait_for_completion (up : upstream) (start_time : Q)
    (timeout poll_interval : Z) (fuel : nat) : option (result string) :=
  loop (wait_body up start_time timeout poll_interval) fuel
       {| now := start_time; poll_count := 0 |}.

End GcoreClient.

(** ** apps/core/auth.py *)

Module TokenManager.
Import Py.

(** [expires_at] is the [int] 0 or a [float]. *)
Record token_cache : Type := { token : value; expires_at : Q }.

Record t : Type :=
  { username : string;
    password : string;
    cache_duration : Z;
    _token_cache : token_cache }.

(** [auth_response.get("expires_in", ...)]: missing, an [int] ([True] and
    [False] being 1 and 0), a finite [float], or a value of another type,
    which cannot be added to a time. *)
Inductive lifetime : Type :=
| Absent
| IntSeconds (n : Z)
| FloatSeconds (x : Q)
| NotANumber (type_name : string).

(** The answer to the authentication request: the request raised (with
    the text of the exception), the status made [raise_for_status] raise,
    the body could not be read as a JSON object (with the text of the
    exception), or a JSON object, read at the three keys the code reads
    ([None] for a missing key). *)
Inductive auth_reply : Type :=
| NoAnswer (text : string)
| ErrorStatus (status_code : Z)
| NotAnObject (text : string)
| Body (access access_token : value) (expires_in : lifetime).

Definition clear_cache (self : t) : t :=
  {| username := username self; password := password self;
     cache_duration := cache_duration self;
     _token_cache := {| token := VNone; expires_at := 0 |} |}.

Definition with_cache (self : t) (c : token_cache) : t :=
  {| username := username self; password := password self;
     cache_duration := cache_duration self; _token_cache := c |}.

Definition not_configured : exn :=
  HTTPException 500
    "Gcore credentials not configured. Set GCORE_USERNAME and GCORE_PASSWORD environment variables.".

(** [except Exception as e]: status 502 with [str(e)]. *)
Definition auth_failed (text : string) : exn :=
  HTTPException 502 ("Failed to authenticate with Gcore: " ++ text).

(** [str(e)] of an [HTTPException] (Starlette's [__str__]). *)
Definition str_http_exception (status_code : Z) (detail : string) : string :=
  str_of_Z status_code ++ ": " ++ detail.

(** [current_time + expires_in]: the sum as a [float], or the text of the
    exception the addition raises. *)
Definition add_lifetime (current_time : Q) (cache_duration : Z) (expires_in : lifetime)
  : Q + string :=
  let add_int (n : Z) : Q + string :=
    if int_overflows n then inr "int too large to convert to float"
    else inl (float_add current_time (float_of_int n)) in
  match expires_in with
  | Absent => add_int cache_duration
  | IntSeconds n => add_int n
  | FloatSeconds x => inl (float_add current_time x)
  | NotANumber type_name =>
      inr ("unsupported operand type(s) for +: 'float' and '" ++ type_name ++ "'")
  end.

(** [True] when [get_token] answers from the cache:
    [token and expires_at > current_time + 60]. *)
Definition cache_valid (self : t) (current_time : Q) : bool :=
  (truthy (token (_token_cache self))
   && negb (Qle_bool (expires_at (_token_cache self)) (float_add current_time 60)))%bool.

(** [get_token], called at [current_time]; [reply] is what the
    authentication endpoint answers if it is asked.  The manager comes back
    with its cache as the call left it. *)
Definition get_token (self : t) (current_time : Q) (reply : auth_reply)
  : result value * t :=
  if cache_valid self current_time then (Ok (token (_token_cache self)), self)
  else if (String.eqb (username self) "" || String.eqb (password self) "")%bool
  then (Raise not_configured, self)
  else
    match reply with
    | NoAnswer text => (Raise (auth_failed text), self)
    | ErrorStatus c =>
        if c =? 401 then (Raise (HTTPException 401 "Invalid Gcore credentials"), self)
        else (Raise (HTTPException 502 ("Gcore auth failed: " ++ str_of_Z c)), self)
    | NotAnObject text => (Raise (auth_failed text), self)
    | Body access access_token expires_in =>
        let tok := py_or access access_token in
        if negb (truthy tok)
        then (Raise (auth_failed
                       (str_http_exception 502
                          "Failed to get access token from Gcore auth API")), self)
        else
          match add_lifetime current_time (cache_duration self) expires_in with
          | inr text =>
              (Raise (auth_failed text),
               with_cache self
                 {| token := tok; expires_at := expires_at (_token_cache self) |})
          | inl sum => (Ok tok, with_cache self {| token := tok; expires_at := sum |})
          end
    end.

End TokenManager.

(** ** The specification's rules, in its own words

    Used only to compare what the code does with what the specification
    says. *)

Module Spec.
Import Py.

(** Row Filter: "the string-trimmed client column value equals the
    string-trimmed target identifier AND the metric column value, parsed as a
    floating-point number, is non-zero; a value that cannot be parsed as a
    number is treated as passing the non-zero test". *)
Definition row_filter_keeps (client_key metric_key target : string) (row : record) : bool :=
  (String.eqb (strip (py_str (get_default row client_key (VStr "")))) (strip target)
   && match dict_get row metric_key with
      | Some v =>
          match py_float v with
          | Ok FNonZero => true
          | Ok FZero => false
          | Raise _ => true
          end
      | None => false
      end)%bool.

(** Row Normalizer, rule 3: "zip each row against headers into a mapping
    (values beyond header length are dropped; rows shorter than headers
    produce partial mappings)". *)
Definition zip_row (headers : list string) (row : list value) : record :=
  dict_of (combine headers row).

(** Job Poller: the local state a status word is mapped to. *)
Inductive job_status : Type := Completed | Failed | NonTerminal.

(** "ready", "finished", "done", "success", "succeeded", "available",
    "completed", "complete" -> Completed; "failed", "error" -> Failed;
    anything else remains Pending/InProgress; case-insensitive. *)
Definition map_status (status : string) : job_status :=
  let s := lower status in
  if Poll.mem s ["ready"; "finished"; "done"; "success"; "succeeded"; "available";
                 "completed"; "complete"] then Completed
  else if Poll.mem s ["failed"; "error"] then Failed
  else NonTerminal.

(** Delimited parsing, to read back what the encoder wrote: fields
    separated by commas; a field that starts with a double quote runs to
    the closing one, a doubled quote inside it standing for one; a record
    ends at CR LF, LF or CR; an empty line is a record without fields. *)
Inductive reader_state : Type :=
| StartRecord
| StartField
| InField
| InQuotedField
| QuoteInQuotedField
| AfterCR.

Inductive reader_action : Type :=
| Next (st : reader_state) (field : string) (fields : list string)
| Emit (record : list string) (st : reader_state).

Definition reader_step (st : reader_state) (field : string) (fields : list string)
    (c : ascii) : reader_action :=
  match st with
  | InQuotedField =>
      if Ascii.eqb c quote_char then Next QuoteInQuotedField field fields
      else Next InQuotedField (field ++ String c "") fields
  | _ =>
      if (match st with AfterCR => Ascii.eqb c lf | _ => false end)
      then Next StartRecord "" []
      else if Ascii.eqb c ","
      then Next StartField "" (fields ++ [field])%list
      else if (Ascii.eqb c cr || Ascii.eqb c lf)%bool
      then Emit (match st with
                 | StartRecord | AfterCR => []
                 | _ => (fields ++ [field])%list
                 end)
                (if Ascii.eqb c cr then AfterCR else StartRecord)
      else if Ascii.eqb c quote_char
      then match st with
           | StartRecord | StartField | AfterCR => Next InQuotedField field fields
           | QuoteInQuotedField => Next InQuotedField (field ++ String c "") fields
           | _ => Next InField (field ++ String c "") fields
           end
      else Next InField (field ++ String c "") fields
  end.

Fixpoint read_csv_from (st : reader_state) (field : string) (fields : list string)
    (text : string) : list (list string) :=
  match text with
  | EmptyString =>
      match st with
      | StartRecord | AfterCR => []
      | _ => [(fields ++ [field])%list]
      end
  | String c text' =>
      match reader_step st field fields c with
      | Next st' field' fields' => read_csv_from st' field' fields' text'
      | Emit record st' => record :: read_csv_from st' "" [] text'
      end
  end.

(** The records of a delimited text, each the list of its fields. *)
Definition read_csv (text : string) : list (list string) :=
  read_csv_from StartRecord "" [] text.

End Spec.

(** ** config/settings.py and the components apps/api/routes.py builds *)

Module Config.
Import Py.

(** The settings the core reads, as [Settings] holds them once the
    environment has been read. *)
Record Settings : Type :=
  { GCORE_USERNAME : string;
    GCORE_PASSWORD : string;
    TOKEN_CACHE_DURATION : Z;
    REPORT_POLL_TIMEOUT : Z;
    REPORT_POLL_INTERVAL : Z }.

(** [Settings.validate] *)
Definition validate (self : Settings) : result unit :=
  if (String.eqb (GCORE_USERNAME self) "" || String.eqb (GCORE_PASSWORD self) "")%bool
  then Raise ValueError
  else Ok tt.

(** [TokenManager.__init__] *)
Definition new_token_manager (username password : string) (cache_duration : Z)
  : TokenManager.t :=
  {| TokenManager.username := username;
     TokenManager.password := password;
     TokenManager.cache_duration := cache_duration;
     TokenManager._token_cache :=
       {| TokenManager.token := VNone; TokenManager.expires_at := 0%Q |} |}.

(** The [token_manager] of apps/api/routes.py. *)
Definition token_manager (settings : Settings) : TokenManager.t :=
  new_token_manager (GCORE_USERNAME settings) (GCORE_PASSWORD settings)
                    (TOKEN_CACHE_DURATION settings).

End Config.

(** ** main.py: the recursive cleaners *)

Module LegacyClean.
Import Py.

(** [v in (None, "", [], {})] *)
Definition null_like (v : value) : bool :=
  match v with
  | VNone | VStr EmptyString | VList [] | VDict [] => true
  | _ => false
  end.

(** [_strip_nulls(obj)]: in a mapping the values are tested before they are
    cleaned, in a list after. *)
Fixpoint _strip_nulls (obj : value) : value :=
  match obj with
  | VDict d =>
      VDict
        ((fix items (d : list (string * value)) : list (string * value) :=
            match d with
            | [] => []
            | (k, v) :: d' =>
                if null_like v then items d' else (k, _strip_nulls v) :: items d'
            end) d)
  | VList l => VList (filter (fun x => negb (null_like x)) (map _strip_nulls l))
  | _ => obj
  end.

(** [s.replace(",", "")] *)
Fixpoint drop_commas (s : string) : string :=
  match s with
  | EmptyString => EmptyString
  | String c s' => if Ascii.eqb c "," then drop_commas s' else String c (drop_commas s')
  end.

(** [is_zero_numeric(val)] *)
Definition is_zero_numeric (val : value) : bool :=
  match val with
  | VBool _ | VInt _ | VFloat _ => is_numeric_zero val
  | VStr s =>
      match float_of_str (drop_commas (strip s)) with
      | Ok FZero => true
      | _ => false
      end
  | _ => false
  end.

(** [_remove_zero_numeric_fields(row)] *)
Fixpoint _remove_zero_numeric_fields (row : value) : value :=
  match row with
  | VDict d =>
      VDict
        ((fix fields (d : list (string * value)) : list (string * value) :=
            match d with
            | [] => []
            | (k, v) :: d' =>
                match v with
                | VDict _ =>
                    match _remove_zero_numeric_fields v with
                    | VDict [] => fields d'
                    | nv => (k, nv) :: fields d'
                    end
                | VList l =>
                    match
                      (fix items (l : list value) : list value :=
                         match l with
                         | [] => []
                         | item :: l' =>
                             match item with
                             | VDict _ =>
                                 match _remove_zero_numeric_fields item with
                                 | VDict [] => items l'
                                 | sub => sub :: items l'
                                 end
                             | _ =>
                                 if is_zero_numeric item then items l'
                                 else item :: items l'
                             end
                         end) l
                    with
                    | [] => fields d'
                    | nv_list => (k, VList nv_list) :: fields d'
                    end
                | _ => if is_zero_numeric v then fields d' else (k, v) :: fields d'
                end
            end) d)
  | _ => row
  end.

End LegacyClean.

(** ** apps/api/routes.py and apps/api/models.py: formats and aggregation *)

Module Routes.
Import Py.

Definition allowed_formats : list string := ["json"; "csv"; "excel"].

(** [validate_format] of the request models. *)
Definition validate_format (v : string) : result string :=
  if Poll.mem (lower v) allowed_formats then Ok (lower v) else Raise ValueError.

Definition spreadsheet_type : string :=
  "application/vnd.openxmlformats-officedocument.spreadsheetml.sheet".

(** [_parse_accept_header(accept_header)]; [None] is no header. *)
Definition _parse_accept_header (accept_header : option string) : string :=
  match accept_header with
  | None => "json"
  | Some h =>
      if String.eqb h "" then "json"
      else
        let accept_header := strip (lower h) in
        if contains spreadsheet_type accept_header then "excel"
        else if contains "text/csv" accept_header then "csv"
        else if contains "application/json" accept_header then "json"
        else "json"
  end.

(** [format_from_header if format_from_header != "json" or body.format ==
    "json" else body.format] *)
Definition final_format (accept : option string) (body_format : string) : string :=
  let format_from_header := _parse_accept_header accept in
  if (negb (String.eqb format_from_header "json") || String.eqb body_format "json")%bool
  then format_from_header
  else body_format.

(** ["csv" if final_format == "excel" else final_format] *)
Definition download_format (final_format : string) : string :=
  if String.eqb final_format "excel" then "csv" else final_format.

(** [for row in filtered: row["Product"] = product] *)
Definition tag_product (product : string) (filtered : list record) : list record :=
  map (fun row => dict_set row "Product" (VStr product)) filtered.

(** The loop of [generate_all_reports] over the products: [outcomes] gives,
    for each product, the filtered rows its pipeline came to, or the
    exception that ended it (the product is then passed over).  The result
    is [all_data] and [total_count]. *)
Fixpoint aggregate (outcomes : list (string * result (list record)))
  : list record * nat :=
  match outcomes with
  | [] => ([], O)
  | (product, Ok filtered) :: rest =>
      let (all_data, total_count) := aggregate rest in
      ((tag_product product filtered ++ all_data)%list,
       (List.length filtered + total_count)%nat)
  | (_, Raise _) :: rest => aggregate rest
  end.

(** The JSON branch of [generate_all_reports]: [processed_data]. *)
Definition processed_data (all_data : list record) : list record :=
  map (fun row =>
         DataProcessor.strip_nulls (DataProcessor.remove_zero_numeric_fields row))
      all_data.

End Routes.

(** * Proofs *)

Import Py.

(** ** Lists and dictionaries *)

Section ListFacts.
Context {A : Type}.
Variables p q : A -> bool.

Lemma filter_twice (l : list A) : filter p (filter p l) = filter p l.
Proof.
  induction l as [|a l IH]; simpl; [reflexivity|].
  destruct (p a) eqn:E; simpl; rewrite ?E, IH; reflexivity.
Qed.

Lemma filter_swap (l : list A) : filter p (filter q l) = filter q (filter p l).
Proof.
  induction l as [|a l IH]; simpl; [reflexivity|].
  destruct (q a) eqn:Eq, (p a) eqn:Ep; simpl; rewrite ?Eq, ?Ep, IH; reflexivity.
Qed.
End ListFacts.

(** ** Record Cleaner *)

Section Cleaner.
Import DataProcessor.

Lemma remove_zero_strip_nulls_commute (row : record) :
  remove_zero_numeric_fields (strip_nulls row)
  = strip_nulls (remove_zero_numeric_fields row).
Proof. unfold remove_zero_numeric_fields, strip_nulls. apply filter_swap. Qed.

Lemma remove_zero_idempotent (row : record) :
  remove_zero_numeric_fields (remove_zero_numeric_fields row)
  = remove_zero_numeric_fields row.
Proof. apply filter_twice. Qed.

Lemma strip_nulls_idempotent (row : record) :
  strip_nulls (strip_nulls row) = strip_nulls row.
Proof. apply filter_twice. Qed.

(** C8. The composed cleaner is idempotent, in the order the claim writes
    it (strip the nulls, then remove the zeros) and in the order the
    pipeline applies it (remove the zeros, then strip the nulls): cleaning
    a cleaned record changes nothing. *)
Theorem cleaner_idempotent (row : record) :
  remove_zero_numeric_fields
    (strip_nulls (remove_zero_numeric_fields (strip_nulls row)))
  = remove_zero_numeric_fields (strip_nulls row)
  /\ strip_nulls
       (remove_zero_numeric_fields (strip_nulls (remove_zero_numeric_fields row)))
     = strip_nulls (remove_zero_numeric_fields row).
Proof.
  split.
  - rewrite (remove_zero_strip_nulls_commute (remove_zero_numeric_fields _)).
    rewrite remove_zero_idempotent, <- remove_zero_strip_nulls_commute.
    now rewrite strip_nulls_idempotent.
  - rewrite <- (remove_zero_strip_nulls_commute (strip_nulls _)).
    rewrite strip_nulls_idempotent, remove_zero_strip_nulls_commute.
    now rewrite remove_zero_idempotent.
Qed.

(** C10. A field that holds a Boolean survives
    [remove_zero_numeric_fields] exactly when the Boolean is [True]:
    every [False] field is dropped, every [True] field is kept. *)
Theorem remove_zero_drops_False_keeps_True (row : record) (key : string) (b : bool) :
  In (key, VBool b) (remove_zero_numeric_fields row)
  <-> In (key, VBool b) row /\ b = true.
Proof.
  unfold remove_zero_numeric_fields. rewrite filter_In. simpl.
  destruct b; simpl; intuition congruence.
Qed.

Example remove_zero_on_flags :
  remove_zero_numeric_fields
    [("active", VBool false); ("paid", VBool true); ("hits", VInt 0);
     ("name", VStr ""); ("load", VFloat "0.0")]
  = [("paid", VBool true); ("name", VStr "")].
Proof. reflexivity. Qed.

End Cleaner.

(** ** Row Filter: column detection *)

Section Detection.
Import DataProcessor.

Lemma scan_keys_fst (st : detected) (ks : list string) :
  fst (scan_keys st ks) = fst st
  \/ exists key, In key ks /\ is_client_key key = true
                 /\ fst (scan_keys st ks) = Some key.
Proof.
  revert st. induction ks as [|k ks IH]; intros st; simpl; [now left|].
  unfold scan_keys in *; simpl.
  destruct (IH (if is_client_key k then Some k else fst st,
                if is_metric_key k then Some k else snd st)) as [E | (key & Hin & Hk & E)].
  - simpl in E. destruct (is_client_key k) eqn:Ek.
    + right. exists k. auto.
    + left. exact E.
  - right. exists key. auto.
Qed.

Lemma scan_keys_snd (st : detected) (ks : list string) :
  snd (scan_keys st ks) = snd st
  \/ exists key, In key ks /\ is_metric_key key = true
                 /\ snd (scan_keys st ks) = Some key.
Proof.
  revert st. induction ks as [|k ks IH]; intros st; simpl; [now left|].
  unfold scan_keys in *; simpl.
  destruct (IH (if is_client_key k then Some k else fst st,
                if is_metric_key k then Some k else snd st)) as [E | (key & Hin & Hk & E)].
  - simpl in E. destruct (is_metric_key k) eqn:Ek.
    + right. exists k. auto.
    + left. exact E.
  - right. exists key. auto.
Qed.

Lemma scan_samples_fst (samples : list record) (st : detected) :
  fst (scan_samples st samples) = fst st
  \/ exists row key, In row samples /\ In key (keys row) /\ is_client_key key = true
                     /\ fst (scan_samples st samples) = Some key.
Proof.
  revert st. induction samples as [|s samples IH]; intros st; simpl; [now left|].
  destruct (found (fst (scan_keys st (keys s))) && found (snd (scan_keys st (keys s))))%bool.
  - destruct (scan_keys_fst st (keys s)) as [E | (key & Hin & Hk & E)]; [now left|].
    right. exists s, key. auto.
  - destruct (IH (scan_keys st (keys s))) as [E | (row & key & Hr & Hin & Hk & E)].
    + destruct (scan_keys_fst st (keys s)) as [E' | (key & Hin & Hk & E')].
      * left. congruence.
      * right. exists s, key. rewrite E. auto.
    + right. exists row, key. auto.
Qed.

Lemma scan_samples_snd (samples : list record) (st : detected) :
  snd (scan_samples st samples) = snd st
  \/ exists row key, In row samples /\ In key (keys row) /\ is_metric_key key = true
                     /\ snd (scan_samples st samples) = Some key.
Proof.
  revert st. induction samples as [|s samples IH]; intros st; simpl; [now left|].
  destruct (found (fst (scan_keys st (keys s))) && found (snd (scan_keys st (keys s))))%bool.
  - destruct (scan_keys_snd st (keys s)) as [E | (key & Hin & Hk & E)]; [now left|].
    right. exists s, key. auto.
  - destruct (IH (scan_keys st (keys s))) as [E | (row & key & Hr & Hin & Hk & E)].
    + destruct (scan_keys_snd st (keys s)) as [E' | (key & Hin & Hk & E')].
      * left. congruence.
      * right. exists s, key. rewrite E. auto.
    + right. exists row, key. auto.
Qed.

(** A detected client column is a field of one of the first five records
    and qualifies as one. *)
Lemma detect_client_sound (rows : list record) (key : string) :
  fst (detect_columns rows) = Some key ->
  is_client_key key = true
  /\ exists row, In row (firstn 5 rows) /\ In key (keys row).
Proof.
  unfold detect_columns. intros H.
  destruct (scan_samples_fst (firstn 5 rows) (None, None))
    as [E | (row & k & Hr & Hin & Hk & E)].
  - rewrite H in E. discriminate.
  - rewrite H in E. injection E as <-. eauto.
Qed.

Lemma detect_metric_sound (rows : list record) (key : string) :
  snd (detect_columns rows) = Some key ->
  is_metric_key key = true
  /\ exists row, In row (firstn 5 rows) /\ In key (keys row).
Proof.
  unfold detect_columns. intros H.
  destruct (scan_samples_snd (firstn 5 rows) (None, None))
    as [E | (row & k & Hr & Hin & Hk & E)].
  - rewrite H in E. discriminate.
  - rewrite H in E. injection E as <-. eauto.
Qed.

Lemma client_key_found (key : string) : is_client_key key = true -> found (Some key) = true.
Proof. destruct key; [discriminate | reflexivity]. Qed.

Lemma metric_key_found (key : string) : is_metric_key key = true -> found (Some key) = true.
Proof. destruct key; [discriminate | reflexivity]. Qed.

(** C9. When no field name of the first five records qualifies as the
    client-id column, or none qualifies as the metric column, the Row Filter
    returns its input unchanged. *)
Theorem filter_is_noop_without_columns (rows : list record) (target_client_id : string) :
  (forall row key, In row (firstn 5 rows) -> In key (keys row) -> is_client_key key = false)
  \/ (forall row key, In row (firstn 5 rows) -> In key (keys row) -> is_metric_key key = false) ->
  filter_by_client_and_metric rows target_client_id = Ok rows.
Proof.
  intros H. unfold filter_by_client_and_metric.
  destruct rows as [|r rows']; [reflexivity|].
  set (rows := r :: rows') in *.
  destruct (detect_columns rows) as [ck mk] eqn:D.
  assert (found ck = false \/ found mk = false) as [F | F].
  { destruct H as [H | H].
    - left. destruct ck as [key|]; [|reflexivity].
      destruct (detect_client_sound rows key) as (Hk & row & Hr & Hin);
        [now rewrite D|].
      rewrite (H row key Hr Hin) in Hk. discriminate.
    - right. destruct mk as [key|]; [|reflexivity].
      destruct (detect_metric_sound rows key) as (Hk & row & Hr & Hin);
        [now rewrite D|].
      rewrite (H row key Hr Hin) in Hk. discriminate. }
  - now rewrite F.
  - rewrite F. now rewrite orb_true_r.
Qed.

Lemma filter_is_noop_without_columns_witness :
  filter_by_client_and_metric
    [[("customer", VStr "123"); ("Metric value", VStr "0")];
     [("customer", VStr "456"); ("Metric value", VStr "7")]] "123"
  = Ok [[("customer", VStr "123"); ("Metric value", VStr "0")];
        [("customer", VStr "456"); ("Metric value", VStr "7")]].
Proof.
  apply filter_is_noop_without_columns.
  left. intros row key Hr Hk. simpl in Hr.
  destruct Hr as [<- | [<- | []]]; simpl in Hk;
    destruct Hk as [<- | [<- | []]]; reflexivity.
Defined.

End Detection.

(** ** Row Filter: which records are kept *)

Section RowFilter.
Import DataProcessor.


(** A false-ish metric value is dropped without being parsed. *)
Lemma metric_keeps_falsy (v : value) : truthy v = false -> metric_keeps v = Ok false.
Proof. unfold metric_keeps. now intros ->. Qed.



Variables client_key metric_key target_client_id : string.





End RowFilter.

Section RowFilterRule.
Import DataProcessor.



(** The test of the repository: of three records, the one whose client is
    "123" and whose metric is not zero is kept. *)
Example filter_scenario :
  filter_by_client_and_metric
    [[("Client ID", VStr "123"); ("Metric value", VStr "100")];
     [("Client ID", VStr "123"); ("Metric value", VStr "0")];
     [("Client ID", VStr "456"); ("Metric value", VStr "200")]] "123"
  = Ok [[("Client ID", VStr "123"); ("Metric value", VStr "100")]].
Proof. vm_compute. reflexivity. Qed.


(** The same for a null metric ([float(None)] raises [TypeError]). *)
Example filter_drops_null_metric :
  Spec.row_filter_keeps "Client ID" "Metric value" "123"
    [("Client ID", VStr "123"); ("Metric value", VNone)] = true
  /\ filter_by_client_and_metric
       [[("Client ID", VStr "123"); ("Metric value", VNone)]] "123" = Ok [].
Proof. vm_compute. split; reflexivity. Qed.

(** An integer metric beyond the range of [float]: [OverflowError] is not
    among the exceptions the loop catches, and the call raises it. *)
Example filter_raises_on_huge_metric :
  filter_by_client_and_metric
    [[("Client ID", VStr "123"); ("Metric value", VInt (2 ^ 1024))]] "123"
  = Raise OverflowError.
Proof. vm_compute. reflexivity. Qed.

(** A metric that is text but not a number is kept, as the claim says. *)
Example filter_keeps_unparseable_metric :
  filter_by_client_and_metric
    [[("Client ID", VStr " 123 "); ("Metric value", VStr "n/a")]] "123"
  = Ok [[("Client ID", VStr " 123 "); ("Metric value", VStr "n/a")]].
Proof. vm_compute. reflexivity. Qed.

(** [float] does not skip the separators FS, GS, RS and US that
    [str.strip] removes: a metric that is one of them before a zero is not a
    number, and the record is kept. *)
Example filter_keeps_separator_before_zero :
  py_float (VStr (String (ascii_of_nat 28) "0")) = Raise ValueError
  /\ py_float (VStr (String (ascii_of_nat 9) "0 ")) = Ok FZero
  /\ filter_by_client_and_metric
       [[("Client ID", VStr "123"); ("Metric value", VStr (String (ascii_of_nat 28) "0"))]]
       "123"
     = Ok [[("Client ID", VStr "123"); ("Metric value", VStr (String (ascii_of_nat 28) "0"))]].
Proof. vm_compute. repeat split. Qed.

(** A record that matches and is kept does not save the call when a later
    record of the client holds an integer beyond the range of [float]. *)
Example filter_raises_after_a_good_row :
  filter_by_client_and_metric
    [[("Client ID", VStr "123"); ("Metric value", VInt 5)];
     [("Client ID", VStr "123"); ("Metric value", VInt (2 ^ 1024))]] "123"
  = Raise OverflowError.
Proof. vm_compute. reflexivity. Qed.

End RowFilterRule.

(** ** Row Normalizer: headers and rows *)

Section Normalizer.

Lemma skipn_nth_error_some {A : Type} (l : list A) (i : nat) (x : A) :
  nth_error l i = Some x -> skipn i l = x :: skipn (S i) l.
Proof.
  revert i. induction l as [|a l IH]; intros [|i] H; try discriminate.
  - injection H as ->. reflexivity.
  - simpl in *. now apply IH.
Qed.

Lemma skipn_nth_error_none {A : Type} (l : list A) (i : nat) :
  nth_error l i = None -> skipn i l = [].
Proof.
  revert i. induction l as [|a l IH]; intros [|i] H; try reflexivity; try discriminate.
  simpl in *. now apply IH.
Qed.

(** The loop over [enumerate(row)] sets, in order, the pairs of the row
    zipped with the headers from [idx] on. *)
Lemma fill_row_zip (headers : list string) (row : list value) :
  forall (idx : nat) (obj : record),
    Legacy.fill_row headers idx row obj
    = fold_left (fun d kv => dict_set d (fst kv) (snd kv))
                (combine (skipn idx headers) row) obj.
Proof.
  induction row as [|val row IH]; intros idx obj; simpl.
  - now rewrite combine_nil.
  - rewrite IH. destruct (nth_error headers idx) as [h|] eqn:E.
    + rewrite (skipn_nth_error_some _ _ _ E). reflexivity.
    + rewrite (skipn_nth_error_none _ _ E).
      replace (skipn (S idx) headers) with (@nil string); [reflexivity|].
      symmetry. apply skipn_nth_error_none.
      apply nth_error_None. apply nth_error_None in E. lia.
Qed.

Lemma table_rows_zip (hs : list string) (rows : list (list value)) :
  Legacy.table_rows hs (map VList rows) = map (Spec.zip_row hs) rows.
Proof.
  induction rows as [|row rows IH]; simpl; [reflexivity|].
  rewrite IH. f_equal. apply (fill_row_zip hs row 0 []).
Qed.

Lemma zip_rows_same_length (hs : list string) (rows : list (list value)) :
  DataProcessor.zip_rows hs (map VList rows)
  = map (Spec.zip_row hs)
        (filter (fun row => Nat.eqb (List.length row) (List.length hs)) rows).
Proof.
  induction rows as [|row rows IH]; simpl; [reflexivity|].
  destruct (Nat.eqb (List.length row) (List.length hs)); simpl; now rewrite IH.
Qed.

Lemma map_py_str_names (hs : list string) : map py_str (map VStr hs) = hs.
Proof. induction hs as [|h hs IH]; simpl; [reflexivity | now rewrite IH]. Qed.

Lemma as_names_names (hs : list string) : DataProcessor.as_names (map VStr hs) = Some hs.
Proof. induction hs as [|h hs IH]; simpl; [reflexivity | now rewrite IH]. Qed.

(** C4, as the code has it.  On a mapping with a [headers] list of names and
    a [rows] list of lists (and no [data] list of mappings, which comes
    first), [_normalize_rows] of main.py zips every row against the headers:
    values beyond the headers are dropped, a shorter row gives a partial
    mapping, no row is discarded.  [DataProcessor.normalize_rows] zips the
    rows that are as long as the headers and discards every other row. *)
Theorem normalize_rows_headers_and_rows (d : record) (hs : list string)
    (rows : list (list value)) :
  dict_get d "headers" = Some (VList (map VStr hs)) ->
  dict_get d "rows" = Some (VList (map VList rows)) ->
  DataProcessor.data_rows d = None ->
  Legacy._normalize_rows (VDict d) = map (Spec.zip_row hs) rows
  /\ DataProcessor.normalize_rows (VDict d)
     = Some (map (Spec.zip_row hs)
               (filter (fun row => Nat.eqb (List.length row) (List.length hs)) rows)).
Proof.
  intros Hh Hr Hd. split.
  - unfold Legacy._normalize_rows, Legacy.list_at. rewrite Hd, Hh, Hr.
    rewrite map_py_str_names. apply table_rows_zip.
  - unfold DataProcessor.normalize_rows, DataProcessor.flatten_dict.
    rewrite Hd, Hh, Hr, as_names_names. simpl. f_equal. apply zip_rows_same_length.
Qed.

Lemma normalize_rows_headers_and_rows_witness :
  Legacy._normalize_rows
    (VDict [("headers", VList [VStr "a"; VStr "b"]);
            ("rows", VList [VList [VInt 1]; VList [VInt 3; VInt 4];
                            VList [VInt 5; VInt 6; VInt 7]])])
  = map (Spec.zip_row ["a"; "b"]) [[VInt 1]; [VInt 3; VInt 4]; [VInt 5; VInt 6; VInt 7]]
  /\ DataProcessor.normalize_rows
       (VDict [("headers", VList [VStr "a"; VStr "b"]);
               ("rows", VList [VList [VInt 1]; VList [VInt 3; VInt 4];
                               VList [VInt 5; VInt 6; VInt 7]])])
     = Some (map (Spec.zip_row ["a"; "b"])
               (filter (fun row => Nat.eqb (List.length row) (List.length ["a"; "b"]))
                       [[VInt 1]; [VInt 3; VInt 4]; [VInt 5; VInt 6; VInt 7]])).
Proof.
  apply (normalize_rows_headers_and_rows
           [("headers", VList [VStr "a"; VStr "b"]);
            ("rows", VList [VList [VInt 1]; VList [VInt 3; VInt 4];
                            VList [VInt 5; VInt 6; VInt 7]])]
           ["a"; "b"] [[VInt 1]; [VInt 3; VInt 4]; [VInt 5; VInt 6; VInt 7]]);
    reflexivity.
Defined.

(** The scenario of the specification, on both normalizers. *)
Example normalize_scenario :
  Legacy._normalize_rows
    (VDict [("headers", VList [VStr "a"; VStr "b"]);
            ("rows", VList [VList [VInt 1; VInt 2]; VList [VInt 3; VInt 4]])])
  = [[("a", VInt 1); ("b", VInt 2)]; [("a", VInt 3); ("b", VInt 4)]]
  /\ DataProcessor.normalize_rows
       (VDict [("headers", VList [VStr "a"; VStr "b"]);
               ("rows", VList [VList [VInt 1; VInt 2]; VList [VInt 3; VInt 4]])])
     = Some [[("a", VInt 1); ("b", VInt 2)]; [("a", VInt 3); ("b", VInt 4)]].
Proof. split; reflexivity. Qed.

(** C4 fails as stated on [DataProcessor.normalize_rows]: a row shorter than
    the headers and a row longer than them are both discarded, where the
    claim has a partial mapping and a truncated one. *)
Lemma normalize_rows_discards_ragged_rows :
  map (Spec.zip_row ["a"; "b"]) [[VInt 1]; [VInt 5; VInt 6; VInt 7]]
  = [[("a", VInt 1)]; [("a", VInt 5); ("b", VInt 6)]]
  /\ DataProcessor.normalize_rows
       (VDict [("headers", VList [VStr "a"; VStr "b"]);
               ("rows", VList [VList [VInt 1]; VList [VInt 5; VInt 6; VInt 7]])])
     = Some [].
Proof. split; reflexivity. Qed.

End Normalizer.

(** ** Format Encoder: the columns of the delimited text *)

Section StringOrder.

Lemma ascii_compare_lt (a b : ascii) :
  Ascii.compare a b = Lt <-> (N_of_ascii a < N_of_ascii b)%N.
Proof. unfold Ascii.compare. apply N.compare_lt_iff. Qed.

Lemma compare_lt_trans (a b c : string) :
  String.compare a b = Lt -> String.compare b c = Lt -> String.compare a c = Lt.
Proof.
  revert b c. induction a as [|x a IH]; intros [|y b] [|z c]; simpl; try congruence.
  destruct (Ascii.compare x y) eqn:Exy; try discriminate;
    destruct (Ascii.compare y z) eqn:Eyz; try discriminate; intros H1 H2.
  - apply Ascii.compare_eq_iff in Exy, Eyz. subst.
    assert (Ascii.compare z z = Eq) as ->
      by (unfold Ascii.compare; apply N.compare_refl).
    now apply IH with b.
  - apply Ascii.compare_eq_iff in Exy. subst. now rewrite Eyz.
  - apply Ascii.compare_eq_iff in Eyz. subst. now rewrite Exy.
  - assert (Ascii.compare x z = Lt) as ->; [|reflexivity].
    apply ascii_compare_lt. apply N.lt_trans with (N_of_ascii y);
      now apply ascii_compare_lt.
Qed.

Lemma ltb_trans (a b c : string) :
  String.ltb a b = true -> String.ltb b c = true -> String.ltb a c = true.
Proof.
  unfold String.ltb. intros H1 H2.
  destruct (String.compare a b) eqn:E1; try discriminate.
  destruct (String.compare b c) eqn:E2; try discriminate.
  now rewrite (compare_lt_trans a b c E1 E2).
Qed.

Lemma leb_neq_ltb (a b : string) :
  String.leb a b = true -> a <> b -> String.ltb a b = true.
Proof.
  unfold String.leb, String.ltb. intros H N.
  destruct (String.compare a b) eqn:E; try discriminate; [|reflexivity].
  elim N. now apply String.compare_eq_iff.
Qed.

Lemma leb_false_ltb (a b : string) : String.leb a b = false -> String.ltb b a = true.
Proof.
  unfold String.leb, String.ltb. rewrite (String.compare_antisym b a).
  destruct (String.compare a b); simpl; congruence.
Qed.

End StringOrder.

Section Encoder.
Import DataProcessor.

#[local] Abbreviation lt_str := (fun a b : string => String.ltb a b = true).

Lemma insert_sorted_in (k x : string) (l : list string) :
  In x (insert_sorted k l) <-> x = k \/ In x l.
Proof.
  induction l as [|y l IH]; simpl; [intuition|].
  destruct (String.leb k y); simpl; rewrite ?IH; intuition.
Qed.

Lemma sorted_in (x : string) (l : list string) : In x (sorted l) <-> In x l.
Proof.
  induction l as [|y l IH]; simpl; [tauto|].
  rewrite insert_sorted_in, IH. intuition.
Qed.

Lemma insert_sorted_strict (k : string) (l : list string) :
  StronglySorted lt_str l -> ~ In k l -> StronglySorted lt_str (insert_sorted k l).
Proof.
  induction 1 as [|y l Hl IH Hy]; intros Hk; simpl.
  - constructor; constructor.
  - destruct (String.leb k y) eqn:E.
    + assert (String.ltb k y = true) as Hky.
      { apply leb_neq_ltb; [exact E|]. intros ->. apply Hk. now left. }
      constructor; [now constructor|].
      constructor; [exact Hky|].
      rewrite Forall_forall in *. intros z Hz. apply ltb_trans with y; auto.
    + constructor.
      * apply IH. intros Hin. apply Hk. now right.
      * rewrite Forall_forall in *. intros z Hz.
        apply insert_sorted_in in Hz. destruct Hz as [-> | Hz]; auto.
        now apply leb_false_ltb.
Qed.

Lemma sorted_strict (l : list string) : NoDup l -> StronglySorted lt_str (sorted l).
Proof.
  induction 1 as [|x l Hx Hl IH]; simpl; [constructor|].
  apply insert_sorted_strict; [exact IH|]. now rewrite sorted_in.
Qed.

Lemma existsb_eqb_in (k : string) (l : list string) :
  existsb (String.eqb k) l = true <-> In k l.
Proof.
  rewrite existsb_exists. split.
  - intros (x & Hx & E). apply String.eqb_eq in E. now subst.
  - intros H. exists k. split; [exact H | apply String.eqb_refl].
Qed.

Lemma set_update_spec (ks acc : list string) :
  NoDup acc ->
  NoDup (set_update acc ks) /\ forall k, In k (set_update acc ks) <-> In k acc \/ In k ks.
Proof.
  revert acc. induction ks as [|x ks IH]; intros acc Hacc; simpl.
  - split; [exact Hacc | intuition].
  - unfold set_update in *. simpl.
    destruct (existsb (String.eqb x) acc) eqn:E.
    + destruct (IH acc Hacc) as [Hn Hi]. split; [exact Hn|].
      intros k. rewrite Hi. apply existsb_eqb_in in E. intuition (subst; auto).
    + assert (~ In x acc) as Hx.
      { intros Hin. apply existsb_eqb_in in Hin. congruence. }
      destruct (IH (acc ++ [x])%list) as [Hn Hi].
      { apply NoDup_app; [exact Hacc | repeat constructor; intros [] | ].
        intros a Ha [<- | []]. contradiction. }
      split; [exact Hn|]. intros k. rewrite Hi, in_app_iff. simpl. intuition.
Qed.

Lemma all_keys_from (rows : list record) (acc : list string) :
  NoDup acc ->
  NoDup (fold_left (fun acc row => set_update acc (keys row)) rows acc)
  /\ forall k, In k (fold_left (fun acc row => set_update acc (keys row)) rows acc)
               <-> In k acc \/ exists row, In row rows /\ In k (keys row).
Proof.
  revert acc. induction rows as [|r rows IH]; intros acc Hacc; simpl.
  - split; [exact Hacc|]. intros k. split; [auto | intros [H | (row & [] & _)]; exact H].
  - destruct (set_update_spec (keys r) acc Hacc) as [Hn Hi].
    destruct (IH _ Hn) as [Hn' Hi']. split; [exact Hn'|].
    intros k. rewrite Hi', Hi. split.
    + intros [[H | H] | (row & Hr & Hk)]; eauto.
    + intros [H | (row & [<- | Hr] & Hk)]; eauto.
Qed.

Lemma all_keys_spec (rows : list record) :
  NoDup (all_keys rows)
  /\ forall k, In k (all_keys rows) <-> exists row, In row rows /\ In k (keys row).
Proof.
  destruct (all_keys_from rows [] (NoDup_nil _)) as [Hn Hi]. split; [exact Hn|].
  intros k. unfold all_keys. rewrite Hi. simpl. tauto.
Qed.

Lemma dict_get_missing (row : record) (key : string) :
  ~ In key (keys row) -> dict_get row key = None.
Proof.
  induction row as [|[k v] row IH]; simpl; intros H; [reflexivity|].
  destruct (String.eqb k key) eqn:E.
  - apply String.eqb_eq in E. elim H. now left.
  - apply IH. tauto.
Qed.

Lemma row_cells_missing (names : list string) (row : record) (i : nat) (key : string) :
  nth_error names i = Some key -> ~ In key (keys row) ->
  nth_error (row_cells names row) i = Some "".
Proof.
  intros Hi Hk. unfold row_cells. rewrite nth_error_map, Hi. simpl.
  unfold get_default. now rewrite (dict_get_missing row key Hk).
Qed.

(** *** Reading back what the encoder wrote *)

Lemma string_app_assoc (a b c : string) : ((a ++ b) ++ c = a ++ (b ++ c))%string.
Proof. induction a as [|x a IH]; simpl; [reflexivity | now rewrite IH]. Qed.

Lemma string_app_empty (a : string) : (a ++ "" = a)%string.
Proof. induction a as [|x a IH]; simpl; [reflexivity | now rewrite IH]. Qed.

Lemma needs_quoting_false (c : ascii) :
  needs_quoting c = false ->
  Ascii.eqb c "," = false /\ Ascii.eqb c quote_char = false
  /\ Ascii.eqb c cr = false /\ Ascii.eqb c lf = false.
Proof.
  unfold needs_quoting. intros H.
  repeat (apply orb_false_iff in H; destruct H as [H ?]). auto.
Qed.

(** A field without comma, quote, CR or LF is read as it stands. *)
Lemma read_plain (f cur : string) (fields : list string) (tail : string) :
  exists_char needs_quoting f = false ->
  Spec.read_csv_from Spec.InField cur fields (f ++ tail)
  = Spec.read_csv_from Spec.InField (cur ++ f) fields tail.
Proof.
  revert cur. induction f as [|c f IH]; intros cur H; simpl.
  - now rewrite string_app_empty.
  - simpl in H. apply orb_false_iff in H. destruct H as [Hc Hf].
    destruct (needs_quoting_false c Hc) as (E1 & E2 & E3 & E4).
    unfold Spec.reader_step. rewrite E1, E3, E4, E2. simpl.
    rewrite (IH _ Hf), string_app_assoc. reflexivity.
Qed.

(** Inside the quotes everything is taken, a doubled quote as one quote,
    up to the closing quote. *)
Lemma read_quoted (f cur : string) (fields : list string) (tail : string) :
  Spec.read_csv_from Spec.InQuotedField cur fields
    (double_quotes f ++ String quote_char tail)
  = Spec.read_csv_from Spec.QuoteInQuotedField (cur ++ f) fields tail.
Proof.
  revert cur. induction f as [|c f IH]; intros cur; simpl.
  - now rewrite string_app_empty.
  - destruct (Ascii.eqb c quote_char) eqn:E; simpl; rewrite E.
    + apply Ascii.eqb_eq in E. subst c. simpl.
      rewrite IH, string_app_assoc. reflexivity.
    + rewrite IH, string_app_assoc. reflexivity.
Qed.

(** What stands before a field: the start of a record, or a comma. *)
Definition field_start (st : Spec.reader_state) (fields : list string) : Prop :=
  (st = Spec.StartRecord /\ fields = []) \/ st = Spec.StartField.

(** A field the encoder wrote, followed by a comma. *)
Lemma read_field_comma (st : Spec.reader_state) (f : string) (fields : list string)
    (tail : string) :
  field_start st fields ->
  Spec.read_csv_from st "" fields (csv_field f ++ String "," tail)
  = Spec.read_csv_from Spec.StartField "" (fields ++ [f]) tail.
Proof.
  intros Hst. unfold csv_field. destruct (exists_char needs_quoting f) eqn:Q.
  - assert (forall t, Spec.read_csv_from st "" fields (String quote_char t)
                      = Spec.read_csv_from Spec.InQuotedField "" fields t) as Open.
    { intros t. destruct Hst as [[-> _] | ->]; reflexivity. }
    cbn [String.append]. rewrite Open, string_app_assoc. cbn [String.append].
    rewrite read_quoted. reflexivity.
  - destruct f as [|c f].
    + destruct Hst as [[-> ->] | ->]; reflexivity.
    + simpl in Q. apply orb_false_iff in Q. destruct Q as [Hc Hf].
      destruct (needs_quoting_false c Hc) as (E1 & E2 & E3 & E4).
      assert (Spec.read_csv_from st "" fields (String c (f ++ String "," tail))
              = Spec.read_csv_from Spec.InField (String c "") fields (f ++ String "," tail))
        as First.
      { destruct Hst as [[-> _] | ->]; simpl; unfold Spec.reader_step;
          rewrite E1, E3, E4, E2; reflexivity. }
      cbn [String.append]. rewrite First, (read_plain _ _ _ _ Hf). reflexivity.
Qed.

(** A field the encoder wrote, at the end of a line, when it is not the
    only field of the record and empty. *)
Lemma read_field_crlf (st : Spec.reader_state) (f : string) (fields : list string)
    (tail : string) :
  field_start st fields ->
  (st = Spec.StartRecord -> csv_field f <> "") ->
  Spec.read_csv_from st "" fields (csv_field f ++ crlf ++ tail)
  = (fields ++ [f])%list :: Spec.read_csv tail.
Proof.
  intros Hst Hne. unfold csv_field in *. destruct (exists_char needs_quoting f) eqn:Q.
  - assert (forall t, Spec.read_csv_from st "" fields (String quote_char t)
                      = Spec.read_csv_from Spec.InQuotedField "" fields t) as Open.
    { intros t. destruct Hst as [[-> _] | ->]; reflexivity. }
    cbn [String.append]. rewrite Open, string_app_assoc. cbn [String.append].
    rewrite read_quoted. reflexivity.
  - destruct f as [|c f].
    + destruct Hst as [[-> ->] | ->]; [now elim Hne | reflexivity].
    + simpl in Q. apply orb_false_iff in Q. destruct Q as [Hc Hf].
      destruct (needs_quoting_false c Hc) as (E1 & E2 & E3 & E4).
      assert (Spec.read_csv_from st "" fields (String c (f ++ crlf ++ tail))
              = Spec.read_csv_from Spec.InField (String c "") fields (f ++ crlf ++ tail))
        as First.
      { destruct Hst as [[-> _] | ->]; simpl; unfold Spec.reader_step;
          rewrite E1, E3, E4, E2; reflexivity. }
      cbn [String.append]. rewrite First, (read_plain _ _ _ _ Hf). reflexivity.
Qed.

Lemma read_joined (fs : list string) (f : string) (st : Spec.reader_state)
    (fields : list string) (tail : string) :
  field_start st fields ->
  (st = Spec.StartRecord -> fs = [] -> csv_field f <> "") ->
  Spec.read_csv_from st "" fields (join "," (map csv_field (f :: fs)) ++ crlf ++ tail)
  = (fields ++ f :: fs)%list :: Spec.read_csv tail.
Proof.
  revert f st fields. induction fs as [|g fs IH]; intros f st fields Hst Hne.
  - simpl map. simpl join. apply read_field_crlf; auto.
  - change (join "," (map csv_field (f :: g :: fs)))
      with (csv_field f ++ "," ++ join "," (map csv_field (g :: fs)))%string.
    rewrite !string_app_assoc.
    transitivity (Spec.read_csv_from Spec.StartField "" (fields ++ [f])
                    (join "," (map csv_field (g :: fs)) ++ crlf ++ tail)).
    { exact (read_field_comma st f fields _ Hst). }
    rewrite IH; [|now right | discriminate].
    now rewrite <- app_assoc.
Qed.

(** One line of the encoder is read back as the fields it was written
    from, whatever they hold. *)
Lemma read_csv_row (fs : list string) (tail : string) :
  Spec.read_csv (csv_row fs ++ tail) = fs :: Spec.read_csv tail.
Proof.
  unfold Spec.read_csv.
  destruct fs as [|f fs]; [reflexivity|].
  destruct f as [|c f]; [destruct fs as [|g fs]; [reflexivity|]|].
  - change (csv_row ("" :: g :: fs)) with (join "," (map csv_field ("" :: g :: fs)) ++ crlf)%string.
    rewrite string_app_assoc.
    rewrite read_joined; [reflexivity | left; auto | discriminate].
  - assert (csv_row (String c f :: fs) = join "," (map csv_field (String c f :: fs)) ++ crlf)%string
      as -> by (destruct fs; reflexivity).
    rewrite string_app_assoc.
    rewrite read_joined; [reflexivity | left; auto |].
    intros _ _. unfold csv_field. destruct (exists_char _ _); discriminate.
Qed.

Lemma read_csv_rows (ls : list (list string)) :
  Spec.read_csv (String.concat "" (map csv_row ls)) = ls.
Proof.
  induction ls as [|fs ls IH]; [reflexivity|].
  destruct ls as [|gs ls].
  - simpl. rewrite <- (string_app_empty (csv_row fs)) at 1. now rewrite read_csv_row.
  - change (String.concat "" (map csv_row (fs :: gs :: ls)))
      with (csv_row fs ++ String.concat "" (map csv_row (gs :: ls)))%string.
    now rewrite read_csv_row, IH.
Qed.

(** C7.  [to_csv] gives the empty string for no rows.  For at least one
    row it writes the header, then one line per record, and the text read
    back as delimited text is the header record followed by one record per
    row: the header record is the list of the field names of all the
    records, each once, in ascending order of code points, and the record of
    a row holds its cells under these names: the empty text under a name
    the record does not have, the text of the value under a name it has. *)
Theorem to_csv_header_is_sorted_union (rows : list record) :
  to_csv [] = ""
  /\ (rows <> [] ->
      to_csv rows
      = csv_row (fieldnames rows)
          ++ String.concat "" (map (fun row => csv_row (row_cells (fieldnames rows) row)) rows))
  /\ (rows <> [] ->
      Spec.read_csv (to_csv rows)
      = fieldnames rows :: map (row_cells (fieldnames rows)) rows)
  /\ StronglySorted (fun a b => String.ltb a b = true) (fieldnames rows)
  /\ (forall key, In key (fieldnames rows) <-> exists row, In row rows /\ In key (keys row))
  /\ (forall row i key,
        nth_error (fieldnames rows) i = Some key -> ~ In key (keys row) ->
        nth_error (row_cells (fieldnames rows) row) i = Some "")
  /\ (forall row i key v,
        nth_error (fieldnames rows) i = Some key -> dict_get row key = Some v ->
        nth_error (row_cells (fieldnames rows) row) i = Some (cell_text v)).
Proof.
  destruct (all_keys_spec rows) as [Hn Hi].
  split; [reflexivity|]. split; [|split; [|split; [|split; [|split]]]].
  - destruct rows; [congruence | reflexivity].
  - intros Hrows.
    assert (to_csv rows
            = csv_row (fieldnames rows)
                ++ String.concat ""
                     (map csv_row (map (row_cells (fieldnames rows)) rows)))%string as ->.
    { rewrite map_map. destruct rows; [congruence | reflexivity]. }
    now rewrite read_csv_row, read_csv_rows.
  - now apply sorted_strict.
  - intros key. unfold fieldnames. now rewrite sorted_in.
  - intros row i key. apply row_cells_missing.
  - intros row i key v Hk Hv. unfold row_cells. rewrite nth_error_map, Hk. simpl.
    unfold get_default. now rewrite Hv.
Qed.

(** Records with different fields: the header is the sorted union, the
    missing cells are empty, a cell with a comma is quoted. *)
Example to_csv_heterogeneous :
  to_csv [[("b", VInt 1)]; [("a", VNone); ("c", VStr "x,y")]; []]
  = "a,b,c" ++ crlf ++ ",1," ++ crlf
     ++ String.concat "" [","; ","; String quote_char "x,y"; String quote_char ""] ++ crlf
     ++ ",," ++ crlf.
Proof. reflexivity. Qed.

End Encoder.

(** ** Upstream Gateway: feature ids of a product *)

Section Features.
Import GcoreClient.

Lemma filter_nonempty {A : Type} (p : A -> bool) (l : list A) :
  filter p l <> [] <-> exists x, In x l /\ p x = true.
Proof.
  split.
  - intros H. destruct (filter p l) as [|x l'] eqn:E; [congruence|].
    exists x. apply filter_In. rewrite E. now left.
  - intros (x & Hx & Hp) E.
    assert (In x (filter p l)) as Hin by (apply filter_In; auto).
    rewrite E in Hin. exact Hin.
Qed.

(** The matching loop is a [filter] when every product name is text (or
    missing). *)
Lemma matching_ids_filter (target : string) (features : list record) :
  (forall f, In f features -> exists p, pname_of f = Ok p) ->
  matching_ids target features
  = Ok (map (fun f => get_or_none f "id")
          (filter
             (fun f =>
                (match pname_of f with
                 | Ok p => String.eqb p target
                 | Raise _ => false
                 end && is_int (get_or_none f "id"))%bool)
             features)).
Proof.
  induction features as [|f fs IH]; intros H; simpl; [reflexivity|].
  destruct (H f (or_introl eq_refl)) as [p Hp]. rewrite Hp. simpl.
  rewrite IH by (intros g Hg; apply H; now right). simpl.
  destruct (String.eqb p target && is_int (get_or_none f "id"))%bool; reflexivity.
Qed.

(** C6, as the code has it.  When every feature's product name is text (or
    missing), [get_features_for_product] returns the ids of the features
    whose trimmed product name equals the requested one, letter case apart,
    and whose id is an integer, if there is one; otherwise it returns the
    true-ish ids of the first ten features, and so a non-empty list exactly
    when one of the first ten features has an id that is not null, zero or
    empty. *)
Theorem get_features_matching_or_fallback (features_data : list record)
    (product_name : string) :
  (forall f, In f features_data -> exists p, pname_of f = Ok p) ->
  let matched :=
    map (fun f => get_or_none f "id")
      (filter
         (fun f =>
            (match pname_of f with
             | Ok p => String.eqb p (upper product_name)
             | Raise _ => false
             end && is_int (get_or_none f "id"))%bool)
         features_data) in
  (matched <> [] ->
   get_features_for_product features_data product_name = Ok matched)
  /\ (matched = [] ->
      get_features_for_product features_data product_name
      = Ok (fallback_ids features_data)
      /\ (fallback_ids features_data <> []
          <-> exists f, In f (firstn 10 features_data)
                        /\ truthy (get_or_none f "id") = true)).
Proof.
  intros H matched. unfold get_features_for_product.
  rewrite (matching_ids_filter _ _ H). fold matched. simpl. split.
  - intros Hm. destruct matched; [congruence | reflexivity].
  - intros ->. split; [reflexivity|].
    unfold fallback_ids. rewrite filter_nonempty. split.
    + intros (x & Hx & Ht). apply in_map_iff in Hx.
      destruct Hx as (f & <- & Hf). eauto.
    + intros (f & Hf & Ht). exists (get_or_none f "id").
      split; [|exact Ht]. apply in_map_iff. eauto.
Qed.

Lemma get_features_matching_or_fallback_witness :
  let features_data :=
    [[("id", VInt 7); ("product_name_en", VStr " cdn ")];
     [("id", VInt 8); ("productNameEn", VStr "WAAP")];
     [("id", VInt 9); ("product", VStr "Cdn")]] in
  let matched :=
    map (fun f => get_or_none f "id")
      (filter
         (fun f =>
            (match pname_of f with
             | Ok p => String.eqb p (upper "CDN")
             | Raise _ => false
             end && is_int (get_or_none f "id"))%bool)
         features_data) in
  (matched <> [] ->
   get_features_for_product features_data "CDN" = Ok matched)
  /\ (matched = [] ->
      get_features_for_product features_data "CDN" = Ok (fallback_ids features_data)
      /\ (fallback_ids features_data <> []
          <-> exists f, In f (firstn 10 features_data)
                        /\ truthy (get_or_none f "id") = true)).
Proof.
  apply (get_features_matching_or_fallback
           [[("id", VInt 7); ("product_name_en", VStr " cdn ")];
            [("id", VInt 8); ("productNameEn", VStr "WAAP")];
            [("id", VInt 9); ("product", VStr "Cdn")]] "CDN").
  intros f Hf. simpl in Hf.
  destruct Hf as [<- | [<- | [<- | []]]]; eexists; reflexivity.
Defined.

Example features_matched :
  get_features_for_product
    [[("id", VInt 7); ("product_name_en", VStr " cdn ")];
     [("id", VInt 8); ("productNameEn", VStr "WAAP")];
     [("id", VInt 9); ("product", VStr "Cdn")]] "CDN"
  = Ok [VInt 7; VInt 9].
Proof. reflexivity. Qed.

Example features_fallback :
  get_features_for_product
    [[("id", VInt 7); ("product_name_en", VStr "CDN")];
     [("id", VInt 8); ("product_name_en", VStr "Cloud")]] "WAAP"
  = Ok [VInt 7; VInt 8].
Proof. reflexivity. Qed.

(** C6 fails as stated: the feature list is not empty, no product name
    matches, and the fallback is empty, an id of 0 not being true-ish. *)
Lemma features_fallback_can_be_empty :
  get_features_for_product
    [[("id", VInt 0); ("product_name_en", VStr "CDN")]] "WAAP" = Ok [].
Proof. reflexivity. Qed.

(** The same for a feature that carries no id. *)
Example features_fallback_without_id :
  get_features_for_product [[("product_name_en", VStr "CDN")]] "WAAP" = Ok [].
Proof. reflexivity. Qed.

End Features.

(** ** Job Poller: how a status word is read *)

Section StatusWords.
Import Poll.

Lemma loop_step {S : Type} (body : S -> step S) (fuel : nat) (st : S) :
  loop body (Datatypes.S fuel) st
  = match body st with
    | Return s => Some (Ok s)
    | Fail e => Some (Raise e)
    | Continue st' => loop body fuel st'
    end.
Proof. reflexivity. Qed.

(** The status word [_wait_until_ready] reads from a JSON object that has
    the word under "status" and nothing under "state". *)
Lemma legacy_status_read (d : record) (s : string) :
  dict_get d "status" = Some (VStr s) ->
  dict_get d "state" = None ->
  Legacy.read_status (VDict d) = Ok (lower s).
Proof.
  intros Hs Hn. unfold Legacy.read_status, Legacy.js_get, get_or_none, get_default.
  destruct d as [|kv d]; [discriminate|]. cbn [truthy]. rewrite Hs, Hn. cbn [bind].
  unfold py_or. cbn [truthy]. destruct s; reflexivity.
Qed.

Lemma legacy_wait_body_ok (up : Legacy.upstream) (deadline : Q) (poll_s : Z)
    (st : Legacy.poll_state) (d : record) (s : string) :
  Legacy.reply up (S (Legacy.poll_count st))
  = Ok {| Legacy.status_code := 200; Legacy.json := Ok (VDict d) |} ->
  dict_get d "status" = Some (VStr s) ->
  dict_get d "state" = None ->
  Legacy.wait_body up deadline poll_s st
  = let t := (Legacy.now st + Legacy.latency up (S (Legacy.poll_count st)))%Q in
    let last := if String.eqb (lower s) "" then Legacy.last_status st else lower s in
    if mem (lower s) Legacy.completed_words then Return (lower s)
    else if mem (lower s) Legacy.failed_words then
      Fail (HTTPException 502
              ("Gcore report failed: "
                 ++ py_str (py_or (get_or_none d "message")
                                  (VStr "Report generation failed."))))
    else if Qle_bool deadline t then Fail (HTTPException 504 (Legacy.timed_out_detail last))
    else Continue {| Legacy.now := (t + inject_Z poll_s)%Q;
                     Legacy.poll_count := S (Legacy.poll_count st);
                     Legacy.last_status := last |}.
Proof.
  intros Hr Hs Hn. unfold Legacy.wait_body. rewrite Hr. cbn [Legacy.status_code Legacy.json].
  change (200 =? 401) with false.
  change (negb ((200 <=? 200) && (200 <=? 299))) with false. cbv iota.
  rewrite (legacy_status_read d s Hs Hn).
  destruct (mem (lower s) Legacy.completed_words); [reflexivity|].
  destruct (mem (lower s) Legacy.failed_words); [|reflexivity].
  unfold Legacy.js_get. destruct d; [discriminate | reflexivity].
Qed.

Lemma gcore_wait_body_ok (up : GcoreClient.upstream) (start_time : Q)
    (timeout poll_interval : Z) (st : GcoreClient.poll_state) (d : record) (s : string) :
  GcoreClient.check_status up (S (GcoreClient.poll_count st)) = Ok (VDict d) ->
  dict_get d "status" = Some (VStr s) ->
  GcoreClient.wait_body up start_time timeout poll_interval st
  = let t := (GcoreClient.now st
              + GcoreClient.latency up (S (GcoreClient.poll_count st)))%Q in
    let next := {| GcoreClient.now := (t + inject_Z poll_interval)%Q;
                   GcoreClient.poll_count := S (GcoreClient.poll_count st) |} in
    if String.eqb (lower s) "completed" then Return "completed"
    else if String.eqb (lower s) "failed"
    then Fail (HTTPException 502 "Report generation failed")
    else if mem (lower s) ["inprogress"; "pending"] then
      if negb (Qle_bool (t - start_time) (inject_Z timeout))
      then Fail (HTTPException 504 (GcoreClient.timed_out_detail timeout))
      else Continue next
    else Continue next.
Proof.
  intros Hc Hs. unfold GcoreClient.wait_body. rewrite Hc.
  unfold GcoreClient.status_of, get_default. cbn [bind]. rewrite Hs. reflexivity.
Qed.




End StatusWords.

(** ** Job Poller: the timeout *)

Section Timeout.
Import Poll.

(** A status word that is none of the four [wait_for_completion] knows. *)
Lemma gcore_unknown_word_continues (up : GcoreClient.upstream) (start_time : Q)
    (timeout poll_interval : Z) (s : string) :
  mem (lower s) ["completed"; "failed"; "inprogress"; "pending"] = false ->
  (forall k, GcoreClient.check_status up k = Ok (VDict [("status", VStr s)])) ->
  forall (fuel : nat) (st : GcoreClient.poll_state),
    loop (GcoreClient.wait_body up start_time timeout poll_interval) fuel st = None.
Proof.
  intros Hw Hup. induction fuel as [|fuel IH]; intros st; [reflexivity|].
  rewrite loop_step.
  rewrite (gcore_wait_body_ok up start_time timeout poll_interval st
             [("status", VStr s)] s (Hup _) eq_refl).
  cbv zeta. unfold mem in *. cbn [existsb] in *.
  rewrite !orb_false_iff in Hw. destruct Hw as (H1 & H2 & H3 & H4 & _).
  rewrite H1, H2, H3, H4. cbn [orb]. apply IH.
Qed.

(** C1 on [wait_for_completion]: with a status the poller does not know
    ("queued"), whatever the clock does and however long the timeout, the
    loop is still running after any number of polls: the elapsed time is
    never compared with the timeout. *)
Theorem wait_for_completion_never_times_out_on_unknown_status
    (latency : nat -> Q) (start_time : Q) (timeout poll_interval : Z) (fuel : nat) :
  GcoreClient.wait_for_completion
    {| GcoreClient.check_status := fun _ => Ok (VDict [("status", VStr "queued")]);
       GcoreClient.latency := latency |}
    start_time timeout poll_interval fuel
  = None.
Proof.
  unfold GcoreClient.wait_for_completion.
  apply gcore_unknown_word_continues with (s := "queued"); reflexivity.
Qed.

(** With the default timeout of 600 s and interval of 10 s: a thousand polls
    on, some three hours after the first, no time-out. *)
Example wait_for_completion_queued_for_hours :
  GcoreClient.wait_for_completion
    {| GcoreClient.check_status := fun _ => Ok (VDict [("status", VStr "queued")]);
       GcoreClient.latency := fun _ => 1%Q |}
    0%Q 600 10 1000
  = None.
Proof.
  unfold GcoreClient.wait_for_completion.
  apply gcore_unknown_word_continues with (s := "queued"); reflexivity.
Qed.

(** The scenario of the specification: "pending", "inprogress", "completed"
    ends the wait at the third status check, and not before. *)
Example wait_for_completion_scenario :
  GcoreClient.wait_for_completion
    {| GcoreClient.check_status := fun k =>
         Ok (VDict [("status",
                     VStr (match k with
                           | 1%nat => "pending"
                           | 2%nat => "inprogress"
                           | _ => "completed"
                           end))]);
       GcoreClient.latency := fun _ => 1%Q |}
    0%Q 600 10 3
  = Some (Ok "completed")
  /\ GcoreClient.wait_for_completion
       {| GcoreClient.check_status := fun k =>
            Ok (VDict [("status",
                        VStr (match k with
                              | 1%nat => "pending"
                              | 2%nat => "inprogress"
                              | _ => "completed"
                              end))]);
          GcoreClient.latency := fun _ => 1%Q |}
       0%Q 600 10 2
     = None.
Proof. vm_compute. split; reflexivity. Qed.

(** On the words it knows as pending, [wait_for_completion] does time out. *)
Example wait_for_completion_pending_times_out :
  GcoreClient.wait_for_completion
    {| GcoreClient.check_status := fun _ => Ok (VDict [("status", VStr "Pending")]);
       GcoreClient.latency := fun _ => 1%Q |}
    0%Q 600 10 100
  = Some (Raise (HTTPException 504 "Report generation timed out after 600s")).
Proof. vm_compute. reflexivity. Qed.

(** The status word of the [k]-th reply as the poller reads it, empty when
    the reply gives none. *)
Definition status_word (up : Legacy.upstream) (k : nat) : string :=
  match Legacy.reply up k with
  | Ok r =>
      match Legacy.json r with
      | Ok js =>
          match Legacy.read_status js with
          | Ok status => status
          | Raise _ => ""
          end
      | Raise _ => ""
      end
  | Raise _ => ""
  end.

(** The last status read in the first [n] replies: the word of the latest
    of them that has one, "unknown" when none has. *)
Fixpoint last_status_read (word : nat -> string) (n : nat) : string :=
  match n with
  | O => "unknown"
  | S n' => if String.eqb (word n) "" then last_status_read word n' else word n
  end.

Lemma status_word_ok (up : Legacy.upstream) (k : nat) (d : record) (s : string) :
  Legacy.reply up k = Ok {| Legacy.status_code := 200; Legacy.json := Ok (VDict d) |} ->
  dict_get d "status" = Some (VStr s) ->
  dict_get d "state" = None ->
  status_word up k = lower s.
Proof.
  intros Hr Hs Hn. unfold status_word. rewrite Hr. cbn [Legacy.json].
  now rewrite (legacy_status_read d s Hs Hn).
Qed.

(** The poller of main.py compares the clock with the deadline on every
    pass that does not end the wait. *)
Lemma legacy_loop_times_out (up : Legacy.upstream) (deadline : Q) (poll_s : Z) :
  (forall k, exists d s,
      Legacy.reply up k
      = Ok {| Legacy.status_code := 200; Legacy.json := Ok (VDict d) |}
      /\ dict_get d "status" = Some (VStr s)
      /\ dict_get d "state" = None
      /\ Spec.map_status s = Spec.NonTerminal) ->
  (forall k, 0 <= Legacy.latency up k)%Q ->
  (0 < poll_s)%Z ->
  forall (n : nat) (st : Legacy.poll_state),
    Legacy.last_status st = last_status_read (status_word up) (Legacy.poll_count st) ->
    (deadline - Legacy.now st <= inject_Z (Z.of_nat n) * inject_Z poll_s)%Q ->
    exists m,
      (1 <= m)%nat
      /\ (forall fuel, (fuel < m)%nat ->
            loop (Legacy.wait_body up deadline poll_s) fuel st = None)
      /\ (forall fuel, (m <= fuel)%nat ->
            loop (Legacy.wait_body up deadline poll_s) fuel st
            = Some (Raise (HTTPException 504
                             (Legacy.timed_out_detail
                                (last_status_read (status_word up)
                                   (Legacy.poll_count st + m)))))).
Proof.
  intros Hup Hlat Hpoll.
  assert (0 < inject_Z poll_s)%Q as HP.
  { change 0%Q with (inject_Z 0). now rewrite <- Zlt_Qlt. }
  assert (forall (st : Legacy.poll_state),
             Legacy.last_status st
             = last_status_read (status_word up) (Legacy.poll_count st) ->
             exists s,
               Spec.map_status s = Spec.NonTerminal
               /\ (if String.eqb (lower s) "" then Legacy.last_status st else lower s)
                  = last_status_read (status_word up) (S (Legacy.poll_count st))
               /\ Legacy.wait_body up deadline poll_s st
                  = if Qle_bool deadline
                         (Legacy.now st + Legacy.latency up (S (Legacy.poll_count st)))
                    then Fail (HTTPException 504
                                 (Legacy.timed_out_detail
                                    (last_status_read (status_word up)
                                       (S (Legacy.poll_count st)))))
                    else Continue
                           {| Legacy.now :=
                                (Legacy.now st
                                 + Legacy.latency up (S (Legacy.poll_count st))
                                 + inject_Z poll_s)%Q;
                              Legacy.poll_count := S (Legacy.poll_count st);
                              Legacy.last_status :=
                                last_status_read (status_word up)
                                  (S (Legacy.poll_count st)) |}) as Pass.
  { intros st Inv.
    destruct (Hup (S (Legacy.poll_count st))) as (d & s & Hr & Hs & Hst & Hm).
    exists s. split; [exact Hm|].
    assert ((if String.eqb (lower s) "" then Legacy.last_status st else lower s)
            = last_status_read (status_word up) (S (Legacy.poll_count st))) as L.
    { cbn [last_status_read]. rewrite (status_word_ok up _ d s Hr Hs Hst), Inv. reflexivity. }
    split; [exact L|].
    rewrite (legacy_wait_body_ok up deadline poll_s st d s Hr Hs Hst). cbv zeta.
    rewrite L. unfold Spec.map_status in Hm.
    change Legacy.completed_words with
      ["ready"; "finished"; "done"; "success"; "succeeded"; "available";
       "completed"; "complete"].
    change Legacy.failed_words with ["failed"; "error"].
    destruct (mem (lower s) _); [discriminate|].
    destruct (mem (lower s) _); [discriminate|]. reflexivity. }
  assert (forall (st : Legacy.poll_state),
             Legacy.last_status st
             = last_status_read (status_word up) (Legacy.poll_count st) ->
             Qle_bool deadline
               (Legacy.now st + Legacy.latency up (S (Legacy.poll_count st))) = true ->
             exists m,
               (1 <= m)%nat
               /\ (forall fuel, (fuel < m)%nat ->
                     loop (Legacy.wait_body up deadline poll_s) fuel st = None)
               /\ (forall fuel, (m <= fuel)%nat ->
                     loop (Legacy.wait_body up deadline poll_s) fuel st
                     = Some (Raise (HTTPException 504
                                      (Legacy.timed_out_detail
                                         (last_status_read (status_word up)
                                            (Legacy.poll_count st + m))))))) as Now.
  { intros st Inv Hd. destruct (Pass st Inv) as (s & _ & _ & Hb). rewrite Hd in Hb.
    exists 1%nat. split; [lia|]. split.
    - intros fuel Hf. replace fuel with 0%nat by lia. reflexivity.
    - intros fuel Hf. destruct fuel as [|fuel]; [lia|].
      rewrite loop_step, Hb, Nat.add_1_r. reflexivity. }
  induction n as [|n IH]; intros st Inv Hn.
  - apply Now; [exact Inv|].
    apply Qle_bool_iff. specialize (Hlat (S (Legacy.poll_count st))).
    change (inject_Z (Z.of_nat 0)) with 0%Q in Hn. lra.
  - destruct (Qle_bool deadline
                (Legacy.now st + Legacy.latency up (S (Legacy.poll_count st)))) eqn:Hd.
    + now apply Now.
    + destruct (Pass st Inv) as (s & _ & _ & Hb). rewrite Hd in Hb.
      destruct (IH {| Legacy.now :=
                        (Legacy.now st + Legacy.latency up (S (Legacy.poll_count st))
                         + inject_Z poll_s)%Q;
                      Legacy.poll_count := S (Legacy.poll_count st);
                      Legacy.last_status :=
                        last_status_read (status_word up) (S (Legacy.poll_count st)) |})
        as (m & Hm & Hbefore & Hafter).
      { reflexivity. }
      { cbn [Legacy.now]. specialize (Hlat (S (Legacy.poll_count st))).
        rewrite Nat2Z.inj_succ, <- Z.add_1_r, inject_Z_plus in Hn.
        change (inject_Z 1) with 1%Q in Hn.
        set (N := inject_Z (Z.of_nat n)) in *. set (P := inject_Z poll_s) in *.
        rewrite Qmult_plus_distr_l in Hn. lra. }
      cbn [Legacy.poll_count] in Hafter.
      exists (S m). split; [lia|]. split.
      * intros fuel Hf. destruct fuel as [|fuel]; [reflexivity|].
        rewrite loop_step, Hb. apply Hbefore. lia.
      * intros fuel Hf. destruct fuel as [|fuel]; [lia|].
        rewrite loop_step, Hb, Hafter by lia.
        now rewrite Nat.add_succ_r.
Qed.

(** The poller of main.py, for comparison: when no status is terminal,
    whatever the words are, [_wait_until_ready] makes a number [n] of status
    requests and then fails with status 504 and a message that carries the
    last status read in these [n] replies. *)
Theorem legacy_wait_times_out (up : Legacy.upstream) (start : Q) (timeout_s poll_s : Z) :
  (forall k, exists d s,
      Legacy.reply up k
      = Ok {| Legacy.status_code := 200; Legacy.json := Ok (VDict d) |}
      /\ dict_get d "status" = Some (VStr s)
      /\ dict_get d "state" = None
      /\ Spec.map_status s = Spec.NonTerminal) ->
  (forall k, 0 <= Legacy.latency up k)%Q ->
  (0 < poll_s)%Z ->
  exists n,
    (1 <= n)%nat
    /\ (forall fuel, (fuel < n)%nat ->
          Legacy._wait_until_ready up start timeout_s poll_s fuel = None)
    /\ (forall fuel, (n <= fuel)%nat ->
          Legacy._wait_until_ready up start timeout_s poll_s fuel
          = Some (Raise (HTTPException 504
                           (Legacy.timed_out_detail
                              (last_status_read (status_word up) n))))).
Proof.
  intros Hup Hlat Hpoll. unfold Legacy._wait_until_ready.
  apply (legacy_loop_times_out up _ poll_s Hup Hlat Hpoll (Z.to_nat timeout_s)
           {| Legacy.now := start; Legacy.poll_count := 0; Legacy.last_status := "unknown" |}).
  - reflexivity.
  - cbn [Legacy.now].
    assert (inject_Z timeout_s <= inject_Z (Z.of_nat (Z.to_nat timeout_s)) * inject_Z poll_s)%Q.
    { rewrite <- inject_Z_mult, <- Zle_Qle. nia. }
    lra.
Qed.

Example legacy_wait_times_out_on_unknown_status :
  Legacy._wait_until_ready
    {| Legacy.reply := fun _ =>
         Ok {| Legacy.status_code := 200;
               Legacy.json := Ok (VDict [("status", VStr "Queued")]) |};
       Legacy.latency := fun _ => 1%Q |}
    0%Q 600 10 100
  = Some (Raise (HTTPException 504 "Timed out waiting for report (last status: queued).")).
Proof. vm_compute. reflexivity. Qed.

(** The message carries the last status read, not the first: the words
    change from reply to reply, and the reply before the deadline has none. *)
Example legacy_wait_reports_the_last_status :
  Legacy._wait_until_ready
    {| Legacy.reply := fun k =>
         Ok {| Legacy.status_code := 200;
               Legacy.json :=
                 Ok (VDict [("status",
                             VStr (match k with
                                   | 1%nat => "queued"
                                   | 2%nat => "Running"
                                   | _ => ""
                                   end))]) |};
       Legacy.latency := fun _ => 1%Q |}
    0%Q 30 10 100
  = Some (Raise (HTTPException 504 "Timed out waiting for report (last status: running).")).
Proof. vm_compute. reflexivity. Qed.

End Timeout.

(** ** Rounding to [float] is monotone *)

Section FloatRounding.

Lemma round_half_even_bounds (q : Q) :
  Qfloor q <= round_half_even q <= Qfloor q + 1.
Proof.
  unfold round_half_even. destruct (_ ?= _)%Q; [destruct (Z.even _)| |]; lia.
Qed.

Lemma round_half_even_int (n : Z) : round_half_even (inject_Z n) = n.
Proof.
  unfold round_half_even. rewrite Qfloor_Z.
  assert (inject_Z n - inject_Z n == 0)%Q as -> by ring. reflexivity.
Qed.

Lemma round_half_even_mono (q q' : Q) :
  (q <= q')%Q -> round_half_even q <= round_half_even q'.
Proof.
  intros H. pose proof (Qfloor_resp_le _ _ H) as F.
  destruct (Z.eq_dec (Qfloor q) (Qfloor q')) as [E | N].
  - unfold round_half_even. rewrite <- E.
    destruct (Qcompare_spec (q - inject_Z (Qfloor q)) (1 # 2)) as [A | A | A];
      destruct (Qcompare_spec (q' - inject_Z (Qfloor q)) (1 # 2)) as [B | B | B];
      try (destruct (Z.even (Qfloor q))); try lia; exfalso; lra.
  - pose proof (round_half_even_bounds q). pose proof (round_half_even_bounds q'). lia.
Qed.

Lemma pow2_pos (s : Z) : 0 <= s -> (0 < inject_Z (2 ^ s))%Q.
Proof.
  intros H. change 0%Q with (inject_Z 0). rewrite <- Zlt_Qlt.
  apply Z.pow_pos_nonneg; lia.
Qed.

Lemma Qfloor_nonneg (q : Q) : (0 <= q)%Q -> 0 <= Qfloor q.
Proof. intros H. apply (Qfloor_resp_le 0 q H). Qed.

Lemma round_53_nonneg (q : Q) : (0 <= q)%Q -> 0 <= round_53 q.
Proof.
  intros H. unfold round_53. set (s := Z.max 0 _).
  assert (0 <= s) as Hs by (unfold s; lia).
  pose proof (pow2_pos s Hs) as P.
  apply Z.mul_nonneg_nonneg; [|apply Z.pow_nonneg; lia].
  pose proof (round_half_even_bounds (q / inject_Z (2 ^ s))) as [B _].
  assert (0 <= q / inject_Z (2 ^ s))%Q as D.
  { apply Qle_shift_div_l; [exact P | lra]. }
  pose proof (Qfloor_nonneg _ D). lia.
Qed.

(** Below the next power of two. *)
Lemma round_53_upper (q : Q) :
  (0 <= q)%Q ->
  round_53 q <= 2 ^ (53 + Z.max 0 (Z.log2 (Qfloor q) - 52)).
Proof.
  intros H. unfold round_53. set (i := Qfloor q). set (s := Z.max 0 _).
  assert (0 <= s) as Hs by (unfold s; lia).
  pose proof (pow2_pos s Hs) as P.
  assert (0 <= i) as Hi by now apply Qfloor_nonneg.
  assert (i + 1 <= 2 ^ (53 + s)) as Hb.
  { destruct (Z.eq_dec i 0) as [-> | Ni].
    - assert (0 < 2 ^ (53 + s)) by (apply Z.pow_pos_nonneg; lia). lia.
    - destruct (Z.log2_spec i) as [_ U]; [lia|].
      assert (2 ^ Z.succ (Z.log2 i) <= 2 ^ (53 + s)).
      { apply Z.pow_le_mono_r; [lia|]. unfold s. lia. }
      lia. }
  assert (q <= inject_Z (2 ^ (53 + s)))%Q as Hq.
  { pose proof (Qlt_floor q) as L. fold i in L.
    apply Qle_trans with (inject_Z (i + 1)); [lra|]. now rewrite <- Zle_Qle. }
  assert (q / inject_Z (2 ^ s) <= inject_Z (2 ^ 53))%Q as D.
  { apply Qle_shift_div_r; [exact P|].
    rewrite <- inject_Z_mult, <- Z.pow_add_r by lia. exact Hq. }
  apply round_half_even_mono in D. rewrite round_half_even_int in D.
  rewrite Z.pow_add_r by lia.
  apply Z.mul_le_mono_nonneg_r; [apply Z.pow_nonneg; lia | exact D].
Qed.

(** At least the power of two it has reached. *)
Lemma round_53_lower (q : Q) :
  (0 <= q)%Q ->
  0 < Z.log2 (Qfloor q) - 52 ->
  2 ^ (52 + (Z.log2 (Qfloor q) - 52)) <= round_53 q.
Proof.
  intros H Hpos. unfold round_53. set (i := Qfloor q) in *.
  replace (Z.max 0 (Z.log2 i - 52)) with (Z.log2 i - 52) by lia.
  set (s := Z.log2 i - 52) in *.
  pose proof (pow2_pos s ltac:(lia)) as P.
  assert (0 < i) as Hi.
  { destruct (Z.le_gt_cases i 0) as [L | L]; [|exact L].
    pose proof (Z.log2_nonpos i L). unfold s in Hpos. lia. }
  destruct (Z.log2_spec i Hi) as [L _].
  assert (inject_Z (2 ^ (52 + s)) <= q)%Q as Hq.
  { pose proof (Qfloor_le q) as F. fold i in F.
    apply Qle_trans with (inject_Z i); [|exact F].
    rewrite <- Zle_Qle. replace (52 + s) with (Z.log2 i) by (unfold s; lia). exact L. }
  assert (inject_Z (2 ^ 52) <= q / inject_Z (2 ^ s))%Q as D.
  { apply Qle_shift_div_l; [exact P|].
    rewrite <- inject_Z_mult, <- Z.pow_add_r by lia. exact Hq. }
  apply round_half_even_mono in D. rewrite round_half_even_int in D.
  rewrite Z.pow_add_r by lia.
  apply Z.mul_le_mono_nonneg_r; [apply Z.pow_nonneg; lia | exact D].
Qed.

Lemma round_53_mono (q q' : Q) :
  (0 <= q)%Q -> (q <= q')%Q -> round_53 q <= round_53 q'.
Proof.
  intros H0 H. assert (0 <= q')%Q as H0' by lra.
  pose proof (Qfloor_resp_le _ _ H) as F.
  pose proof (Qfloor_nonneg _ H0) as I.
  pose proof (Z.log2_le_mono _ _ F) as L.
  destruct (Z.eq_dec (Z.max 0 (Z.log2 (Qfloor q) - 52))
                     (Z.max 0 (Z.log2 (Qfloor q') - 52))) as [E | N].
  - unfold round_53. rewrite <- E. set (s := Z.max 0 _).
    assert (0 <= s) as Hs by (unfold s; lia).
    pose proof (pow2_pos s Hs) as P.
    apply Z.mul_le_mono_nonneg_r; [apply Z.pow_nonneg; lia|].
    apply round_half_even_mono.
    apply Qle_shift_div_l; [exact P|].
    assert (q / inject_Z (2 ^ s) * inject_Z (2 ^ s) == q)%Q as -> by (field; lra).
    exact H.
  - pose proof (round_53_upper q H0) as U.
    assert (0 < Z.log2 (Qfloor q') - 52) as Hpos by lia.
    pose proof (round_53_lower q' H0' Hpos) as Lw.
    assert (2 ^ (53 + Z.max 0 (Z.log2 (Qfloor q) - 52))
            <= 2 ^ (52 + (Z.log2 (Qfloor q') - 52))).
    { apply Z.pow_le_mono_r; lia. }
    lia.
Qed.

Lemma float_ulps_pos : (0 < inject_Z float_ulps)%Q.
Proof. apply (pow2_pos 1074). lia. Qed.

(** Rounding keeps the order: the float of the smaller number is not the
    larger. *)
Lemma float_round_mono (x y : Q) : (x <= y)%Q -> (float_round x <= float_round y)%Q.
Proof.
  intros H. unfold float_round. rewrite !Qred_correct.
  pose proof float_ulps_pos as P. set (U := inject_Z float_ulps) in *.
  assert (forall a b : Z, a <= b -> (inject_Z a / U <= inject_Z b / U)%Q) as Div.
  { intros a b Hab. apply Qmult_le_compat_r; [now rewrite <- Zle_Qle|].
    apply Qlt_le_weak, Qinv_lt_0_compat, P. }
  assert (forall a : Z, 0 <= a -> (0 <= inject_Z a / U)%Q) as Pos.
  { intros a Ha. apply Qle_shift_div_l; [exact P|].
    rewrite Qmult_0_l. change 0%Q with (inject_Z 0). now rewrite <- Zle_Qle. }
  destruct (Qle_bool 0 x) eqn:X; destruct (Qle_bool 0 y) eqn:Y.
  - apply Qle_bool_iff in X. apply Div, round_53_mono.
    + apply Qmult_le_0_compat; lra.
    + apply Qmult_le_compat_r; lra.
  - apply Qle_bool_iff in X.
    assert (~ (0 <= y)%Q) by (rewrite <- Qle_bool_iff; congruence). lra.
  - apply Qle_bool_iff in Y.
    assert (~ (0 <= x)%Q) as Nx by (rewrite <- Qle_bool_iff; congruence).
    assert (0 <= - x * U)%Q as A by (apply Qmult_le_0_compat; lra).
    assert (0 <= y * U)%Q as B by (apply Qmult_le_0_compat; lra).
    pose proof (Pos _ (round_53_nonneg _ A)). pose proof (Pos _ (round_53_nonneg _ B)). lra.
  - assert (~ (0 <= x)%Q) as Nx by (rewrite <- Qle_bool_iff; congruence).
    assert (~ (0 <= y)%Q) as Ny by (rewrite <- Qle_bool_iff; congruence).
    assert (round_53 (- y * U) <= round_53 (- x * U)) as M.
    { apply round_53_mono.
      - apply Qmult_le_0_compat; lra.
      - apply Qmult_le_compat_r; lra. }
    apply Div in M. lra.
Qed.

Lemma float_round_nonneg (x : Q) : (0 <= x)%Q -> (0 <= float_round x)%Q.
Proof.
  intros H. apply float_round_mono in H.
  assert (float_round 0 == 0)%Q as E by (vm_compute; reflexivity).
  now rewrite E in H.
Qed.

Lemma float_add_mono (a a' b b' : Q) :
  (a <= a')%Q -> (b <= b')%Q -> (float_add a b <= float_add a' b')%Q.
Proof. intros Ha Hb. apply float_round_mono. lra. Qed.

End FloatRounding.

(** ** Credential Cache *)

Section Credentials.
Import TokenManager.

Lemma cache_valid_margin (self : t) (current_time : Q) :
  cache_valid self current_time = true ->
  (float_add current_time 60 < expires_at (_token_cache self))%Q.
Proof.
  unfold cache_valid. rewrite andb_true_iff, negb_true_iff. intros [_ H].
  apply Qnot_le_lt. intros Hle. apply Qle_bool_iff in Hle. congruence.
Qed.

(** What [get_token] does once the cache cannot answer and the upstream has
    given a token: the sum of the time and the lifetime goes to the cache. *)
Lemma add_lifetime_sum (current_time : Q) (duration : Z) (expires_in : lifetime)
    (sum : Q) :
  add_lifetime current_time duration expires_in = inl sum ->
  exists life : Q,
    ((exists n, expires_in = IntSeconds n /\ life = float_of_int n)
     \/ expires_in = FloatSeconds life
     \/ (expires_in = Absent /\ life = float_of_int duration))
    /\ sum = float_add current_time life.
Proof.
  unfold add_lifetime. destruct expires_in as [| n | x | name].
  - destruct (int_overflows duration); [discriminate|]. intros [= <-]. eauto 7.
  - destruct (int_overflows n); [discriminate|]. intros [= <-]. eauto 7.
  - intros [= <-]. eauto 7.
  - discriminate.
Qed.

(** C2, as the code has it.  A token that [get_token] returns is the one in
    the cache when the call ends.  Served from the cache, its expiry is above
    the sum of the time of the call and 60 that the code computes.  Freshly
    obtained, its expiry is the sum, as a [float], of the time of the call
    and its lifetime, which is what the upstream reports as [expires_in], or
    the configured cache duration when the upstream reports none; nothing is
    compared with the margin, and when the lifetime is 60 seconds or less the
    token returned is not above the margin. *)
Theorem get_token_expiry (self self' : t) (current_time : Q) (reply : auth_reply)
    (tok : value) :
  get_token self current_time reply = (Ok tok, self') ->
  tok = token (_token_cache self')
  /\ ((cache_valid self current_time = true
       /\ self' = self
       /\ (float_add current_time 60 < expires_at (_token_cache self'))%Q)
      \/ (cache_valid self current_time = false
          /\ exists lifetime : Q,
               ((exists access access_token n,
                    reply = Body access access_token (IntSeconds n)
                    /\ lifetime = float_of_int n)
                \/ (exists access access_token,
                      reply = Body access access_token (FloatSeconds lifetime))
                \/ (exists access access_token,
                      reply = Body access access_token Absent
                      /\ lifetime = float_of_int (cache_duration self)))
               /\ expires_at (_token_cache self') = float_add current_time lifetime
               /\ ((lifetime <= 60)%Q ->
                   ~ (float_add current_time 60 < expires_at (_token_cache self'))%Q))).
Proof.
  unfold get_token. destruct (cache_valid self current_time) eqn:V.
  - intros E. injection E as <- <-. split; [reflexivity|]. left.
    repeat split. now apply cache_valid_margin.
  - destruct (_ || _)%bool; [discriminate|].
    destruct reply as [text | c | text | access access_token life]; try discriminate.
    + destruct (c =? 401); discriminate.
    + destruct (negb _); [discriminate|].
      destruct (add_lifetime _ _ life) as [sum | text] eqn:A; [|discriminate].
      intros E. injection E as <- <-. split; [reflexivity|]. right.
      split; [reflexivity|].
      destruct (add_lifetime_sum _ _ _ _ A) as (l & Hl & ->).
      exists l. cbn [with_cache _token_cache expires_at]. split; [|split; [reflexivity|]].
      * destruct Hl as [(n & -> & ->) | [-> | [-> ->]]]; eauto 8.
      * intros Hle Hlt.
        assert (float_add current_time l <= float_add current_time 60)%Q
          by (apply float_add_mono; lra).
        lra.
Qed.

Lemma get_token_expiry_witness :
  VStr "abc"
  = token (_token_cache
             {| username := "user"; password := "secret"; cache_duration := 1800;
                _token_cache := {| token := VStr "abc"; expires_at := 4600%Q |} |})
  /\ ((cache_valid
         {| username := "user"; password := "secret"; cache_duration := 1800;
            _token_cache := {| token := VNone; expires_at := 0%Q |} |} 1000%Q = true
       /\ {| username := "user"; password := "secret"; cache_duration := 1800;
             _token_cache := {| token := VStr "abc"; expires_at := 4600%Q |} |}
          = {| username := "user"; password := "secret"; cache_duration := 1800;
               _token_cache := {| token := VNone; expires_at := 0%Q |} |}
       /\ (float_add 1000 60 < 4600)%Q)
      \/ (cache_valid
            {| username := "user"; password := "secret"; cache_duration := 1800;
               _token_cache := {| token := VNone; expires_at := 0%Q |} |} 1000%Q = false
          /\ exists lifetime : Q,
               ((exists access access_token n,
                    Body (VStr "abc") VNone (IntSeconds 3600)
                    = Body access access_token (IntSeconds n)
                    /\ lifetime = float_of_int n)
                \/ (exists access access_token,
                      Body (VStr "abc") VNone (IntSeconds 3600)
                      = Body access access_token (FloatSeconds lifetime))
                \/ (exists access access_token,
                      Body (VStr "abc") VNone (IntSeconds 3600)
                      = Body access access_token Absent
                      /\ lifetime = float_of_int 1800))
               /\ 4600%Q = float_add 1000 lifetime
               /\ ((lifetime <= 60)%Q -> ~ (float_add 1000 60 < 4600)%Q))).
Proof.
  apply (get_token_expiry
           {| username := "user"; password := "secret"; cache_duration := 1800;
              _token_cache := {| token := VNone; expires_at := 0%Q |} |}
           {| username := "user"; password := "secret"; cache_duration := 1800;
              _token_cache := {| token := VStr "abc"; expires_at := 4600%Q |} |}
           1000%Q (Body (VStr "abc") VNone (IntSeconds 3600)) (VStr "abc")).
  vm_compute. reflexivity.
Defined.

(** A second call, a minute later, is answered from the cache. *)
Example get_token_from_cache :
  get_token
    {| username := "user"; password := "secret"; cache_duration := 1800;
       _token_cache := {| token := VStr "abc"; expires_at := 4600%Q |} |}
    1060%Q (NoAnswer "")
  = (Ok (VStr "abc"),
     {| username := "user"; password := "secret"; cache_duration := 1800;
        _token_cache := {| token := VStr "abc"; expires_at := 4600%Q |} |}).
Proof. vm_compute. reflexivity. Qed.

(** C2 fails as stated: the upstream gives a token that lives 30 seconds,
    and [get_token] returns it, 30 seconds from expiry. *)
Lemma get_token_returns_short_lived_token :
  get_token
    {| username := "user"; password := "secret"; cache_duration := 1800;
       _token_cache := {| token := VNone; expires_at := 0%Q |} |}
    1000%Q (Body (VStr "abc") VNone (IntSeconds 30))
  = (Ok (VStr "abc"),
     {| username := "user"; password := "secret"; cache_duration := 1800;
        _token_cache := {| token := VStr "abc"; expires_at := 1030%Q |} |})
  /\ ~ (1000 + 60 < 1030)%Q
  /\ ~ (float_add 1000 60 < 1030)%Q.
Proof.
  split; [vm_compute; reflexivity|]. split; intros H; vm_compute in H; discriminate.
Qed.

(** A lifetime above 60 seconds does not make the token pass the margin: at
    the time 1700000000.0 the float next to 60.0000001 is lost in the sum,
    and the expiry stored is the sum of the time and 60. *)
Example get_token_rounds_the_expiry :
  (60 < float_round (600000001 # 10000000))%Q
  /\ get_token
       {| username := "user"; password := "secret"; cache_duration := 1800;
          _token_cache := {| token := VNone; expires_at := 0%Q |} |}
       1700000000%Q
       (Body (VStr "abc") VNone (FloatSeconds (float_round (600000001 # 10000000))))
     = (Ok (VStr "abc"),
        {| username := "user"; password := "secret"; cache_duration := 1800;
           _token_cache := {| token := VStr "abc"; expires_at := 1700000060%Q |} |})
  /\ float_add 1700000000 60 = 1700000060%Q.
Proof. split; [reflexivity|]. split; vm_compute; reflexivity. Qed.

End Credentials.

(** * Further properties of the code *)

(** ** Row Filter: selection, empty result, completeness of the detection *)

Section RowFilterMore.
Import DataProcessor.

Lemma filter_all {A : Type} (l : list A) : filter (fun _ => true) l = l.
Proof. induction l as [|a l IH]; simpl; [reflexivity | now rewrite IH]. Qed.

(** Whatever the loop returns, it is the rows it was given less some. *)
Lemma filter_rows_selects (ck mk target : string) (rows out : list record) :
  filter_rows ck mk target rows = Ok out ->
  out = filter
          (fun row =>
             (client_matches ck target row
              && match metric_keeps (get_default row mk (VInt 0)) with
                 | Ok b => b
                 | Raise _ => false
                 end)%bool)
          rows.
Proof.
  revert out. induction rows as [|row rows IH]; intros out; simpl.
  - now intros [= <-].
  - destruct (client_matches ck target row); simpl.
    + destruct (metric_keeps _) as [b|e]; simpl; [|discriminate].
      destruct (filter_rows ck mk target rows) as [rest|e]; simpl; [|discriminate].
      intros [= <-]. rewrite (IH rest eq_refl). destruct b; reflexivity.
    + apply IH.
Qed.

Lemma filter_result_selects (rows out : list record) (target_client_id : string) :
  filter_by_client_and_metric rows target_client_id = Ok out ->
  exists keep : record -> bool, out = filter keep rows.
Proof.
  unfold filter_by_client_and_metric. destruct rows as [|r rows'].
  - intros [= <-]. now exists (fun _ => true).
  - destruct (detect_columns (r :: rows')) as [ck mk].
    destruct (negb (found ck) || negb (found mk))%bool.
    + intros [= <-]. exists (fun _ => true). now rewrite filter_all.
    + destruct ck as [ck|], mk as [mk|];
        try (intros [= <-]; exists (fun _ => true); now rewrite filter_all).
      intros H. eexists. exact (filter_rows_selects _ _ _ _ _ H).
Qed.

(** The rows [filter_by_client_and_metric] returns are rows it was given, in
    the order it was given them: the result is the input with some rows
    (possibly none) left out. *)
Theorem filter_returns_a_selection (rows out : list record) (target_client_id : string) :
  filter_by_client_and_metric rows target_client_id = Ok out ->
  exists keep : record -> bool, out = filter keep rows.
Proof. apply filter_result_selects. Qed.

Lemma filter_returns_a_selection_witness :
  exists keep : record -> bool,
    [[("Client ID", VStr "123"); ("Metric value", VStr "100")]]
    = filter keep
        [[("Client ID", VStr "123"); ("Metric value", VStr "100")];
         [("Client ID", VStr "123"); ("Metric value", VStr "0")];
         [("Client ID", VStr "456"); ("Metric value", VStr "200")]].
Proof.
  apply (filter_returns_a_selection _ _ "123"). vm_compute. reflexivity.
Defined.

Lemma filter_rows_no_match (ck mk target : string) (rows : list record) :
  (forall row, In row rows -> client_matches ck target row = false) ->
  filter_rows ck mk target rows = Ok [].
Proof.
  induction rows as [|row rows IH]; intros H; simpl; [reflexivity|].
  rewrite (H row (or_introl eq_refl)). apply IH. intros r Hr. apply H. now right.
Qed.

(** When both columns are detected and no record has the target in its
    client column, the result is empty, whatever the metric values are (they
    are not even converted). *)
Theorem filter_is_empty_without_client_match (rows : list record)
    (target_client_id client_key metric_key : string) :
  detect_columns rows = (Some client_key, Some metric_key) ->
  (forall row, In row rows ->
     strip (py_str (get_default row client_key (VStr ""))) <> strip target_client_id) ->
  filter_by_client_and_metric rows target_client_id = Ok [].
Proof.
  intros D H. unfold filter_by_client_and_metric.
  destruct rows as [|r rows']; [reflexivity|]. rewrite D.
  destruct (detect_client_sound (r :: rows') client_key) as [Hc _]; [now rewrite D|].
  destruct (detect_metric_sound (r :: rows') metric_key) as [Hm _]; [now rewrite D|].
  rewrite (client_key_found _ Hc), (metric_key_found _ Hm). cbn [negb orb].
  apply filter_rows_no_match. intros row Hr. unfold client_matches.
  apply String.eqb_neq. now apply H.
Qed.

Lemma filter_is_empty_without_client_match_witness :
  filter_by_client_and_metric
    [[("Client ID", VStr "123"); ("Metric value", VInt (2 ^ 1024))];
     [("Client ID", VStr "456"); ("Metric value", VStr "200")]] "789"
  = Ok [].
Proof.
  apply (filter_is_empty_without_client_match _ "789" "Client ID" "Metric value").
  - reflexivity.
  - intros row Hr. simpl in Hr.
    destruct Hr as [<- | [<- | []]]; vm_compute; discriminate.
Defined.

(** A column, once found, stays found; a qualifying name makes it found. *)
Lemma scan_keys_keeps (st : detected) (ks : list string) :
  (found (fst st) = true -> found (fst (scan_keys st ks)) = true)
  /\ (found (snd st) = true -> found (snd (scan_keys st ks)) = true).
Proof.
  revert st. unfold scan_keys. induction ks as [|k ks IH]; intros st; simpl; [tauto|].
  destruct (IH (if is_client_key k then Some k else fst st,
                if is_metric_key k then Some k else snd st)) as [H1 H2].
  cbn [fst snd] in *. split; intros H; [apply H1 | apply H2].
  - destruct (is_client_key k) eqn:E; [now apply client_key_found | exact H].
  - destruct (is_metric_key k) eqn:E; [now apply metric_key_found | exact H].
Qed.

Lemma scan_keys_finds (st : detected) (ks : list string) (key : string) :
  In key ks ->
  (is_client_key key = true -> found (fst (scan_keys st ks)) = true)
  /\ (is_metric_key key = true -> found (snd (scan_keys st ks)) = true).
Proof.
  revert st. induction ks as [|k ks IH]; intros st Hin; [destruct Hin|].
  destruct Hin as [<- | Hin].
  - change (scan_keys st (k :: ks))
      with (scan_keys (if is_client_key k then Some k else fst st,
                       if is_metric_key k then Some k else snd st) ks).
    split; intros E; rewrite E; apply scan_keys_keeps; cbn [fst snd].
    + now apply client_key_found.
    + now apply metric_key_found.
  - exact (IH _ Hin).
Qed.

Lemma scan_samples_keeps (samples : list record) (st : detected) :
  (found (fst st) = true -> found (fst (scan_samples st samples)) = true)
  /\ (found (snd st) = true -> found (snd (scan_samples st samples)) = true).
Proof.
  revert st. induction samples as [|s samples IH]; intros st; simpl; [tauto|].
  destruct (scan_keys_keeps st (keys s)) as [K1 K2].
  destruct (found (fst (scan_keys st (keys s))) && found (snd (scan_keys st (keys s))))%bool.
  - tauto.
  - destruct (IH (scan_keys st (keys s))) as [H1 H2]. tauto.
Qed.

Lemma scan_samples_finds (samples : list record) (st : detected) (row : record)
    (key : string) :
  In row samples -> In key (keys row) ->
  (is_client_key key = true -> found (fst (scan_samples st samples)) = true)
  /\ (is_metric_key key = true -> found (snd (scan_samples st samples)) = true).
Proof.
  revert st. induction samples as [|s samples IH]; intros st Hin Hk; [destruct Hin|].
  simpl. destruct Hin as [<- | Hin].
  - destruct (scan_keys_finds st (keys s) key Hk) as [F1 F2].
    destruct (found (fst (scan_keys st (keys s))) && found (snd (scan_keys st (keys s))))%bool
      eqn:B.
    + apply andb_true_iff in B. tauto.
    + destruct (scan_samples_keeps samples (scan_keys st (keys s))) as [H1 H2]. tauto.
  - destruct (found (fst (scan_keys st (keys s))) && found (snd (scan_keys st (keys s))))%bool
      eqn:B.
    + apply andb_true_iff in B. tauto.
    + exact (IH _ Hin Hk).
Qed.

(** The detection misses nothing: when a field name of the first five
    records qualifies as the client column and one (of the same record or of
    another) qualifies as the metric column, both columns are detected, each
    with a name that qualifies. *)
Theorem detection_is_complete (rows : list record) :
  (exists row key,
      In row (firstn 5 rows) /\ In key (keys row) /\ is_client_key key = true) ->
  (exists row key,
      In row (firstn 5 rows) /\ In key (keys row) /\ is_metric_key key = true) ->
  exists client_key metric_key,
    detect_columns rows = (Some client_key, Some metric_key)
    /\ is_client_key client_key = true
    /\ is_metric_key metric_key = true.
Proof.
  intros (r1 & k1 & R1 & K1 & C) (r2 & k2 & R2 & K2 & M).
  pose proof (proj1 (scan_samples_finds (firstn 5 rows) (None, None) r1 k1 R1 K1) C) as F1.
  pose proof (proj2 (scan_samples_finds (firstn 5 rows) (None, None) r2 k2 R2 K2) M) as F2.
  fold (detect_columns rows) in F1, F2.
  destruct (detect_columns rows) as [[ck|] [mk|]] eqn:D; try discriminate.
  exists ck, mk. split; [reflexivity|]. split.
  - apply (detect_client_sound rows ck). now rewrite D.
  - apply (detect_metric_sound rows mk). now rewrite D.
Qed.

Lemma detection_is_complete_witness :
  exists client_key metric_key,
    detect_columns
      [[("Customer", VStr "a"); ("client_id", VInt 7)];
       [("Total metric value", VInt 3); ("ClientId", VInt 7)]]
    = (Some client_key, Some metric_key)
    /\ is_client_key client_key = true
    /\ is_metric_key metric_key = true.
Proof.
  apply detection_is_complete.
  - exists [("Customer", VStr "a"); ("client_id", VInt 7)], "client_id".
    repeat split. + now left. + right. now left.
  - exists [("Total metric value", VInt 3); ("ClientId", VInt 7)], "Total metric value".
    repeat split. + right. now left. + now left.
Defined.

(** Within a record, and from one record to the next until both columns are
    known, a later qualifying name replaces an earlier one. *)
Example detection_takes_the_last_name :
  detect_columns
    [[("Customer", VStr "a"); ("client_id", VInt 7)];
     [("Total metric value", VInt 3); ("ClientId", VInt 7)];
     [("client identifier", VInt 7)]]
  = (Some "ClientId", Some "Total metric value").
Proof. reflexivity. Qed.

End RowFilterMore.

(** ** Row Normalizer: lists, distinct headers, positional names *)

Section NormalizerMore.

Lemma as_dicts_of_dicts (ds : list record) :
  DataProcessor.as_dicts (map VDict ds) = Some ds.
Proof. induction ds as [|d ds IH]; simpl; [reflexivity | now rewrite IH]. Qed.

Lemma as_dicts_not_a_dict (l : list value) (v : value) :
  In v l -> (forall d, v <> VDict d) -> DataProcessor.as_dicts l = None.
Proof.
  induction l as [|x l IH]; intros Hin Hv; [destruct Hin|].
  simpl. destruct Hin as [-> | Hin].
  - destruct v; try reflexivity. now elim (Hv d).
  - destruct x; try reflexivity. now rewrite (IH Hin Hv).
Qed.

(** A list of mappings is returned as it is, by both normalizers, so that
    rows already normalized stay as they are; a list with one element that is
    not a mapping gives no row at all, the mappings in it included. *)
Theorem normalize_rows_of_a_list :
  (forall ds : list record,
      DataProcessor.normalize_rows (VList (map VDict ds)) = Some ds
      /\ Legacy._normalize_rows (VList (map VDict ds)) = ds)
  /\ (forall (l : list value) (v : value),
        In v l -> (forall d, v <> VDict d) ->
        DataProcessor.normalize_rows (VList l) = Some []
        /\ Legacy._normalize_rows (VList l) = []).
Proof.
  split.
  - intros ds. simpl. now rewrite as_dicts_of_dicts.
  - intros l v Hin Hv. simpl. now rewrite (as_dicts_not_a_dict l v Hin Hv).
Qed.

Lemma dict_set_fresh (d : record) (k : string) (v : value) :
  ~ In k (keys d) -> dict_set d k v = (d ++ [(k, v)])%list.
Proof.
  induction d as [|[k' v'] d IH]; simpl; intros H; [reflexivity|].
  destruct (String.eqb k' k) eqn:E.
  - apply String.eqb_eq in E. elim H. now left.
  - rewrite IH; [reflexivity | tauto].
Qed.

Lemma fold_dict_set_distinct (pairs : list (string * value)) (acc : record) :
  NoDup (keys acc ++ map fst pairs) ->
  fold_left (fun d kv => dict_set d (fst kv) (snd kv)) pairs acc = (acc ++ pairs)%list.
Proof.
  revert acc. induction pairs as [|[k v] pairs IH]; intros acc H; simpl.
  - now rewrite app_nil_r.
  - rewrite dict_set_fresh.
    + rewrite IH.
      * now rewrite <- app_assoc.
      * unfold keys in *. rewrite map_app, <- app_assoc. exact H.
    + intros Hin. apply NoDup_remove_2 in H. apply H. apply in_or_app. now left.
Qed.

(** [dict(pairs)] of pairs with distinct keys is the pairs, in their order. *)
Lemma dict_of_distinct (pairs : list (string * value)) :
  NoDup (map fst pairs) -> dict_of pairs = pairs.
Proof. intros H. unfold dict_of. now rewrite fold_dict_set_distinct. Qed.

Lemma combine_keys_distinct (hs : list string) (row : list value) :
  NoDup hs -> NoDup (map fst (combine hs row)).
Proof.
  revert row. induction hs as [|h hs IH]; intros row H; [constructor|].
  destruct row as [|x row]; [constructor|]. simpl. inversion H as [|? ? Hh Hhs]; subst.
  constructor; [|now apply IH].
  intros Hin. apply in_map_iff in Hin. destruct Hin as ([h' x'] & E & Hin).
  simpl in E. subst. apply Hh. eapply in_combine_l. exact Hin.
Qed.

Lemma dict_get_combine (hs : list string) (row : list value) (i : nat) (h : string) :
  NoDup hs -> nth_error hs i = Some h ->
  dict_get (combine hs row) h = nth_error row i.
Proof.
  revert row i. induction hs as [|h' hs IH]; intros row i H Hi.
  - destruct i; discriminate.
  - inversion H as [|? ? Hh Hhs]; subst. destruct i as [|i]; simpl in Hi.
    + injection Hi as ->. destruct row as [|x row]; simpl; [reflexivity|].
      now rewrite String.eqb_refl.
    + destruct row as [|x row]; simpl.
      * now destruct i.
      * destruct (String.eqb h' h) eqn:E.
        -- apply String.eqb_eq in E. subst. elim Hh. eapply nth_error_In. exact Hi.
        -- now apply IH.
Qed.

Lemma filter_same_length_all (hs : list string) (rows : list (list value)) :
  (forall row, In row rows -> List.length row = List.length hs) ->
  filter (fun row => Nat.eqb (List.length row) (List.length hs)) rows = rows.
Proof.
  induction rows as [|row rows IH]; intros H; simpl; [reflexivity|].
  rewrite (H row (or_introl eq_refl)), Nat.eqb_refl, IH; [reflexivity|].
  intros r Hr. apply H. now right.
Qed.

(** A table with distinct header names whose rows all have the length of the
    headers: both normalizers give, for each row, the header names in their
    order paired with the cells of the row, and looking a header up in a
    record gives back the cell at the position of the header. *)
Theorem normalize_rows_of_a_regular_table (d : record) (hs : list string)
    (rows : list (list value)) :
  dict_get d "headers" = Some (VList (map VStr hs)) ->
  dict_get d "rows" = Some (VList (map VList rows)) ->
  DataProcessor.data_rows d = None ->
  NoDup hs ->
  (forall row, In row rows -> List.length row = List.length hs) ->
  DataProcessor.normalize_rows (VDict d) = Some (map (combine hs) rows)
  /\ Legacy._normalize_rows (VDict d) = map (combine hs) rows
  /\ (forall row i h,
        nth_error hs i = Some h -> dict_get (combine hs row) h = nth_error row i).
Proof.
  intros Hh Hr Hd Hn Hl.
  assert (map (Spec.zip_row hs) rows = map (combine hs) rows) as E.
  { apply map_ext. intros row. unfold Spec.zip_row. apply dict_of_distinct.
    now apply combine_keys_distinct. }
  split; [|split].
  - unfold DataProcessor.normalize_rows, DataProcessor.flatten_dict.
    rewrite Hd, Hh, Hr, as_names_names. simpl. f_equal.
    now rewrite zip_rows_same_length, filter_same_length_all.
  - unfold Legacy._normalize_rows, Legacy.list_at. rewrite Hd, Hh, Hr.
    now rewrite map_py_str_names, table_rows_zip.
  - intros row i h. now apply dict_get_combine.
Qed.

Lemma normalize_rows_of_a_regular_table_witness :
  DataProcessor.normalize_rows
    (VDict [("headers", VList (map VStr ["a"; "b"]));
            ("rows", VList (map VList [[VInt 1; VInt 2]; [VInt 3; VInt 4]]))])
  = Some (map (combine ["a"; "b"]) [[VInt 1; VInt 2]; [VInt 3; VInt 4]])
  /\ Legacy._normalize_rows
       (VDict [("headers", VList (map VStr ["a"; "b"]));
               ("rows", VList (map VList [[VInt 1; VInt 2]; [VInt 3; VInt 4]]))])
     = map (combine ["a"; "b"]) [[VInt 1; VInt 2]; [VInt 3; VInt 4]]
  /\ (forall row i h,
        nth_error ["a"; "b"] i = Some h
        -> dict_get (combine ["a"; "b"] row) h = nth_error row i).
Proof.
  apply normalize_rows_of_a_regular_table; try reflexivity.
  - repeat constructor; simpl; intuition discriminate.
  - intros row [<- | [<- | []]]; reflexivity.
Defined.

(** With a header name that occurs twice, the record has the name once, at
    its first place, with the cell of its last occurrence. *)
Example normalize_rows_repeated_header :
  DataProcessor.normalize_rows
    (VDict [("headers", VList [VStr "a"; VStr "b"; VStr "a"]);
            ("rows", VList [VList [VInt 1; VInt 2; VInt 3]])])
  = Some [[("a", VInt 3); ("b", VInt 2)]].
Proof. reflexivity. Qed.

End NormalizerMore.

Section PositionalNames.
Import DataProcessor.

Lemma str_of_Z_inj (a b : Z) : str_of_Z a = str_of_Z b -> a = b.
Proof.
  unfold str_of_Z. intros E. apply DecimalZ.to_int_inj.
  assert (forall z, NilZero.int_of_string (NilZero.string_of_int (Z.to_int z))
                    = Some (Z.to_int z)) as R.
  { intros z. apply NilZero.isi; destruct z; simpl; try discriminate;
      intros [= H]; now apply DecimalPos.Unsigned.to_uint_nonnil in H. }
  pose proof (R a) as Ra. rewrite E, R in Ra. now injection Ra.
Qed.

Lemma positional_keys_from (row : list value) (i : nat) (key : string) :
  In key (map fst (positional i row)) ->
  exists j, (i <= j)%nat /\ key = "col_" ++ str_of_Z (Z.of_nat j).
Proof.
  revert i. induction row as [|x row IH]; intros i; simpl; [tauto|].
  intros [<- | H]; [exists i; split; [lia | reflexivity]|].
  destruct (IH _ H) as (j & Hj & ->). exists j. split; [lia | reflexivity].
Qed.

Lemma positional_keys_distinct (row : list value) (i : nat) :
  NoDup (map fst (positional i row)).
Proof.
  revert i. induction row as [|x row IH]; intros i; simpl; constructor; [|apply IH].
  intros H. destruct (positional_keys_from _ _ _ H) as (j & Hj & E).
  injection E as E. apply str_of_Z_inj in E. lia.
Qed.

Lemma dict_get_positional (row : list value) (i n : nat) :
  dict_get (positional i row) ("col_" ++ str_of_Z (Z.of_nat (i + n))) = nth_error row n.
Proof.
  revert i n. induction row as [|x row IH]; intros i n; simpl.
  - now destruct n.
  - destruct n as [|n].
    + rewrite Nat.add_0_r. now rewrite String.eqb_refl.
    + destruct (String.eqb _ _) eqn:E.
      * apply String.eqb_eq in E. apply str_of_Z_inj in E. lia.
      * cbn [nth_error]. rewrite <- (IH (S i) n).
        replace (S i + n)%nat with (i + S n)%nat by lia. reflexivity.
Qed.

(** A mapping with one key whose value is a list of lists (and not a table
    with headers): [normalize_rows] turns each inner list into a record with
    the names col_0, col_1, ... in order, one field for each cell, and the
    cell at position [n] is found again under col_n. *)
Theorem normalize_rows_positional (k : string) (rows : list (list value)) :
  normalize_rows (VDict [(k, VList (map VList rows))]) = Some (map (positional 0) rows)
  /\ (forall row, In row rows -> List.length (positional 0 row) = List.length row)
  /\ (forall row n,
        dict_get (positional 0 row) ("col_" ++ str_of_Z (Z.of_nat n)) = nth_error row n).
Proof.
  split; [|split].
  - assert (flatten_items [(k, VList (map VList rows))] = map (positional 0) rows) as F.
    { simpl. destruct rows as [|row rows]; [reflexivity|].
      simpl as_dicts. cbv iota.
      assert (as_lists (map VList (row :: rows)) = Some (row :: rows)) as ->.
      { generalize (row :: rows). intros l.
        induction l as [|r l IH]; simpl; [reflexivity | now rewrite IH]. }
      rewrite app_nil_r. apply map_ext. intros r.
      apply dict_of_distinct, positional_keys_distinct. }
    unfold normalize_rows, data_rows, flatten_dict. simpl dict_get.
    destruct rows as [|row rows].
    + simpl in *. destruct (String.eqb k "data"); simpl; [reflexivity|].
      destruct (String.eqb k "headers"), (String.eqb k "rows"); reflexivity.
    + destruct (String.eqb k "data") eqn:Ed; simpl as_dicts; cbv iota;
        destruct (String.eqb k "headers") eqn:Eh; destruct (String.eqb k "rows") eqn:Er;
        try (now rewrite F);
        apply String.eqb_eq in Eh; apply String.eqb_eq in Er; congruence.
  - intros row _. generalize 0%nat. induction row as [|x row IH]; intros i; simpl;
      [reflexivity | now rewrite IH].
  - intros row n. apply (dict_get_positional row 0 n).
Qed.

Example normalize_rows_positional_example :
  normalize_rows (VDict [("items", VList [VList [VStr "x"; VInt 2]; VList [VNone]])])
  = Some [[("col_0", VStr "x"); ("col_1", VInt 2)]; [("col_0", VNone)]].
Proof. reflexivity. Qed.

End PositionalNames.

(** ** Record Cleaner and Format Encoder after the filter *)

Section AfterTheFilter.
Import DataProcessor.

Lemma dict_get_filter (p : value -> bool) (row : record) (key : string) :
  NoDup (keys row) ->
  dict_get (filter (fun kv => p (snd kv)) row) key
  = match dict_get row key with
    | Some v => if p v then Some v else None
    | None => None
    end.
Proof.
  induction row as [|[k v] row IH]; intros H; simpl; [reflexivity|].
  inversion H as [|? ? Hk Hrow]; subst.
  destruct (String.eqb k key) eqn:E.
  - apply String.eqb_eq in E. subst. destruct (p v); simpl.
    + now rewrite String.eqb_refl.
    + rewrite (IH Hrow), (dict_get_missing row key Hk). reflexivity.
  - destruct (p v); simpl; [rewrite E|]; now apply IH.
Qed.

Lemma filter_keys_distinct (p : string * value -> bool) (row : record) :
  NoDup (keys row) -> NoDup (keys (filter p row)).
Proof.
  induction row as [|[k v] row IH]; intros H; simpl; [constructor|].
  inversion H as [|? ? Hk Hrow]; subst. destruct (p (k, v)); simpl; [|now apply IH].
  constructor; [|now apply IH].
  intros Hin. apply Hk. unfold keys in *. apply in_map_iff in Hin.
  destruct Hin as (kv & E & Hin). apply filter_In in Hin. apply in_map_iff. exists kv. tauto.
Qed.

(** The JSON path cleans each row with [remove_zero_numeric_fields], then
    [strip_nulls].  Looking a key up in the cleaned row gives the value the
    row has under it when that value is neither a numeric zero nor null nor
    the empty string, and nothing otherwise; the cleaned row is again a
    dictionary (no key twice). *)
Theorem cleaned_row_lookup (row : record) (key : string) :
  NoDup (keys row) ->
  NoDup (keys (strip_nulls (remove_zero_numeric_fields row)))
  /\ dict_get (strip_nulls (remove_zero_numeric_fields row)) key
     = match dict_get row key with
       | Some v => if (is_numeric_zero v || negb (not_null v))%bool then None else Some v
       | None => None
       end.
Proof.
  intros H. unfold strip_nulls, remove_zero_numeric_fields. split.
  - now do 2 apply filter_keys_distinct.
  - rewrite dict_get_filter by now apply filter_keys_distinct.
    rewrite (dict_get_filter (fun v => negb (is_numeric_zero v))) by exact H.
    destruct (dict_get row key) as [v|]; [|reflexivity].
    destruct (is_numeric_zero v); simpl; [reflexivity|]. now destruct (not_null v).
Qed.

Lemma cleaned_row_lookup_witness :
  NoDup (keys (strip_nulls (remove_zero_numeric_fields
                              [("name", VStr "cdn"); ("hits", VInt 0); ("note", VNone)])))
  /\ dict_get (strip_nulls (remove_zero_numeric_fields
                              [("name", VStr "cdn"); ("hits", VInt 0); ("note", VNone)]))
              "hits"
     = match dict_get [("name", VStr "cdn"); ("hits", VInt 0); ("note", VNone)] "hits" with
       | Some v => if (is_numeric_zero v || negb (not_null v))%bool then None else Some v
       | None => None
       end.
Proof.
  apply cleaned_row_lookup.
  repeat constructor; simpl; intuition discriminate.
Defined.

Lemma csv_row_not_empty (fields : list string) : csv_row fields <> "".
Proof.
  unfold csv_row.
  assert (forall s, s ++ crlf <> "") as A by (intros [|c s]; discriminate).
  destruct fields as [|[|c f] [|g fields]]; try apply A. discriminate.
Qed.

Lemma fieldnames_of_some_rows (out rows : list record) :
  incl out rows -> incl (fieldnames out) (fieldnames rows).
Proof.
  intros H key. unfold fieldnames. rewrite !sorted_in.
  destruct (all_keys_spec out) as [_ Io]. destruct (all_keys_spec rows) as [_ Ir].
  rewrite Io, Ir. intros (row & Hr & Hk). exists row. split; [now apply H | exact Hk].
Qed.

(** The CSV path encodes the rows the filter returned.  Its columns are
    columns of the rows the filter was given (a column that only the dropped
    rows have is not written), and the text is empty, without even a header,
    exactly when the filter returned no row. *)
Theorem csv_of_the_filtered_rows (rows out : list record) (target_client_id : string) :
  filter_by_client_and_metric rows target_client_id = Ok out ->
  incl (fieldnames out) (fieldnames rows)
  /\ (to_csv out = "" <-> out = []).
Proof.
  intros H. destruct (filter_result_selects rows out target_client_id H) as [keep ->].
  split.
  - apply fieldnames_of_some_rows, incl_filter.
  - split; [|now intros ->].
    destruct (filter keep rows) as [|r l]; [reflexivity|]. unfold to_csv. intros E.
    destruct (csv_row (fieldnames (r :: l))) eqn:C; [|discriminate].
    now apply csv_row_not_empty in C.
Qed.

Lemma csv_of_the_filtered_rows_witness :
  incl (fieldnames [[("Client ID", VStr "123"); ("Metric value", VStr "100")]])
       (fieldnames [[("Client ID", VStr "123"); ("Metric value", VStr "100")];
                    [("Client ID", VStr "456"); ("Metric value", VStr "200");
                     ("Region", VStr "eu")]])
  /\ (to_csv [[("Client ID", VStr "123"); ("Metric value", VStr "100")]] = ""
      <-> [[("Client ID", VStr "123"); ("Metric value", VStr "100")]] = []).
Proof.
  apply (csv_of_the_filtered_rows _ _ "123"). vm_compute. reflexivity.
Defined.

(** The column "Region" is in the rows given and not in the text. *)
Example csv_drops_a_column_of_dropped_rows :
  (r <- filter_by_client_and_metric
          [[("Client ID", VStr "123"); ("Metric value", VStr "100")];
           [("Client ID", VStr "456"); ("Metric value", VStr "200"); ("Region", VStr "eu")]]
          "123" ;;
   Ok (to_csv r))
  = Ok ("Client ID,Metric value" ++ crlf ++ "123,100" ++ crlf).
Proof. vm_compute. reflexivity. Qed.

End AfterTheFilter.

(** ** Job Poller of gcore_client.py: what it returns, and when it gives up *)

Section WaitForCompletion.
Import Poll.

(** How one pass of the loop can end. *)
Lemma gcore_wait_body_ends (up : GcoreClient.upstream) (start_time : Q)
    (timeout poll_interval : Z) (st : GcoreClient.poll_state) :
  match GcoreClient.wait_body up start_time timeout poll_interval st with
  | Return s => s = "completed"
  | Fail e =>
      GcoreClient.check_status up (S (GcoreClient.poll_count st)) = Raise e
      \/ e = AttributeError
      \/ e = HTTPException 502 "Report generation failed"
      \/ e = HTTPException 504 (GcoreClient.timed_out_detail timeout)
  | Continue st' => GcoreClient.poll_count st' = S (GcoreClient.poll_count st)
  end.
Proof.
  unfold GcoreClient.wait_body.
  destruct (GcoreClient.check_status up _) as [status_data|e]; cbn [bind]; [|now left].
  destruct (GcoreClient.status_of status_data) as [v|e] eqn:Ev; cbn [bind].
  - destruct (lower_of v) as [s|e] eqn:El.
    + destruct (String.eqb s "completed"); [reflexivity|].
      destruct (String.eqb s "failed"); [tauto|].
      destruct (mem s _); [|reflexivity].
      destruct (negb _); [tauto | reflexivity].
    + right. left. destruct v; try discriminate; now injection El as <-.
  - right. left. destruct status_data; try discriminate; now injection Ev as <-.
Qed.

Lemma gcore_loop_ends (up : GcoreClient.upstream) (start_time : Q)
    (timeout poll_interval : Z) (fuel : nat) :
  forall (st : GcoreClient.poll_state) (r : result string),
    loop (GcoreClient.wait_body up start_time timeout poll_interval) fuel st = Some r ->
    r = Ok "completed"
    \/ (exists k e, GcoreClient.check_status up k = Raise e /\ r = Raise e)
    \/ r = Raise AttributeError
    \/ r = Raise (HTTPException 502 "Report generation failed")
    \/ r = Raise (HTTPException 504 (GcoreClient.timed_out_detail timeout)).
Proof.
  induction fuel as [|fuel IH]; intros st r; [discriminate|]. rewrite loop_step.
  pose proof (gcore_wait_body_ends up start_time timeout poll_interval st) as B.
  destruct (GcoreClient.wait_body up start_time timeout poll_interval st) as [s|e|st'].
  - intros [= <-]. subst. now left.
  - intros [= <-]. destruct B as [B | [-> | [-> | ->]]]; eauto 6.
  - apply IH.
Qed.

(** [wait_for_completion] has five ways to end, and no other: it returns
    "completed" (never another word, whatever the upstream sends); it raises
    what a call of [check_status] raised; it raises [AttributeError] (the
    status data is not a mapping, or the status is not text); it fails with
    status 502, "Report generation failed"; it fails with status 504. *)
Theorem wait_for_completion_ends (up : GcoreClient.upstream) (start_time : Q)
    (timeout poll_interval : Z) (fuel : nat) (r : result string) :
  GcoreClient.wait_for_completion up start_time timeout poll_interval fuel = Some r ->
  r = Ok "completed"
  \/ (exists k e, GcoreClient.check_status up k = Raise e /\ r = Raise e)
  \/ r = Raise AttributeError
  \/ r = Raise (HTTPException 502 "Report generation failed")
  \/ r = Raise (HTTPException 504 (GcoreClient.timed_out_detail timeout)).
Proof. apply gcore_loop_ends. Qed.

End WaitForCompletion.

Section WaitForCompletionTimeout.
Import Poll.

(** The state of the poller of gcore_client.py after [n] passes through its
    loop that each ended in a sleep. *)
Fixpoint slept (up : GcoreClient.upstream) (start_time : Q) (poll_interval : Z) (n : nat)
  : GcoreClient.poll_state :=
  match n with
  | O => {| GcoreClient.now := start_time; GcoreClient.poll_count := 0 |}
  | S n' =>
      {| GcoreClient.now :=
           (GcoreClient.now (slept up start_time poll_interval n')
            + GcoreClient.latency up (S n') + inject_Z poll_interval)%Q;
         GcoreClient.poll_count := S n' |}
  end.

(** The time elapsed since the start when status number [n + 1] has been
    read, [n] sleeps having gone before. *)
Definition elapsed_after (up : GcoreClient.upstream) (start_time : Q) (poll_interval : Z)
    (n : nat) : Q :=
  (GcoreClient.now (slept up start_time poll_interval n) + GcoreClient.latency up (S n)
   - start_time)%Q.

Definition pending_word (s : string) : bool := mem (lower s) ["inprogress"; "pending"].

Lemma slept_count (up : GcoreClient.upstream) (start_time : Q) (poll_interval : Z) (n : nat) :
  GcoreClient.poll_count (slept up start_time poll_interval n) = n.
Proof. now destruct n. Qed.

Lemma pending_word_not_terminal (s : string) :
  pending_word s = true ->
  String.eqb (lower s) "completed" = false /\ String.eqb (lower s) "failed" = false.
Proof.
  unfold pending_word, mem. cbn [existsb]. rewrite !orb_true_iff, !String.eqb_eq.
  intros [-> | [-> | H]]; [| |discriminate H]; split; reflexivity.
Qed.

Variable up : GcoreClient.upstream.
Variables (start_time : Q) (timeout poll_interval : Z).

Hypothesis pending :
  forall k, exists d s,
    GcoreClient.check_status up k = Ok (VDict d)
    /\ dict_get d "status" = Some (VStr s)
    /\ pending_word s = true.

Lemma pending_pass (n : nat) :
  GcoreClient.wait_body up start_time timeout poll_interval
    (slept up start_time poll_interval n)
  = if negb (Qle_bool (elapsed_after up start_time poll_interval n) (inject_Z timeout))
    then Fail (HTTPException 504 (GcoreClient.timed_out_detail timeout))
    else Continue (slept up start_time poll_interval (S n)).
Proof.
  destruct (pending (S n)) as (d & s & Hc & Hs & Hp).
  rewrite (gcore_wait_body_ok up start_time timeout poll_interval _ d s);
    rewrite ?slept_count; auto.
  cbv zeta. destruct (pending_word_not_terminal s Hp) as [-> ->].
  unfold pending_word in Hp. rewrite Hp. reflexivity.
Qed.


End WaitForCompletionTimeout.



Lemma wait_for_completion_ends_witness :
  Ok "completed" = Ok "completed"
  \/ (exists k e,
         GcoreClient.check_status
           {| GcoreClient.check_status := fun k =>
                Ok (VDict [("status", VStr (if Nat.leb k 2 then "pending" else "Completed"))]);
              GcoreClient.latency := fun _ => 1%Q |} k = Raise e
         /\ Ok "completed" = Raise e)
  \/ Ok "completed" = Raise AttributeError
  \/ Ok "completed" = Raise (HTTPException 502 "Report generation failed")
  \/ Ok "completed" = Raise (HTTPException 504 (GcoreClient.timed_out_detail 600)).
Proof.
  apply (wait_for_completion_ends
           {| GcoreClient.check_status := fun k =>
                Ok (VDict [("status", VStr (if Nat.leb k 2 then "pending" else "Completed"))]);
              GcoreClient.latency := fun _ => 1%Q |} 0%Q 600 10 5).
  vm_compute. reflexivity.
Defined.

Section WaitForCompletionGivesUp.
Import Poll.

Lemma pending_gives_up (up : GcoreClient.upstream) (start_time : Q)
    (timeout poll_interval : Z) :
  (forall k, exists d s,
      GcoreClient.check_status up k = Ok (VDict d)
      /\ dict_get d "status" = Some (VStr s)
      /\ pending_word s = true) ->
  (forall k, 0 <= GcoreClient.latency up k)%Q ->
  (0 < poll_interval)%Z ->
  forall (m j : nat),
    (inject_Z timeout - elapsed_after up start_time poll_interval j
     < inject_Z (Z.of_nat m) * inject_Z poll_interval)%Q ->
    exists fuel,
      loop (GcoreClient.wait_body up start_time timeout poll_interval) fuel
           (slept up start_time poll_interval j)
      = Some (Raise (HTTPException 504 (GcoreClient.timed_out_detail timeout))).
Proof.
  intros Hp Hlat Hpoll.
  assert (0 < inject_Z poll_interval)%Q as HP.
  { change 0%Q with (inject_Z 0). now rewrite <- Zlt_Qlt. }
  induction m as [|m IH]; intros j Hm.
  - exists 1%nat. rewrite loop_step, (pending_pass up start_time timeout poll_interval Hp).
    assert (Qle_bool (elapsed_after up start_time poll_interval j) (inject_Z timeout) = false)
      as ->; [|reflexivity].
    apply not_true_is_false. intros E. apply Qle_bool_iff in E.
    change (inject_Z (Z.of_nat 0)) with 0%Q in Hm. lra.
  - destruct (Qle_bool (elapsed_after up start_time poll_interval j) (inject_Z timeout)) eqn:E.
    + destruct (IH (S j)) as [fuel Hf].
      { unfold elapsed_after in *. cbn [slept GcoreClient.now].
        pose proof (Hlat (S (S j))) as L.
        rewrite Nat2Z.inj_succ, <- Z.add_1_r, inject_Z_plus in Hm.
        change (inject_Z 1) with 1%Q in Hm.
        set (N := inject_Z (Z.of_nat m)) in *. set (P := inject_Z poll_interval) in *.
        rewrite Qmult_plus_distr_l in Hm. lra. }
      exists (S fuel).
      now rewrite loop_step, (pending_pass up start_time timeout poll_interval Hp), E.
    + exists 1%nat.
      now rewrite loop_step, (pending_pass up start_time timeout poll_interval Hp), E.
Qed.

(** While the status stays "pending" or "inprogress", no status request
    takes negative time and the poll interval is positive,
    [wait_for_completion] does give up: after enough passes it has failed
    with status 504 and the message that names the timeout. *)
Theorem wait_for_completion_gives_up_on_pending (up : GcoreClient.upstream)
    (start_time : Q) (timeout poll_interval : Z) :
  (forall k, exists d s,
      GcoreClient.check_status up k = Ok (VDict d)
      /\ dict_get d "status" = Some (VStr s)
      /\ pending_word s = true) ->
  (forall k, 0 <= GcoreClient.latency up k)%Q ->
  (0 < poll_interval)%Z ->
  exists fuel,
    GcoreClient.wait_for_completion up start_time timeout poll_interval fuel
    = Some (Raise (HTTPException 504 (GcoreClient.timed_out_detail timeout))).
Proof.
  intros Hp Hlat Hpoll. unfold GcoreClient.wait_for_completion.
  apply (pending_gives_up up start_time timeout poll_interval Hp Hlat Hpoll
           (S (Z.to_nat timeout)) 0).
  unfold elapsed_after. cbn [slept GcoreClient.now]. pose proof (Hlat 1%nat) as L.
  assert (inject_Z timeout
          < inject_Z (Z.of_nat (S (Z.to_nat timeout))) * inject_Z poll_interval)%Q.
  { rewrite <- inject_Z_mult, <- Zlt_Qlt. nia. }
  lra.
Qed.

Lemma wait_for_completion_gives_up_on_pending_witness :
  exists fuel,
    GcoreClient.wait_for_completion
      {| GcoreClient.check_status := fun _ => Ok (VDict [("status", VStr "InProgress")]);
         GcoreClient.latency := fun _ => 1%Q |} 0%Q 600 10 fuel
    = Some (Raise (HTTPException 504 (GcoreClient.timed_out_detail 600))).
Proof.
  apply wait_for_completion_gives_up_on_pending.
  - intros k. exists [("status", VStr "InProgress")], "InProgress". repeat split.
  - intros k. simpl. lra.
  - lia.
Defined.

End WaitForCompletionGivesUp.

(** ** Credential Cache: reuse, invalidation, failures *)

Section CredentialsMore.
Import TokenManager.

Lemma get_token_ok_truthy (self self' : t) (current_time : Q) (reply : auth_reply)
    (tok : value) :
  get_token self current_time reply = (Ok tok, self') ->
  truthy tok = true /\ tok = token (_token_cache self').
Proof.
  unfold get_token. destruct (cache_valid self current_time) eqn:V.
  - intros [= <- <-]. unfold cache_valid in V. apply andb_true_iff in V. tauto.
  - destruct (_ || _)%bool; [discriminate|].
    destruct reply as [text | c | text | access access_token life]; try discriminate.
    + destruct (c =? 401); discriminate.
    + destruct (truthy (py_or access access_token)) eqn:T; [|discriminate].
      cbn [negb]. destruct (add_lifetime _ _ life); [|discriminate].
      intros [= <- <-]; now split.
Qed.

(** A token that [get_token] returned is returned again, without a word to
    the upstream and without a change to the cache, by every call made at a
    time whose sum with 60, as the code computes it, is below the expiry in
    the cache. *)
Theorem get_token_reuses_the_cache (self self' : t) (current_time later : Q)
    (reply reply' : auth_reply) (tok : value) :
  get_token self current_time reply = (Ok tok, self') ->
  (float_add later 60 < expires_at (_token_cache self'))%Q ->
  get_token self' later reply' = (Ok tok, self').
Proof.
  intros H L. destruct (get_token_ok_truthy _ _ _ _ _ H) as [T E].
  unfold get_token, cache_valid. rewrite <- E, T.
  assert (Qle_bool (expires_at (_token_cache self')) (float_add later 60) = false) as ->;
    [|reflexivity].
  apply not_true_is_false. intros B. apply Qle_bool_iff in B. lra.
Qed.

Lemma get_token_reuses_the_cache_witness :
  get_token
    {| username := "user"; password := "secret"; cache_duration := 1800;
       _token_cache := {| token := VStr "abc"; expires_at := 2800%Q |} |}
    2739%Q (NoAnswer "")
  = (Ok (VStr "abc"),
     {| username := "user"; password := "secret"; cache_duration := 1800;
        _token_cache := {| token := VStr "abc"; expires_at := 2800%Q |} |}).
Proof.
  apply (get_token_reuses_the_cache
           {| username := "user"; password := "secret"; cache_duration := 1800;
              _token_cache := {| token := VNone; expires_at := 0%Q |} |}
           {| username := "user"; password := "secret"; cache_duration := 1800;
              _token_cache := {| token := VStr "abc"; expires_at := 2800%Q |} |}
           1000%Q 2739%Q (Body VNone (VStr "abc") Absent) (NoAnswer "")).
  - vm_compute. reflexivity.
  - vm_compute. reflexivity.
Defined.

(** After [clear_cache] no time is early enough for the cache to answer: a
    call returns a token only if the upstream answers with one, and that is
    the token returned. *)
Theorem clear_cache_forces_a_refresh (self self' : t) (current_time : Q)
    (reply : auth_reply) (tok : value) :
  get_token (clear_cache self) current_time reply = (Ok tok, self') ->
  exists access access_token expires_in,
    reply = Body access access_token expires_in
    /\ tok = py_or access access_token
    /\ truthy tok = true.
Proof.
  unfold get_token, cache_valid, clear_cache.
  cbn [_token_cache token truthy andb username password cache_duration].
  destruct (_ || _)%bool; [discriminate|].
  destruct reply as [text | c | text | access access_token life]; try discriminate.
  - destruct (c =? 401); discriminate.
  - destruct (truthy (py_or access access_token)) eqn:T; [|discriminate].
    cbn [negb]. destruct (add_lifetime _ _ life); [|discriminate].
    intros [= <- <-]; eauto 6.
Qed.

Lemma clear_cache_forces_a_refresh_witness :
  exists access access_token expires_in,
    Body (VStr "new") VNone (IntSeconds 3600) = Body access access_token expires_in
    /\ VStr "new" = py_or access access_token
    /\ truthy (VStr "new") = true.
Proof.
  apply (clear_cache_forces_a_refresh
           {| username := "user"; password := "secret"; cache_duration := 1800;
              _token_cache := {| token := VStr "old"; expires_at := 9999%Q |} |}
           {| username := "user"; password := "secret"; cache_duration := 1800;
              _token_cache := {| token := VStr "new"; expires_at := 4600%Q |} |}
           1000%Q (Body (VStr "new") VNone (IntSeconds 3600)) (VStr "new")).
  vm_compute. reflexivity.
Defined.

(** The cache between two calls: an empty token goes with the expiry 0. *)
Definition cache_coherent (self : t) : Prop :=
  truthy (token (_token_cache self)) = false -> expires_at (_token_cache self) = 0%Q.

Lemma get_token_keeps_coherence (self : t) (current_time : Q) (reply : auth_reply) :
  cache_coherent self -> cache_coherent (snd (get_token self current_time reply)).
Proof.
  unfold cache_coherent, get_token. intros I.
  destruct (cache_valid self current_time); [exact I|].
  destruct (_ || _)%bool; [exact I|].
  destruct reply as [text | c | text | access access_token life]; try exact I.
  - destruct (c =? 401); exact I.
  - destruct (truthy (py_or access access_token)) eqn:T; [|exact I].
    cbn [negb]. destruct (add_lifetime _ _ life); cbn; congruence.
Qed.

(** A failure of [get_token] is an HTTP error with status 500 (credentials
    not configured), 401 (the upstream answered 401) or 502; it leaves the
    expiry in the cache as it was; and it is not remembered: every later
    call (the clock not going back, and not being negative) asks the
    upstream again. *)
Theorem get_token_failure (self self' : t) (current_time later : Q) (reply : auth_reply)
    (e : exn) :
  cache_coherent self ->
  get_token self current_time reply = (Raise e, self') ->
  (0 <= current_time <= later)%Q ->
  (exists detail,
      e = HTTPException 500 detail
      \/ (e = HTTPException 401 detail /\ reply = ErrorStatus 401)
      \/ e = HTTPException 502 detail)
  /\ expires_at (_token_cache self') = expires_at (_token_cache self)
  /\ cache_coherent self'
  /\ cache_valid self' later = false.
Proof.
  intros I H [T0 T1].
  assert (cache_coherent self') as I'.
  { replace self' with (snd (get_token self current_time reply)) by now rewrite H.
    now apply get_token_keeps_coherence. }
  assert (cache_valid self current_time = false
          /\ expires_at (_token_cache self') = expires_at (_token_cache self)
          /\ exists detail,
               e = HTTPException 500 detail
               \/ (e = HTTPException 401 detail /\ reply = ErrorStatus 401)
               \/ e = HTTPException 502 detail) as (V & E & D).
  { revert H. unfold get_token. destruct (cache_valid self current_time); [discriminate|].
    destruct (_ || _)%bool; [intros [= <- <-]; unfold not_configured; eauto 6|].
    destruct reply as [text | c | text | access access_token life].
    - intros [= <- <-]. unfold auth_failed. eauto 6.
    - destruct (c =? 401) eqn:C; intros [= <- <-]; [|eauto 6].
      apply Z.eqb_eq in C. subst. eauto 7.
    - intros [= <- <-]. unfold auth_failed. eauto 6.
    - destruct (negb _); [intros [= <- <-]; unfold auth_failed; eauto 6|].
      destruct (add_lifetime _ _ life); [discriminate|].
      intros [= <- <-]. unfold auth_failed. eauto 6. }
  repeat split; try assumption.
  assert (float_add current_time 60 <= float_add later 60)%Q as M
    by (apply float_add_mono; lra).
  unfold cache_valid in *. destruct (truthy (token (_token_cache self'))) eqn:T'; [|reflexivity].
  cbn [andb]. apply negb_false_iff, Qle_bool_iff. rewrite E.
  destruct (truthy (token (_token_cache self))) eqn:T.
  - cbn [andb] in V. apply negb_false_iff, Qle_bool_iff in V. lra.
  - rewrite (I T). apply float_round_nonneg. lra.
Qed.

Lemma get_token_failure_witness :
  (exists detail,
      auth_failed "unsupported operand type(s) for +: 'float' and 'str'"
      = HTTPException 500 detail
      \/ (auth_failed "unsupported operand type(s) for +: 'float' and 'str'"
          = HTTPException 401 detail
          /\ Body (VStr "abc") VNone (NotANumber "str") = ErrorStatus 401)
      \/ auth_failed "unsupported operand type(s) for +: 'float' and 'str'"
         = HTTPException 502 detail)
  /\ expires_at
       (_token_cache
          {| username := "user"; password := "secret"; cache_duration := 1800;
             _token_cache := {| token := VStr "abc"; expires_at := 0%Q |} |})
     = expires_at
         (_token_cache
            {| username := "user"; password := "secret"; cache_duration := 1800;
               _token_cache := {| token := VNone; expires_at := 0%Q |} |})
  /\ cache_coherent
       {| username := "user"; password := "secret"; cache_duration := 1800;
          _token_cache := {| token := VStr "abc"; expires_at := 0%Q |} |}
  /\ cache_valid
       {| username := "user"; password := "secret"; cache_duration := 1800;
          _token_cache := {| token := VStr "abc"; expires_at := 0%Q |} |} 1001%Q
     = false.
Proof.
  apply (get_token_failure
           {| username := "user"; password := "secret"; cache_duration := 1800;
              _token_cache := {| token := VNone; expires_at := 0%Q |} |}
           {| username := "user"; password := "secret"; cache_duration := 1800;
              _token_cache := {| token := VStr "abc"; expires_at := 0%Q |} |}
           1000%Q 1001%Q (Body (VStr "abc") VNone (NotANumber "str"))
           (auth_failed "unsupported operand type(s) for +: 'float' and 'str'")).
  - intros _. reflexivity.
  - vm_compute. reflexivity.
  - split; lra.
Defined.

(** The texts of the failures, as the caller sees them. *)
Example get_token_failure_details :
  fst (get_token
         {| username := "user"; password := ""; cache_duration := 1800;
            _token_cache := {| token := VNone; expires_at := 0%Q |} |}
         1000%Q (NoAnswer ""))
  = Raise (HTTPException 500
             "Gcore credentials not configured. Set GCORE_USERNAME and GCORE_PASSWORD environment variables.")
  /\ fst (get_token
            {| username := "user"; password := "secret"; cache_duration := 1800;
               _token_cache := {| token := VNone; expires_at := 0%Q |} |}
            1000%Q (ErrorStatus 503))
     = Raise (HTTPException 502 "Gcore auth failed: 503")
  /\ fst (get_token
            {| username := "user"; password := "secret"; cache_duration := 1800;
               _token_cache := {| token := VNone; expires_at := 0%Q |} |}
            1000%Q (Body VNone (VStr "") Absent))
     = Raise (HTTPException 502
                "Failed to authenticate with Gcore: 502: Failed to get access token from Gcore auth API")
  /\ fst (get_token
            {| username := "user"; password := "secret"; cache_duration := 1800;
               _token_cache := {| token := VNone; expires_at := 0%Q |} |}
            1000%Q (Body (VStr "abc") VNone (IntSeconds (2 ^ 1024))))
     = Raise (HTTPException 502
                "Failed to authenticate with Gcore: int too large to convert to float").
Proof. vm_compute. repeat split. Qed.

End CredentialsMore.

(** ** Configuration and the Credential Cache *)

Section Configuration.
Import TokenManager.

(** The manager after a series of calls of [get_token], each at its time and
    with the answer the upstream would give. *)
Definition after_calls (self : t) (calls : list (Q * auth_reply)) : t :=
  fold_left (fun m call => snd (get_token m (fst call) (snd call))) calls self.

Lemma get_token_keeps_credentials (self : t) (current_time : Q) (reply : auth_reply) :
  username (snd (get_token self current_time reply)) = username self
  /\ password (snd (get_token self current_time reply)) = password self.
Proof.
  unfold get_token. destruct (cache_valid self current_time); [tauto|].
  destruct (_ || _)%bool; [tauto|].
  destruct reply as [text | c | text | access access_token life]; try tauto.
  - destruct (c =? 401); tauto.
  - destruct (negb _); [tauto|]. destruct (add_lifetime _ _ life); cbn; tauto.
Qed.

Lemma after_calls_keeps_credentials (calls : list (Q * auth_reply)) (self : t) :
  username (after_calls self calls) = username self
  /\ password (after_calls self calls) = password self.
Proof.
  revert self. unfold after_calls.
  induction calls as [|[time reply] calls IH]; intros self; simpl; [tauto|].
  destruct (IH (snd (get_token self time reply))) as [-> ->].
  apply get_token_keeps_credentials.
Qed.

(** [Settings.validate] and the error 500 of [get_token] go together.  With
    settings that pass [validate], no call of [get_token] on the manager
    built from them fails with status 500, whatever calls came before; with
    settings that do not, the first call fails with status 500 and the
    upstream is not consulted. *)
Theorem validated_settings_rule_out_500 (settings : Config.Settings) :
  (Config.validate settings = Ok tt ->
   forall calls current_time reply detail,
     fst (get_token (after_calls (Config.token_manager settings) calls) current_time reply)
     <> Raise (HTTPException 500 detail))
  /\ (Config.validate settings = Raise ValueError ->
      forall current_time reply,
        get_token (Config.token_manager settings) current_time reply
        = (Raise
             (HTTPException 500
                "Gcore credentials not configured. Set GCORE_USERNAME and GCORE_PASSWORD environment variables."),
           Config.token_manager settings)).
Proof.
  unfold Config.validate. split.
  - destruct (_ || _)%bool eqn:C; [discriminate|]. intros _ calls current_time reply detail.
    destruct (after_calls_keeps_credentials calls (Config.token_manager settings)) as [U P].
    unfold get_token. rewrite U, P. cbn [Config.token_manager Config.new_token_manager
                                         username password]. rewrite C.
    destruct (cache_valid _ _); [discriminate|].
    destruct reply as [text | c | text | access access_token life]; cbn [fst];
      try discriminate.
    + destruct (c =? 401); discriminate.
    + destruct (negb _); [discriminate|]. destruct (add_lifetime _ _ life); discriminate.
  - destruct (_ || _)%bool eqn:C; [|discriminate]. intros _ current_time reply.
    unfold get_token, cache_valid.
    cbn [Config.token_manager Config.new_token_manager _token_cache token truthy andb
         username password].
    now rewrite C.
Qed.

End Configuration.

(** ** Job Poller of main.py: what it returns *)

Section LegacyWait.
Import Poll.

(** One pass of the loop, at the status request [k]. *)
Lemma legacy_wait_body_ends (up : Legacy.upstream) (deadline : Q) (poll_s : Z)
    (st : Legacy.poll_state) :
  let k := S (Legacy.poll_count st) in
  let last :=
    if String.eqb (status_word up k) "" then Legacy.last_status st
    else status_word up k in
  match Legacy.wait_body up deadline poll_s st with
  | Return s => s = status_word up k /\ mem s Legacy.completed_words = true
  | Fail e =>
      Legacy.reply up k = Raise e
      \/ e = HTTPException 401 "Invalid Gcore token."
      \/ (exists c, e = HTTPStatusError c /\ (c < 200 \/ 299 < c))
      \/ (exists r, Legacy.reply up k = Ok r /\ Legacy.json r = Raise e)
      \/ e = AttributeError
      \/ (exists detail, e = HTTPException 502 detail)
      \/ e = HTTPException 504 (Legacy.timed_out_detail last)
  | Continue st' =>
      Legacy.poll_count st' = k /\ Legacy.last_status st' = last
  end.
Proof.
  cbv zeta. unfold Legacy.wait_body, status_word.
  destruct (Legacy.reply up (S (Legacy.poll_count st))) as [r|e]; [|now left].
  destruct (Legacy.status_code r =? 401); [right; now left|].
  destruct (negb _) eqn:C.
  - right. right. left. eexists. split; [reflexivity|].
    apply negb_true_iff, andb_false_iff in C. destruct C as [C | C]; lia.
  - destruct (Legacy.json r) as [js|e] eqn:J; [|do 3 right; left; eauto].
    assert (forall k e, Legacy.js_get js k = Raise e -> e = AttributeError) as G.
    { intros k e. unfold Legacy.js_get. destruct (truthy js); [|discriminate].
      destruct js; try discriminate; now intros [= <-]. }
    destruct (Legacy.read_status js) as [s|e] eqn:R.
    + destruct (mem s Legacy.completed_words) eqn:M; [now split|].
      destruct (mem s Legacy.failed_words).
      * destruct (Legacy.js_get js "message") as [msg|e] eqn:Em.
        -- do 5 right. left. eauto.
        -- do 4 right. left. now apply (G "message").
      * destruct (Qle_bool deadline _); [|now split]. do 6 right. reflexivity.
    + do 4 right. left. unfold Legacy.read_status in R.
      destruct (Legacy.js_get js "status") as [a|e1] eqn:Ea; cbn [bind] in R;
        [|injection R as <-; now apply (G "status")].
      destruct (Legacy.js_get js "state") as [b|e2] eqn:Eb; cbn [bind] in R;
        [|injection R as <-; now apply (G "state")].
      unfold lower_of in R.
      destruct (py_or a (py_or b (VStr ""))); try discriminate; now injection R as <-.
Qed.

Lemma legacy_loop_ends (up : Legacy.upstream) (deadline : Q) (poll_s : Z) (fuel : nat) :
  forall (st : Legacy.poll_state) (r : result string),
    Legacy.last_status st = last_status_read (status_word up) (Legacy.poll_count st) ->
    loop (Legacy.wait_body up deadline poll_s) fuel st = Some r ->
    exists n,
      (Legacy.poll_count st < n <= Legacy.poll_count st + fuel)%nat
      /\ match r with
         | Ok s => s = status_word up n /\ mem s Legacy.completed_words = true
         | Raise e =>
             Legacy.reply up n = Raise e
             \/ e = HTTPException 401 "Invalid Gcore token."
             \/ (exists c, e = HTTPStatusError c /\ (c < 200 \/ 299 < c))
             \/ (exists res, Legacy.reply up n = Ok res /\ Legacy.json res = Raise e)
             \/ e = AttributeError
             \/ (exists detail, e = HTTPException 502 detail)
             \/ e = HTTPException 504
                      (Legacy.timed_out_detail (last_status_read (status_word up) n))
         end.
Proof.
  induction fuel as [|fuel IH]; intros st r Inv; [discriminate|]. rewrite loop_step.
  pose proof (legacy_wait_body_ends up deadline poll_s st) as B. cbv zeta in B.
  assert ((if String.eqb (status_word up (S (Legacy.poll_count st))) ""
           then Legacy.last_status st
           else status_word up (S (Legacy.poll_count st)))
          = last_status_read (status_word up) (S (Legacy.poll_count st))) as L.
  { cbn [last_status_read]. now rewrite Inv. }
  rewrite L in B.
  destruct (Legacy.wait_body up deadline poll_s st) as [s|e|st'].
  - intros [= <-]. exists (S (Legacy.poll_count st)). split; [lia | exact B].
  - intros [= <-]. exists (S (Legacy.poll_count st)). split; [lia | exact B].
  - destruct B as [Hc Hl]. intros H.
    destruct (IH st' r) as (n & Hn & Hr); [now rewrite Hl, Hc | exact H |].
    exists n. split; [lia | exact Hr].
Qed.

(** [_wait_until_ready] ends at one of its status requests, the [n]-th.
    It returns the status word of that reply, one of the eight words it takes
    for success, in lower case; and it ends in no other error than: what
    [client.get] raised at that request; status 401; the HTTP status error
    of a reply outside 200-299; what [r.json()] raised on that reply;
    [AttributeError]; status 502; status 504 with the last status read in
    the [n] replies. *)
Theorem wait_until_ready_ends (up : Legacy.upstream) (start : Q) (timeout_s poll_s : Z)
    (fuel : nat) (r : result string) :
  Legacy._wait_until_ready up start timeout_s poll_s fuel = Some r ->
  exists n,
    (1 <= n <= fuel)%nat
    /\ match r with
       | Ok s => s = status_word up n /\ mem s Legacy.completed_words = true
       | Raise e =>
           Legacy.reply up n = Raise e
           \/ e = HTTPException 401 "Invalid Gcore token."
           \/ (exists c, e = HTTPStatusError c /\ (c < 200 \/ 299 < c))
           \/ (exists res, Legacy.reply up n = Ok res /\ Legacy.json res = Raise e)
           \/ e = AttributeError
           \/ (exists detail, e = HTTPException 502 detail)
           \/ e = HTTPException 504
                    (Legacy.timed_out_detail (last_status_read (status_word up) n))
       end.
Proof.
  unfold Legacy._wait_until_ready. intros H.
  destruct (legacy_loop_ends up _ poll_s fuel
              {| Legacy.now := start; Legacy.poll_count := 0;
                 Legacy.last_status := "unknown" |} r eq_refl H) as (n & Hn & Hr).
  exists n. split; [cbn [Legacy.poll_count] in Hn; lia | exact Hr].
Qed.

Definition working_then_done : Legacy.upstream :=
  {| Legacy.reply := fun k =>
       Ok {| Legacy.status_code := 200;
             Legacy.json :=
               Ok (VDict [("state", VStr (if Nat.leb k 2 then "working" else "DONE"))]) |};
     Legacy.latency := fun _ => 1%Q |}.

Lemma wait_until_ready_ends_witness :
  exists n,
    (1 <= n <= 5)%nat
    /\ "done" = status_word working_then_done n
    /\ mem "done" Legacy.completed_words = true.
Proof.
  exact (wait_until_ready_ends working_then_done 0%Q 600 10 5 (Ok "done") eq_refl).
Defined.

(** A request that fails, and a body that is not JSON, end the wait with
    the exception they raise. *)
Example wait_until_ready_passes_errors_on :
  Legacy._wait_until_ready
    {| Legacy.reply := fun _ => Raise ValueError; Legacy.latency := fun _ => 1%Q |}
    0%Q 600 10 5
  = Some (Raise ValueError)
  /\ Legacy._wait_until_ready
       {| Legacy.reply := fun _ =>
            Ok {| Legacy.status_code := 200; Legacy.json := Raise ValueError |};
          Legacy.latency := fun _ => 1%Q |}
       0%Q 600 10 5
     = Some (Raise ValueError).
Proof. split; reflexivity. Qed.

Definition always_queued : Legacy.upstream :=
  {| Legacy.reply := fun _ =>
       Ok {| Legacy.status_code := 200;
             Legacy.json := Ok (VDict [("status", VStr "Queued")]) |};
     Legacy.latency := fun _ => 1%Q |}.

Lemma legacy_wait_times_out_witness :
  exists n,
    (1 <= n)%nat
    /\ (forall fuel, (fuel < n)%nat ->
          Legacy._wait_until_ready always_queued 0%Q 600 10 fuel = None)
    /\ (forall fuel, (n <= fuel)%nat ->
          Legacy._wait_until_ready always_queued 0%Q 600 10 fuel
          = Some (Raise (HTTPException 504
                           (Legacy.timed_out_detail
                              (last_status_read (status_word always_queued) n))))).
Proof.
  apply legacy_wait_times_out.
  - intros k. exists [("status", VStr "Queued")], "Queued". repeat split.
  - intros k. simpl. lra.
  - lia.
Defined.

End LegacyWait.

(** ** The recursive cleaners of main.py *)

Section ValueInduction.
Variable P : value -> Prop.
Hypothesis at_none : P VNone.
Hypothesis at_bool : forall b, P (VBool b).
Hypothesis at_int : forall z, P (VInt z).
Hypothesis at_float : forall t, P (VFloat t).
Hypothesis at_str : forall s, P (VStr s).
Hypothesis at_list : forall l, Forall P l -> P (VList l).
Hypothesis at_dict : forall d, Forall (fun kv => P (snd kv)) d -> P (VDict d).

(** Induction on a value, with the hypothesis for every element of a list
    and every value of a mapping. *)
Fixpoint value_nested_ind (v : value) : P v :=
  match v with
  | VNone => at_none
  | VBool b => at_bool b
  | VInt z => at_int z
  | VFloat t => at_float t
  | VStr s => at_str s
  | VList l =>
      at_list l
        ((fix all (l : list value) : Forall P l :=
            match l with
            | [] => Forall_nil P
            | x :: l' => Forall_cons x (value_nested_ind x) (all l')
            end) l)
  | VDict d =>
      at_dict d
        ((fix all (d : list (string * value)) : Forall (fun kv => P (snd kv)) d :=
            match d with
            | [] => Forall_nil _
            | kv :: d' => Forall_cons kv (value_nested_ind (snd kv)) (all d')
            end) d)
  end.
End ValueInduction.

Section LegacyCleaners.
Import LegacyClean.

(** [None] or the empty string. *)
Definition empty_scalar (v : value) : bool :=
  match v with
  | VNone | VStr EmptyString => true
  | _ => false
  end.

(** Somewhere inside [v], as a value of a mapping or an element of a list,
    there is [None] or the empty string, or, as an element of a list, an
    empty list or an empty mapping. *)
Fixpoint holds_null (v : value) : bool :=
  match v with
  | VDict d => existsb (fun kv => (empty_scalar (snd kv) || holds_null (snd kv))%bool) d
  | VList l => existsb (fun x => (null_like x || holds_null x)%bool) l
  | _ => false
  end.

Lemma strip_nulls_not_empty_scalar (v : value) :
  null_like v = false -> empty_scalar (_strip_nulls v) = false.
Proof. destruct v as [| | | |[|c s]|l|d]; simpl; try reflexivity; discriminate. Qed.

(** Whatever is given to [_strip_nulls], nothing in what it returns holds
    [None] or an empty string, at any depth, and no list in it has an empty
    list or an empty mapping as an element.  (A mapping can still have an
    empty list or an empty mapping as a value: values are tested before
    they are cleaned.) *)
Theorem strip_nulls_leaves_no_null (obj : value) : holds_null (_strip_nulls obj) = false.
Proof.
  induction obj as [| | | | | l IH | d IH] using value_nested_ind; try reflexivity.
  - simpl. induction IH as [|x l Hx Hl IHl]; simpl; [reflexivity|].
    destruct (null_like (_strip_nulls x)) eqn:N; simpl; [exact IHl|].
    now rewrite N, Hx.
  - simpl. induction IH as [|[k v] d Hv Hd IHd]; simpl; [reflexivity|].
    destruct (null_like v) eqn:N; simpl; [exact IHd|].
    simpl in Hv. now rewrite (strip_nulls_not_empty_scalar v N), Hv.
Qed.

(** Cleaning is not idempotent: a mapping emptied by one pass is dropped by
    the next. *)
Example strip_nulls_twice :
  _strip_nulls (VDict [("a", VDict [("b", VNone)]); ("c", VInt 1)])
  = VDict [("a", VDict []); ("c", VInt 1)]
  /\ _strip_nulls (VDict [("a", VDict []); ("c", VInt 1)]) = VDict [("c", VInt 1)].
Proof. split; reflexivity. Qed.

(** A value that is neither a list nor a mapping. *)
Definition flat (v : value) : bool :=
  match v with
  | VList _ | VDict _ => false
  | _ => true
  end.

(** On a row without nested values, as the rows read from CSV are, the
    cleaners of main.py do what those of data_processor.py do:
    [_strip_nulls] is [strip_nulls], and [_remove_zero_numeric_fields] is
    [remove_zero_numeric_fields] provided no text of the row reads as the
    number zero ("0", " 0.0 ", "0,000": main.py drops these, data_processor.py
    keeps them). *)
Theorem legacy_cleaners_on_flat_rows (row : record) :
  (forall k v, In (k, v) row -> flat v = true) ->
  _strip_nulls (VDict row) = VDict (DataProcessor.strip_nulls row)
  /\ ((forall k s, In (k, VStr s) row -> is_zero_numeric (VStr s) = false) ->
      _remove_zero_numeric_fields (VDict row)
      = VDict (DataProcessor.remove_zero_numeric_fields row)).
Proof.
  intros F. split; [|intros Z]; simpl; f_equal.
  - induction row as [|[k v] row IH]; [reflexivity|]. simpl.
    assert (flat v = true) as Fv by (apply (F k); now left).
    rewrite IH by (intros k' v' H; apply (F k'); now right).
    destruct v as [| | | |[|c s]|l|d]; try discriminate; reflexivity.
  - induction row as [|[k v] row IH]; [reflexivity|]. simpl.
    assert (flat v = true) as Fv by (apply (F k); now left).
    rewrite IH; [|intros k' v' H; apply (F k'); now right
                 |intros k' s H; apply (Z k'); now right].
    destruct v as [|b|z|t|s|l|d]; try discriminate; try reflexivity.
    + simpl. now destruct b.
    + simpl. now destruct (z =? 0).
    + simpl. now destruct (float_is_zero t).
    + now rewrite (Z k s (or_introl eq_refl)).
Qed.

Lemma legacy_cleaners_on_flat_rows_witness :
  _strip_nulls (VDict [("name", VStr "cdn"); ("hits", VInt 0); ("note", VStr "")])
  = VDict (DataProcessor.strip_nulls
             [("name", VStr "cdn"); ("hits", VInt 0); ("note", VStr "")])
  /\ ((forall k s,
          In (k, VStr s) [("name", VStr "cdn"); ("hits", VInt 0); ("note", VStr "")] ->
          is_zero_numeric (VStr s) = false) ->
      _remove_zero_numeric_fields
        (VDict [("name", VStr "cdn"); ("hits", VInt 0); ("note", VStr "")])
      = VDict (DataProcessor.remove_zero_numeric_fields
                 [("name", VStr "cdn"); ("hits", VInt 0); ("note", VStr "")])).
Proof.
  apply legacy_cleaners_on_flat_rows.
  intros k v [[= <- <-] | [[= <- <-] | [[= <- <-] | []]]]; reflexivity.
Defined.

(** A text that reads as zero is where the two differ. *)
Example cleaners_differ_on_zero_text :
  _remove_zero_numeric_fields (VDict [("Metric value", VStr " 0,000.0 ")]) = VDict []
  /\ DataProcessor.remove_zero_numeric_fields [("Metric value", VStr " 0,000.0 ")]
     = [("Metric value", VStr " 0,000.0 ")].
Proof. split; reflexivity. Qed.

End LegacyCleaners.

Section LegacyRemoveZero.
Import LegacyClean.

(** The two inner loops of [_remove_zero_numeric_fields], by name. *)
Fixpoint kept_items (l : list value) : list value :=
  match l with
  | [] => []
  | item :: l' =>
      match item with
      | VDict _ =>
          match _remove_zero_numeric_fields item with
          | VDict [] => kept_items l'
          | sub => sub :: kept_items l'
          end
      | _ => if is_zero_numeric item then kept_items l' else item :: kept_items l'
      end
  end.

Fixpoint kept_fields (d : list (string * value)) : list (string * value) :=
  match d with
  | [] => []
  | (k, v) :: d' =>
      match v with
      | VDict _ =>
          match _remove_zero_numeric_fields v with
          | VDict [] => kept_fields d'
          | nv => (k, nv) :: kept_fields d'
          end
      | VList l =>
          match kept_items l with
          | [] => kept_fields d'
          | nv_list => (k, VList nv_list) :: kept_fields d'
          end
      | _ => if is_zero_numeric v then kept_fields d' else (k, v) :: kept_fields d'
      end
  end.

Lemma remove_zero_of_dict (d : record) :
  _remove_zero_numeric_fields (VDict d) = VDict (kept_fields d).
Proof. reflexivity. Qed.

Ltac case_zero :=
  match goal with
  | |- In _ (if is_zero_numeric ?v then _ else _) -> _ =>
      destruct (is_zero_numeric v) eqn:Hzero
  end.

Lemma kept_items_spec (l : list value) (item : value) :
  In item (kept_items l) -> is_zero_numeric item = false /\ item <> VDict [].
Proof.
  induction l as [|x l IH]; [intros []|]. cbn [kept_items].
  destruct x as [|b|z|t|s|l0|d0];
    try (case_zero; [exact IH|];
         intros [<- | H]; [split; [exact Hzero | discriminate] | now apply IH]).
  rewrite remove_zero_of_dict.
  destruct (kept_fields d0) as [|f fields]; [exact IH|].
  intros [<- | H]; [split; [reflexivity | discriminate] | now apply IH].
Qed.

Lemma kept_fields_spec (d : record) (k : string) (v : value) :
  In (k, v) (kept_fields d) ->
  In k (keys d)
  /\ is_zero_numeric v = false
  /\ v <> VDict [] /\ v <> VList []
  /\ forall items item,
       v = VList items -> In item items ->
       is_zero_numeric item = false /\ item <> VDict [].
Proof.
  induction d as [|[k0 v0] d IH]; [intros []|]. cbn [kept_fields].
  assert (In (k, v) (kept_fields d) ->
          In k (keys ((k0, v0) :: d))
          /\ is_zero_numeric v = false
          /\ v <> VDict [] /\ v <> VList []
          /\ forall items item,
               v = VList items -> In item items ->
               is_zero_numeric item = false /\ item <> VDict []) as Later.
  { intros H. destruct (IH H) as [Hk Hrest]. split; [now right | exact Hrest]. }
  destruct v0 as [|b|z|t|s|l0|d0];
    try (case_zero; [exact Later|];
         intros [[= <- <-] | H]; [|now apply Later];
         split; [now left|]; split; [exact Hzero|];
         split; [discriminate|]; split; [discriminate|]; intros items item [=]).
  - destruct (kept_items l0) as [|i0 items0] eqn:E; [exact Later|].
    intros [[= <- <-] | H]; [|now apply Later].
    split; [now left|]. split; [reflexivity|]. split; [discriminate|].
    split; [discriminate|]. intros items item [= <-] Hin.
    apply (kept_items_spec l0). now rewrite E.
  - rewrite remove_zero_of_dict.
    destruct (kept_fields d0) as [|f fields]; [exact Later|].
    intros [[= <- <-] | H]; [|now apply Later].
    split; [now left|]. split; [reflexivity|]. split; [discriminate|].
    split; [discriminate|]. intros items item [=].
Qed.

(** The fields [_remove_zero_numeric_fields] leaves in a row: each is a field
    name of the row; its value is not a number equal to zero, nor a text that
    reads as zero, nor an empty mapping, nor an empty list; and when it is a
    list, its elements are not numbers equal to zero, texts that read as
    zero, or empty mappings. *)
Theorem legacy_remove_zero_fields (d : record) :
  exists fields,
    _remove_zero_numeric_fields (VDict d) = VDict fields
    /\ forall k v,
         In (k, v) fields ->
         In k (keys d)
         /\ is_zero_numeric v = false
         /\ v <> VDict [] /\ v <> VList []
         /\ forall items item,
              v = VList items -> In item items ->
              is_zero_numeric item = false /\ item <> VDict [].
Proof.
  exists (kept_fields d). split; [apply remove_zero_of_dict | apply kept_fields_spec].
Qed.

(** A list inside a list is left as it is, zeros included. *)
Example legacy_remove_zero_example :
  _remove_zero_numeric_fields
    (VDict [("a", VInt 0); ("b", VStr "0.0"); ("c", VDict [("x", VFloat "0.0")]);
            ("d", VList [VInt 0; VDict [("y", VBool false)]; VStr "n/a"; VList [VInt 0]]);
            ("e", VList [VInt 0]); ("f", VNone)])
  = VDict [("d", VList [VStr "n/a"; VList [VInt 0]]); ("f", VNone)].
Proof. reflexivity. Qed.

(** A text that [float] refuses is kept, also when it reads as zero once
    the separator in front is set aside: [float] does not skip FS. *)
Example legacy_remove_zero_keeps_what_float_refuses :
  _remove_zero_numeric_fields
    (VDict [("a", VStr (String "," (String (ascii_of_nat 28) "0"))); ("b", VStr " 0,000 ")])
  = VDict [("a", VStr (String "," (String (ascii_of_nat 28) "0")))].
Proof. vm_compute. reflexivity. Qed.

End LegacyRemoveZero.

(** ** The output format of a request *)

Section Formats.
Import Routes.

Lemma parse_accept_header_known (accept : option string) :
  In (_parse_accept_header accept) allowed_formats.
Proof.
  unfold _parse_accept_header, allowed_formats. destruct accept as [h|]; [|now left].
  destruct (String.eqb h ""); [now left|].
  destruct (contains spreadsheet_type _); [right; right; now left|].
  destruct (contains "text/csv" _); [right; now left|].
  destruct (contains "application/json" _); now left.
Qed.

Lemma validate_format_known (v f : string) :
  validate_format v = Ok f -> f = lower v /\ In f allowed_formats.
Proof.
  unfold validate_format. destruct (Poll.mem (lower v) allowed_formats) eqn:E; [|discriminate].
  intros [= <-]. split; [reflexivity|].
  unfold Poll.mem in E. apply existsb_exists in E. destruct E as (x & Hin & E).
  apply String.eqb_eq in E. now subst.
Qed.

(** The format a request is answered in, for a body whose [format] passed
    [validate_format]: the Accept header decides when it names CSV or the
    spreadsheet type, the body's format otherwise; the result is one of
    json, csv and excel, and what is asked of the upstream is json or csv,
    never excel. *)
Theorem final_format_is_a_known_format (accept : option string) (v f : string) :
  validate_format v = Ok f ->
  final_format accept f
  = (if String.eqb (_parse_accept_header accept) "json" then f
     else _parse_accept_header accept)
  /\ In (final_format accept f) allowed_formats
  /\ In (download_format (final_format accept f)) ["json"; "csv"].
Proof.
  intros H. apply validate_format_known in H. destruct H as [_ Hf].
  assert (final_format accept f
          = (if String.eqb (_parse_accept_header accept) "json" then f
             else _parse_accept_header accept)) as E.
  { unfold final_format. cbv zeta.
    destruct (String.eqb (_parse_accept_header accept) "json") eqn:Ej; simpl; [|reflexivity].
    destruct (String.eqb f "json") eqn:Ef; [|reflexivity].
    apply String.eqb_eq in Ej, Ef. congruence. }
  assert (In (final_format accept f) allowed_formats) as Hin.
  { rewrite E. destruct (String.eqb _ "json"); [exact Hf | apply parse_accept_header_known]. }
  split; [exact E|]. split; [exact Hin|].
  unfold download_format. unfold allowed_formats in Hin.
  destruct Hin as [<- | [<- | [<- | []]]]; simpl; tauto.
Qed.

Lemma final_format_is_a_known_format_witness :
  validate_format "CSV" = Ok "csv"
  /\ final_format (Some "application/vnd.openxmlformats-officedocument.spreadsheetml.sheet") "csv"
     = "excel"
  /\ In (download_format
           (final_format (Some "application/vnd.openxmlformats-officedocument.spreadsheetml.sheet")
                         "csv"))
        ["json"; "csv"].
Proof.
  split; [reflexivity|].
  destruct (final_format_is_a_known_format
              (Some "application/vnd.openxmlformats-officedocument.spreadsheetml.sheet")
              "CSV" "csv" eq_refl) as (E & _ & H).
  split; [exact E | exact H].
Defined.

(** A header that only names JSON does not override the body. *)
Example json_header_leaves_the_body_format :
  final_format (Some "application/json") "excel" = "excel"
  /\ final_format (Some "text/csv, application/json") "excel" = "csv"
  /\ final_format None "csv" = "csv".
Proof. repeat split. Qed.

End Formats.

(** ** The aggregated report *)

Section Aggregation.
Import Routes DataProcessor.

Lemma dict_get_set_same (d : record) (k : string) (v : value) :
  dict_get (dict_set d k v) k = Some v.
Proof.
  induction d as [|[k' v'] d IH]; simpl.
  - now rewrite String.eqb_refl.
  - destruct (String.eqb k' k) eqn:E; simpl; rewrite E; [reflexivity | exact IH].
Qed.

Lemma dict_set_keys_in (d : record) (k x : string) (v : value) :
  In x (keys (dict_set d k v)) -> x = k \/ In x (keys d).
Proof.
  induction d as [|[k' v'] d IH]; simpl.
  - intros [<- | []]. now left.
  - destruct (String.eqb k' k); simpl; [tauto|].
    intros [<- | H]; [right; now left|]. destruct (IH H); tauto.
Qed.

Lemma dict_set_keys_distinct (d : record) (k : string) (v : value) :
  NoDup (keys d) -> NoDup (keys (dict_set d k v)).
Proof.
  induction d as [|[k' v'] d IH]; simpl; intros H.
  - constructor; [intros []|constructor].
  - inversion H as [|? ? Hk Hd]; subst.
    destruct (String.eqb k' k) eqn:E; simpl; [now constructor|].
    constructor; [|now apply IH].
    intros Hin. apply dict_set_keys_in in Hin. destruct Hin as [-> | Hin]; [|tauto].
    now rewrite String.eqb_refl in E.
Qed.

Lemma aggregate_rows (outcomes : list (string * result (list record))) (row : record) :
  In row (fst (aggregate outcomes)) ->
  exists product filtered original,
    In (product, Ok filtered) outcomes /\ In original filtered
    /\ row = dict_set original "Product" (VStr product).
Proof.
  induction outcomes as [|[product [filtered|e]] rest IH]; simpl; [intros []| |].
  - destruct (aggregate rest) as [all_data total_count]. simpl in *.
    intros H. apply in_app_or in H. destruct H as [H | H].
    + unfold tag_product in H. apply in_map_iff in H. destruct H as (original & <- & Hin).
      exists product, filtered, original. tauto.
    + destruct (IH H) as (p & f & o & Hp & Ho & E). exists p, f, o. tauto.
  - intros H. destruct (IH H) as (p & f & o & Hp & Ho & E). exists p, f, o. tauto.
Qed.

Lemma aggregate_count (outcomes : list (string * result (list record))) :
  snd (aggregate outcomes) = List.length (fst (aggregate outcomes)).
Proof.
  induction outcomes as [|[product [filtered|e]] rest IH]; simpl; [reflexivity| |exact IH].
  destruct (aggregate rest) as [all_data total_count]. simpl in *.
  unfold tag_product. now rewrite length_app, length_map, IH.
Qed.

(** The aggregate of [generate_all_reports]: the count reported is the number
    of rows collected; each row collected is a filtered row of a product
    whose pipeline ended well, with its [Product] field set to that
    product's name; a product whose pipeline raised gives no row. *)
Theorem aggregate_rows_carry_their_product
    (outcomes : list (string * result (list record))) :
  snd (aggregate outcomes) = List.length (fst (aggregate outcomes))
  /\ forall row,
       In row (fst (aggregate outcomes)) ->
       exists product filtered original,
         In (product, Ok filtered) outcomes /\ In original filtered
         /\ row = dict_set original "Product" (VStr product)
         /\ dict_get row "Product" = Some (VStr product).
Proof.
  split; [apply aggregate_count|]. intros row H.
  destruct (aggregate_rows _ _ H) as (p & f & o & Hp & Ho & E).
  exists p, f, o. repeat split; try assumption. subst. apply dict_get_set_same.
Qed.

(** The JSON answer of [generate_all_reports]: cleaning the aggregated rows
    keeps their number, which is the count reported, and keeps the [Product]
    field of every row, when the product names are not empty. *)
Theorem aggregated_json_keeps_the_product
    (outcomes : list (string * result (list record))) :
  (forall product filtered row,
     In (product, Ok filtered) outcomes -> In row filtered -> NoDup (keys row)) ->
  (forall product r, In (product, r) outcomes -> product <> "") ->
  List.length (processed_data (fst (aggregate outcomes))) = snd (aggregate outcomes)
  /\ forall row,
       In row (processed_data (fst (aggregate outcomes))) ->
       exists product filtered,
         In (product, Ok filtered) outcomes
         /\ dict_get row "Product" = Some (VStr product).
Proof.
  intros Hkeys Hnames. split.
  - unfold processed_data. now rewrite length_map, aggregate_count.
  - intros row H. unfold processed_data in H. apply in_map_iff in H.
    destruct H as (row0 & <- & H).
    destruct (aggregate_rows _ _ H) as (p & f & o & Hp & Ho & ->).
    exists p, f. split; [exact Hp|].
    unfold strip_nulls, remove_zero_numeric_fields.
    rewrite dict_get_filter
      by (apply filter_keys_distinct, dict_set_keys_distinct; exact (Hkeys _ _ _ Hp Ho)).
    rewrite (dict_get_filter (fun v => negb (is_numeric_zero v)))
      by (apply dict_set_keys_distinct; exact (Hkeys _ _ _ Hp Ho)).
    rewrite dict_get_set_same. simpl.
    destruct (String.eqb p "") eqn:E; [|reflexivity].
    apply String.eqb_eq in E. elim (Hnames _ _ Hp E).
Qed.

Definition three_products : list (string * result (list record)) :=
  [("CDN", Ok [[("Client ID", VStr "7"); ("Metric value", VInt 3); ("Region", VStr "")]]);
   ("WAAP", Raise (HTTPException 502 "Failed to start report: 500"));
   ("Cloud", Ok [[("Client ID", VStr "7"); ("Metric value", VStr "1.5"); ("Product", VInt 0)]])].

Lemma aggregated_json_keeps_the_product_witness :
  List.length (processed_data (fst (aggregate three_products))) = 2%nat
  /\ forall row,
       In row (processed_data (fst (aggregate three_products))) ->
       exists product filtered,
         In (product, Ok filtered) three_products
         /\ dict_get row "Product" = Some (VStr product).
Proof.
  apply (aggregated_json_keeps_the_product three_products).
  - intros product filtered row H Hrow. simpl in H.
    destruct H as [[= <- <-] | [[=] | [[= <- <-] | []]]];
      destruct Hrow as [<- | []]; simpl;
      repeat (constructor; [simpl; intuition discriminate|]); constructor.
  - intros product r H. simpl in H.
    destruct H as [[= <- <-] | [[= <- <-] | [[= <- <-] | []]]]; discriminate.
Defined.

(** The tag replaces a [Product] column the report already had, and the rows
    of the product that failed are missing. *)
Example aggregate_three_products :
  aggregate three_products
  = ([[("Client ID", VStr "7"); ("Metric value", VInt 3); ("Region", VStr "");
       ("Product", VStr "CDN")];
      [("Client ID", VStr "7"); ("Metric value", VStr "1.5"); ("Product", VStr "Cloud")]],
     2%nat).
Proof. reflexivity. Qed.

End Aggregation.
